(** * Market data pipeline: indicator engine and market aggregator

    A shallow embedding of [scripts/data_processor.py] (class
    [MarketDataProcessor]) and [scripts/report_generator.py] (class
    [MarketReportGenerator]), with the properties of their indicators,
    classification and ranking.

    Numbers.  A pandas float64 cell is a [float64]: a finite value, one of
    the two infinities, or NaN (the missing-value marker).  Finite values
    are exact rationals and a decimal literal of the source is the
    rational it denotes: rounding, overflow to infinity and the sign of a
    zero are not tracked, the special values and the comparisons follow
    IEEE 754.  The one place where the sign of a zero could show is the
    relative strength over a zero mean loss, and there both infinities
    give the same index ([rsi_formula_infinite]).  An int64 cell is a [Z]
    with its wrap-around written out ([wrap64]).  The square root is a
    parameter of the development ([sqrt64]), of which only
    non-negativity is ever assumed.  A cell that the engine computes is
    thus the exact value of which the float64 of the code is the rounded
    one, and the two can differ in the last place: a close going from
    100 to 102 gives the return 1/50 here and a float64 just above the
    literal [0.02] in the code.  For this reason the properties of the
    thresholds of the market summary (classification, ranking, alerts)
    are stated on the frames as they are handed to the aggregator, with
    the cells as they are given, and not on cells computed by the model
    of the engine.

    Frames.  A raw series is a list of bars with finite prices; an
    annotated frame is a list of rows with one field per column.  The
    columns [Symbol], [Dividends] and [Stock Splits] of the downloaded
    files take no part in any computation and are left out.  Files and
    the clock are inputs: the files found by [glob] with their content,
    the formatted date of the run. *)

From Stdlib Require Import String Ascii.
From Stdlib Require Import QArith Qabs Qround ZArith Bool Arith List Lia Lqa.
From Stdlib Require Import Sorting.Sorted Permutation.
Import ListNotations.

Open Scope Q_scope.

(** ** float64 cells *)

Inductive float64 : Type :=
| Fin (q : Q)
| PInf
| NInf
| NaN.

(** [pd.isna] on a float cell. *)
Definition isna (x : float64) : bool :=
  match x with NaN => true | _ => false end.

Definition of_Z (z : Z) : float64 := Fin (inject_Z z).
Definition of_nat (n : nat) : float64 := of_Z (Z.of_nat n).

Definition fneg (x : float64) : float64 :=
  match x with
  | Fin q => Fin (- q)
  | PInf => NInf
  | NInf => PInf
  | NaN => NaN
  end.

Definition fadd (x y : float64) : float64 :=
  match x, y with
  | NaN, _ | _, NaN => NaN
  | Fin a, Fin b => Fin (a + b)
  | PInf, NInf | NInf, PInf => NaN
  | PInf, _ | _, PInf => PInf
  | NInf, _ | _, NInf => NInf
  end.

Definition fsub (x y : float64) : float64 := fadd x (fneg y).

(** Infinity scaled by a finite factor: the sign of the factor decides,
    and a zero factor gives NaN. *)
Definition scale_inf (pos : bool) (a : Q) : float64 :=
  match a ?= 0 with
  | Eq => NaN
  | Gt => if pos then PInf else NInf
  | Lt => if pos then NInf else PInf
  end.

Definition fmul (x y : float64) : float64 :=
  match x, y with
  | NaN, _ | _, NaN => NaN
  | Fin a, Fin b => Fin (a * b)
  | Fin a, PInf | PInf, Fin a => scale_inf true a
  | Fin a, NInf | NInf, Fin a => scale_inf false a
  | PInf, PInf | NInf, NInf => PInf
  | PInf, NInf | NInf, PInf => NInf
  end.

(** Division: a finite non-zero value over zero is infinite, zero over
    zero and infinity over infinity are NaN. *)
Definition fdiv (x y : float64) : float64 :=
  match x, y with
  | NaN, _ | _, NaN => NaN
  | Fin a, Fin b =>
      match b ?= 0 with
      | Eq => match a ?= 0 with Eq => NaN | Gt => PInf | Lt => NInf end
      | _ => Fin (a / b)
      end
  | Fin _, PInf | Fin _, NInf => Fin 0
  | PInf, Fin b => match b ?= 0 with Lt => NInf | _ => PInf end
  | NInf, Fin b => match b ?= 0 with Lt => PInf | _ => NInf end
  | _, _ => NaN
  end.

Definition fabs (x : float64) : float64 :=
  match x with
  | Fin q => Fin (Qabs q)
  | PInf | NInf => PInf
  | NaN => NaN
  end.

(** Comparisons: every comparison with NaN is false. *)
Definition fltb (x y : float64) : bool :=
  match x, y with
  | NaN, _ | _, NaN => false
  | Fin a, Fin b => match a ?= b with Lt => true | _ => false end
  | NInf, NInf | PInf, PInf => false
  | NInf, _ | _, PInf => true
  | _, _ => false
  end.

Definition fgtb (x y : float64) : bool := fltb y x.

Definition feqb (x y : float64) : bool :=
  match x, y with
  | Fin a, Fin b => Qeq_bool a b
  | PInf, PInf | NInf, NInf => true
  | _, _ => false
  end.

Definition fleb (x y : float64) : bool := fltb x y || feqb x y.

(** Equality of cells as values: [Qeq] on finite ones. *)
Definition fsame (x y : float64) : Prop :=
  match x, y with
  | Fin a, Fin b => a == b
  | PInf, PInf | NInf, NInf | NaN, NaN => True
  | _, _ => False
  end.

(** [x] is a finite value within [lo, hi]. *)
Definition within (lo hi : Q) (x : float64) : Prop :=
  match x with Fin q => lo <= q /\ q <= hi | _ => False end.

(** ** int64 cells *)

Definition wrap64 (z : Z) : Z :=
  ((z + 2 ^ 63) mod 2 ^ 64 - 2 ^ 63)%Z.

Definition int64_range (z : Z) : Prop := (- 2 ^ 63 <= z < 2 ^ 63)%Z.

(** ** Data model *)

(** One raw bar, as a row of a downloaded CSV file: prices are finite
    numbers, the volume is an int64 cell. *)
Module Bar.
Record t : Type := mk {
  Date : nat;
  Open : Q;
  High : Q;
  Low : Q;
  Close : Q;
  Volume : Z
}.
End Bar.

(** One row of an annotated frame, as [process_symbol_data] builds it and
    as the report generator reads it back. *)
Module Row.
Record t : Type := mk {
  Date : nat;
  Open : float64;
  High : float64;
  Low : float64;
  Close : float64;
  Volume : Z;
  SMA_20 : float64;
  SMA_50 : float64;
  EMA_20 : float64;
  RSI : float64;
  BB_Upper : float64;
  BB_Middle : float64;
  BB_Lower : float64;
  MACD : float64;
  MACD_Signal : float64;
  MACD_Histogram : float64;
  Volatility : float64;
  Volume_MA : float64;
  Volume_Ratio : float64;
  OBV : Z;
  Daily_Return : float64;
  Price_Change : float64;
  Price_Change_Pct : float64;
  HL_Spread : float64;
  HL_Spread_Pct : float64
}.
End Row.

(** The content of a file that [pd.read_csv] is asked to load: either the
    load raises (missing or empty file, missing column), or it yields a
    table of bars, which may have no row at all (a header-only file). *)
Inductive csv_file : Type :=
| Unreadable
| Table (bars : list Bar.t).

Inductive exn : Type :=
| IndexError.

Inductive result (A : Type) : Type :=
| Ok (a : A)
| Raise (e : exn).
Arguments Ok {A} a.
Arguments Raise {A} e.

(** The dictionary of [generate_summary_stats]. *)
Module Stats.
Record t : Type := mk {
  symbol : string;
  date : nat;
  close_price : float64;
  daily_return : float64;
  volume : Z;
  volume_ratio : float64;
  rsi : float64;
  sma_20 : float64;
  sma_50 : float64;
  volatility : float64;
  bb_position : string;
  macd_signal : string
}.
End Stats.

(** The [alerts] section of the YAML configuration; every level may be
    absent and is then replaced by its default. *)
Module Config.
Record alerts_t : Type := mk_alerts {
  volume_multiplier : option float64;
  price_change_threshold : option float64
}.
Record t : Type := mk {
  alerts : option alerts_t
}.
End Config.

(** [symbol_info] of [generate_market_summary]. *)
Module Info.
Record t : Type := mk {
  symbol : string;
  price : float64;
  change : float64;
  volume : Z;
  volume_ratio : float64
}.
End Info.

(** A price-change alert.  The message is the f-string
    [symbol moved x.xx% today]: it is kept as its two arguments, the
    symbol and the percentage that is formatted. *)
Module Alert.
Record t : Type := mk {
  symbol : string;
  type : string;
  message : string * float64;
  severity : string
}.
End Alert.

(** The market summary. *)
Module Market.
Record t : Type := mk {
  date : string;
  total_symbols : nat;
  gainers : list Info.t;
  losers : list Info.t;
  high_volume : list Info.t;
  alerts : list Alert.t
}.
End Market.

Module Levels.
Record t : Type := mk {
  support : float64;
  resistance : float64
}.
End Levels.

(** The dictionary of [generate_symbol_analysis]. *)
Module Analysis.
Record t : Type := mk {
  symbol : string;
  current_price : float64;
  daily_change : float64;
  daily_change_abs : float64;
  volume : Z;
  volume_change : float64;
  rsi : float64;
  sma_20 : float64;
  sma_50 : float64;
  bb_position : string;
  macd_signal : float64;
  volatility : float64;
  avg_return_7d : float64;
  avg_return_30d : float64;
  volatility_7d : float64;
  volatility_30d : float64;
  trend_sma : string;
  support_resistance : Levels.t
}.
End Analysis.

(** ** Series operations of pandas and numpy *)

Fixpoint map2 {A B C : Type} (f : A -> B -> C) (l1 : list A) (l2 : list B)
  : list C :=
  match l1, l2 with
  | a :: l1', b :: l2' => f a b :: map2 f l1' l2'
  | _, _ => []
  end.

(** [s.shift(1)]: every value moves one index down, NaN enters at 0. *)
Definition shift1 (xs : list float64) : list float64 :=
  match xs with
  | [] => []
  | _ :: _ => NaN :: removelast xs
  end.

(** [s.diff()] *)
Definition diff (xs : list float64) : list float64 :=
  map2 fsub xs (shift1 xs).

(** [s.pct_change()]: [s / s.shift(1) - 1].  The forward fill that some
    versions of pandas apply first changes nothing on a column without
    NaN, which is what the closes of a series are. *)
Definition pct_change (xs : list float64) : list float64 :=
  map2 (fun x p => fsub (fdiv x p) (Fin 1)) xs (shift1 xs).

(** [s.where(cond, other)] with [cond] computed cell by cell. *)
Definition where_ (cond : float64 -> bool) (other : float64)
  (xs : list float64) : list float64 :=
  map (fun x => if cond x then x else other) xs.

(** [np.where(c, a, b)] *)
Fixpoint np_where {A : Type} (c : list bool) (a b : list A) : list A :=
  match c, a, b with
  | ci :: c', ai :: a', bi :: b' =>
      (if ci then ai else bi) :: np_where c' a' b'
  | _, _, _ => []
  end.

(** [.cumsum()] of an int64 array. *)
Fixpoint cumsum_from (acc : Z) (l : list Z) : list Z :=
  match l with
  | [] => []
  | x :: t => let s := wrap64 (acc + x) in s :: cumsum_from s t
  end.

Definition cumsum (l : list Z) : list Z := cumsum_from 0 l.

(** The trailing window of at most [w] cells that ends at index [i]. *)
Definition trailing {A : Type} (w i : nat) (xs : list A) : list A :=
  skipn (i + 1 - w) (firstn (i + 1) xs).

(** The cells of a window that hold an observation. *)
Definition observed (xs : list float64) : list float64 :=
  filter (fun x => negb (isna x)) xs.

(** The window functions of pandas take an infinite cell for a missing
    one. *)
Definition prep (x : float64) : float64 :=
  match x with
  | PInf | NInf => NaN
  | _ => x
  end.

(** [s.rolling(window=w).agg()]: [min_periods] defaults to the window
    size, so the result is NaN unless the window holds [w] observations. *)
Definition rolling (w : nat) (agg : list float64 -> float64)
  (xs : list float64) : list float64 :=
  map (fun i =>
         let obs := observed (map prep (trailing w i xs)) in
         if (length obs <? w)%nat then NaN else agg obs)
      (seq 0 (length xs)).

Definition fsum (xs : list float64) : float64 :=
  fold_right fadd (Fin 0) xs.

Definition mean (obs : list float64) : float64 :=
  fdiv (fsum obs) (of_nat (length obs)).

(** Sample variance ([ddof = 1]): NaN with fewer than two observations. *)
Definition var (obs : list float64) : float64 :=
  if (length obs <=? 1)%nat then NaN
  else
    let m := mean obs in
    fdiv (fsum (map (fun x => fmul (fsub x m) (fsub x m)) obs))
         (of_nat (length obs - 1)).

(** [s.ewm(span=w).mean()] ([adjust=True]): the weighted average with
    weights [(1 - alpha)^k], [alpha = 2 / (w + 1)], kept as a running
    numerator and denominator.  It is only ever given finite cells (the
    closes and differences of their averages). *)
Fixpoint ewm_from (k : Q) (num den : float64) (l : list float64)
  : list float64 :=
  match l with
  | [] => []
  | x :: t =>
      let num' := fadd x (fmul (Fin k) num) in
      let den' := fadd (Fin 1) (fmul (Fin k) den) in
      fdiv num' den' :: ewm_from k num' den' t
  end.

Definition ewm_mean (span : nat) (xs : list float64) : list float64 :=
  ewm_from (1 - 2 / (inject_Z (Z.of_nat span) + 1)) (Fin 0) (Fin 0) xs.

(** A stable insertion sort: the result every stable sort gives. *)
Fixpoint insert_by {A : Type} (lt : A -> A -> bool) (x : A) (l : list A)
  : list A :=
  match l with
  | [] => [x]
  | y :: t => if lt y x then y :: insert_by lt x t else x :: y :: t
  end.

Definition sort_by {A : Type} (lt : A -> A -> bool) (l : list A) : list A :=
  fold_right (insert_by lt) [] l.

(** Python's [sorted(l, key=key, reverse=reverse)]: stable in both
    directions. *)
Definition sorted {A : Type} (key : A -> float64) (reverse : bool)
  (l : list A) : list A :=
  sort_by (fun a b => if reverse then fltb (key b) (key a)
                      else fltb (key a) (key b)) l.

(** [df.iloc[-1]], [df.iloc[-2]] and [df.tail(n)]. *)
Definition iloc_last {A : Type} (l : list A) : option A :=
  match l with
  | [] => None
  | _ :: _ => nth_error l (length l - 1)
  end.

Definition iloc_last2 {A : Type} (l : list A) : option A :=
  nth_error l (length l - 2).

Definition tail {A : Type} (n : nat) (l : list A) : list A :=
  skipn (length l - n) l.

(** [s.mean()] of a series: NaN cells are skipped. *)
Definition series_mean (xs : list float64) : float64 :=
  mean (observed xs).

(** [s.quantile(q)]: linear interpolation between the two order
    statistics around position [(n - 1) * q], NaN cells skipped. *)
Definition quantile (q : Q) (xs : list float64) : float64 :=
  let vs := sorted (fun x => x) false (observed xs) in
  match vs with
  | [] => NaN
  | _ :: _ =>
      let pos := inject_Z (Z.of_nat (length vs - 1)) * q in
      let lo := Z.to_nat (Qfloor pos) in
      let a := nth lo vs NaN in
      let b := nth (S lo) vs a in
      fadd a (fmul (fsub b a) (Fin (pos - inject_Z (Qfloor pos))))
  end.

(** A computable square root, rounded down to a multiple of
    [2^-52 / den]: one instance of the parameter [sqrt64] below. *)
Definition sqrt_down (q : Q) : Q :=
  Qmake (Z.sqrt (Qnum q * Zpos (Qden q) * 4 ^ 52)) (Qden q * 2 ^ 52).

Section Pipeline.

(** [np.sqrt] on finite non-negative values. *)
Variable sqrt64 : Q -> Q.
Hypothesis sqrt64_nonneg : forall q, 0 <= q -> 0 <= sqrt64 q.

Definition fsqrt (x : float64) : float64 :=
  match x with
  | Fin q => if Qle_bool 0 q then Fin (sqrt64 q) else NaN
  | PInf => PInf
  | NInf | NaN => NaN
  end.

Definition std (obs : list float64) : float64 := fsqrt (var obs).

(** [s.std()] of a series: NaN cells are skipped. *)
Definition series_std (xs : list float64) : float64 :=
  std (observed xs).

(** ** data_processor.py *)

Definition closes (data : list Bar.t) : list float64 :=
  map (fun b => Fin (Bar.Close b)) data.

Definition volumes (data : list Bar.t) : list Z :=
  map Bar.Volume data.

Definition calculate_sma (data : list Bar.t) (window : nat)
  : list float64 :=
  rolling window mean (closes data).

Definition calculate_ema (data : list Bar.t) (window : nat)
  : list float64 :=
  ewm_mean window (closes data).

Definition calculate_rsi (data : list Bar.t) (window : nat)
  : list float64 :=
  let delta := diff (closes data) in
  let gain :=
    rolling window mean
      (where_ (fun d => fgtb d (Fin 0)) (Fin 0) delta) in
  let loss :=
    rolling window mean
      (map fneg (where_ (fun d => fltb d (Fin 0)) (Fin 0) delta)) in
  let rs := map2 fdiv gain loss in
  map (fun r => fsub (Fin 100) (fdiv (Fin 100) (fadd (Fin 1) r))) rs.

Definition calculate_bollinger_bands (data : list Bar.t) (window : nat)
  (num_std : Q) : list float64 * list float64 * list float64 :=
  let sma := calculate_sma data window in
  let std := rolling window std (closes data) in
  let upper_band := map2 fadd sma (map (fun s => fmul s (Fin num_std)) std) in
  let lower_band := map2 fsub sma (map (fun s => fmul s (Fin num_std)) std) in
  (upper_band, sma, lower_band).

Definition calculate_macd (data : list Bar.t) (fast slow signal : nat)
  : list float64 * list float64 * list float64 :=
  let ema_fast := calculate_ema data fast in
  let ema_slow := calculate_ema data slow in
  let macd_line := map2 fsub ema_fast ema_slow in
  let signal_line := ewm_mean signal macd_line in
  let histogram := map2 fsub macd_line signal_line in
  (macd_line, signal_line, histogram).

Definition calculate_volatility (data : list Bar.t) (window : nat)
  : list float64 :=
  let returns := pct_change (closes data) in
  map (fun s => fmul s (Fin (sqrt64 252))) (rolling window std returns).

Definition neg64 (z : Z) : Z := wrap64 (- z).

Definition calculate_volume_indicators (data : list Bar.t)
  : list float64 * list float64 * list Z :=
  let volume := volumes data in
  let close := closes data in
  let vol_ma := rolling 20 mean (map of_Z volume) in
  let vol_ratio := map2 fdiv (map of_Z volume) vol_ma in
  let obv :=
    cumsum
      (np_where (map2 fgtb close (shift1 close))
         volume
         (np_where (map2 fltb close (shift1 close))
            (map neg64 volume)
            (repeat 0%Z (length data)))) in
  (vol_ma, vol_ratio, obv).

Definition cell (col : list float64) (i : nat) : float64 := nth i col NaN.

(** The body of [process_symbol_data] after the load: the frame sorted by
    date, with one column per indicator. *)
Definition add_indicators (bars : list Bar.t) : list Row.t :=
  let data := sort_by (fun a b => (Bar.Date a <? Bar.Date b)%nat) bars in
  let sma_20 := calculate_sma data 20 in
  let sma_50 := calculate_sma data 50 in
  let ema_20 := calculate_ema data 20 in
  let rsi := calculate_rsi data 14 in
  let '(bb_upper, bb_middle, bb_lower) :=
    calculate_bollinger_bands data 20 2 in
  let '(macd, signal, histogram) := calculate_macd data 12 26 9 in
  let volatility := calculate_volatility data 20 in
  let '(vol_ma, vol_ratio, obv) := calculate_volume_indicators data in
  let daily_return := pct_change (closes data) in
  map (fun ib : nat * Bar.t =>
         let (i, b) := ib in
         {| Row.Date := Bar.Date b;
            Row.Open := Fin (Bar.Open b);
            Row.High := Fin (Bar.High b);
            Row.Low := Fin (Bar.Low b);
            Row.Close := Fin (Bar.Close b);
            Row.Volume := Bar.Volume b;
            Row.SMA_20 := cell sma_20 i;
            Row.SMA_50 := cell sma_50 i;
            Row.EMA_20 := cell ema_20 i;
            Row.RSI := cell rsi i;
            Row.BB_Upper := cell bb_upper i;
            Row.BB_Middle := cell bb_middle i;
            Row.BB_Lower := cell bb_lower i;
            Row.MACD := cell macd i;
            Row.MACD_Signal := cell signal i;
            Row.MACD_Histogram := cell histogram i;
            Row.Volatility := cell volatility i;
            Row.Volume_MA := cell vol_ma i;
            Row.Volume_Ratio := cell vol_ratio i;
            Row.OBV := nth i obv 0%Z;
            Row.Daily_Return := cell daily_return i;
            Row.Price_Change := fsub (Fin (Bar.Close b)) (Fin (Bar.Open b));
            Row.Price_Change_Pct :=
              fmul (fdiv (fsub (Fin (Bar.Close b)) (Fin (Bar.Open b)))
                         (Fin (Bar.Open b)))
                   (Fin 100);
            Row.HL_Spread := fsub (Fin (Bar.High b)) (Fin (Bar.Low b));
            Row.HL_Spread_Pct :=
              fmul (fdiv (fsub (Fin (Bar.High b)) (Fin (Bar.Low b)))
                         (Fin (Bar.Close b)))
                   (Fin 100) |})
      (combine (seq 0 (length data)) data).

(** [process_symbol_data]: the [try] turns a failing load into [None];
    nothing in the body looks at the number of rows. *)
Definition process_symbol_data (symbol : string) (data_file : csv_file)
  : option (list Row.t) :=
  match data_file with
  | Unreadable => None
  | Table bars => Some (add_indicators bars)
  end.

Definition _calculate_bb_position (row : Row.t) : string :=
  if isna (Row.BB_Upper row) || isna (Row.BB_Lower row) then "N/A"%string
  else
    let bb_width := fsub (Row.BB_Upper row) (Row.BB_Lower row) in
    if feqb bb_width (Fin 0) then "N/A"%string
    else
      let position := fdiv (fsub (Row.Close row) (Row.BB_Lower row)) bb_width in
      if fgtb position (Fin 0.8) then "Upper"%string
      else if fltb position (Fin 0.2) then "Lower"%string
      else "Middle"%string.

Definition _get_macd_signal (row : Row.t) : string :=
  if isna (Row.MACD row) || isna (Row.MACD_Signal row) then "N/A"%string
  else if fgtb (Row.MACD row) (Row.MACD_Signal row) then "Bullish"%string
  else "Bearish"%string.

(** [generate_summary_stats]: [data.iloc[-1]] raises [IndexError] on a
    frame without rows. *)
Definition generate_summary_stats (data : list Row.t) (symbol : string)
  : result Stats.t :=
  match iloc_last data with
  | None => Raise IndexError
  | Some latest =>
      Ok {| Stats.symbol := symbol;
            Stats.date := Row.Date latest;
            Stats.close_price := Row.Close latest;
            Stats.daily_return := Row.Daily_Return latest;
            Stats.volume := Row.Volume latest;
            Stats.volume_ratio := Row.Volume_Ratio latest;
            Stats.rsi := Row.RSI latest;
            Stats.sma_20 := Row.SMA_20 latest;
            Stats.sma_50 := Row.SMA_50 latest;
            Stats.volatility := Row.Volatility latest;
            Stats.bb_position := _calculate_bb_position latest;
            Stats.macd_signal := _get_macd_signal latest |}
  end.

(** The symbol of a data file: the part of its name before the first
    underscore, or the name without [.csv] when it has no underscore. *)
Fixpoint has_underscore (s : string) : bool :=
  match s with
  | EmptyString => false
  | String c t => if Ascii.eqb c "_" then true else has_underscore t
  end.

Fixpoint before_underscore (s : string) : string :=
  match s with
  | EmptyString => EmptyString
  | String c t =>
      if Ascii.eqb c "_" then EmptyString else String c (before_underscore t)
  end.

Fixpoint replace_csv (s : string) : string :=
  match s with
  | String "." (String "c" (String "s" (String "v" rest))) => replace_csv rest
  | String c t => String c (replace_csv t)
  | EmptyString => EmptyString
  end.

Definition symbol_of (filename : string) : string :=
  if has_underscore filename then before_underscore filename
  else replace_csv filename.

(** The loop of [process_all_data] over the files found by [glob]:
    a symbol whose processing returned [None] is passed over, an
    exception of [generate_summary_stats] is not caught and ends the
    run. *)
Fixpoint process_files (data_files : list (string * csv_file))
  (summaries : list Stats.t) : result (list Stats.t) :=
  match data_files with
  | [] => Ok summaries
  | (filename, data_file) :: rest =>
      let symbol := symbol_of filename in
      match process_symbol_data symbol data_file with
      | Some processed_data =>
          match generate_summary_stats processed_data symbol with
          | Ok summary => process_files rest (summaries ++ [summary])
          | Raise e => Raise e
          end
      | None => process_files rest summaries
      end
  end.

Definition process_all_data (data_files : list (string * csv_file))
  : result (list Stats.t) :=
  match data_files with
  | [] => Ok []
  | _ :: _ => process_files data_files []
  end.

(** ** report_generator.py *)

(** [self.config.get('alerts', {}).get('volume_multiplier', 2.0)] *)
Definition volume_multiplier (config : Config.t) : float64 :=
  match Config.alerts config with
  | Some a =>
      match Config.volume_multiplier a with Some m => m | None => Fin 2 end
  | None => Fin 2
  end.

(** [self.config.get('alerts', {}).get('price_change_threshold', 5.0)] *)
Definition price_change_threshold (config : Config.t) : float64 :=
  match Config.alerts config with
  | Some a =>
      match Config.price_change_threshold a with
      | Some m => m
      | None => Fin 5
      end
  | None => Fin 5
  end.

Definition add_gainer (info : Info.t) (s : Market.t) : Market.t :=
  {| Market.date := Market.date s;
     Market.total_symbols := Market.total_symbols s;
     Market.gainers := Market.gainers s ++ [info];
     Market.losers := Market.losers s;
     Market.high_volume := Market.high_volume s;
     Market.alerts := Market.alerts s |}.

Definition add_loser (info : Info.t) (s : Market.t) : Market.t :=
  {| Market.date := Market.date s;
     Market.total_symbols := Market.total_symbols s;
     Market.gainers := Market.gainers s;
     Market.losers := Market.losers s ++ [info];
     Market.high_volume := Market.high_volume s;
     Market.alerts := Market.alerts s |}.

Definition add_high_volume (info : Info.t) (s : Market.t) : Market.t :=
  {| Market.date := Market.date s;
     Market.total_symbols := Market.total_symbols s;
     Market.gainers := Market.gainers s;
     Market.losers := Market.losers s;
     Market.high_volume := Market.high_volume s ++ [info];
     Market.alerts := Market.alerts s |}.

Definition add_alert (a : Alert.t) (s : Market.t) : Market.t :=
  {| Market.date := Market.date s;
     Market.total_symbols := Market.total_symbols s;
     Market.gainers := Market.gainers s;
     Market.losers := Market.losers s;
     Market.high_volume := Market.high_volume s;
     Market.alerts := Market.alerts s ++ [a] |}.

(** One turn of the loop of [generate_market_summary] over the items of
    [data_dict]. *)
Definition summary_step (config : Config.t) (summary : Market.t)
  (item : string * list Row.t) : Market.t :=
  let (symbol, data) := item in
  match iloc_last data with
  | None => summary
  | Some latest =>
      if isna (Row.Daily_Return latest) || isna (Row.Close latest)
      then summary
      else
        let symbol_info :=
          {| Info.symbol := symbol;
             Info.price := Row.Close latest;
             Info.change := fmul (Row.Daily_Return latest) (Fin 100);
             Info.volume := Row.Volume latest;
             Info.volume_ratio := Row.Volume_Ratio latest |} in
        let summary :=
          if fgtb (Row.Daily_Return latest) (Fin 0.02)
          then add_gainer symbol_info summary
          else if fltb (Row.Daily_Return latest) (fneg (Fin 0.02))
          then add_loser symbol_info summary
          else summary in
        let summary :=
          if negb (isna (Info.volume_ratio symbol_info))
             && fgtb (Info.volume_ratio symbol_info) (volume_multiplier config)
          then add_high_volume symbol_info summary
          else summary in
        let price_threshold :=
          fdiv (price_change_threshold config) (Fin 100) in
        if fgtb (fabs (Row.Daily_Return latest)) price_threshold
        then
          add_alert
            {| Alert.symbol := symbol;
               Alert.type := "price_change"%string;
               Alert.message :=
                 (symbol, fmul (Row.Daily_Return latest) (Fin 100));
               Alert.severity :=
                 if fgtb (fabs (Row.Daily_Return latest)) (Fin 0.1)
                 then "high"%string else "medium"%string |}
            summary
        else summary
  end.

(** The four lists as the loop leaves them, before they are sorted. *)
Definition collect (config : Config.t) (today : string)
  (data_dict : list (string * list Row.t)) : Market.t :=
  fold_left (summary_step config) data_dict
    {| Market.date := today;
       Market.total_symbols := length data_dict;
       Market.gainers := [];
       Market.losers := [];
       Market.high_volume := [];
       Market.alerts := [] |}.

(** [generate_market_summary]; [data_dict] is the dictionary in insertion
    order, [today] the formatted date of the run. *)
Definition generate_market_summary (config : Config.t) (today : string)
  (data_dict : list (string * list Row.t)) : Market.t :=
  let summary := collect config today data_dict in
  {| Market.date := Market.date summary;
     Market.total_symbols := Market.total_symbols summary;
     Market.gainers :=
       firstn 10 (sorted Info.change true (Market.gainers summary));
     Market.losers :=
       firstn 10 (sorted Info.change false (Market.losers summary));
     Market.high_volume :=
       firstn 10 (sorted Info.volume_ratio true (Market.high_volume summary));
     Market.alerts := Market.alerts summary |}.

Definition _get_bb_position (row : Row.t) : string :=
  if isna (Row.BB_Upper row) || isna (Row.BB_Lower row) then "N/A"%string
  else if fgtb (Row.Close row) (Row.BB_Upper row)
  then "Above Upper Band (Overbought)"%string
  else if fltb (Row.Close row) (Row.BB_Lower row)
  then "Below Lower Band (Oversold)"%string
  else "Within Bands (Normal)"%string.

Definition _analyze_sma_trend (row : Row.t) : string :=
  let sma_20 := Row.SMA_20 row in
  let sma_50 := Row.SMA_50 row in
  let close := Row.Close row in
  if isna sma_20 || isna sma_50 then "Insufficient data"%string
  else if fgtb close sma_20 && fgtb sma_20 sma_50
  then "Strong Uptrend"%string
  else if fgtb close sma_20 && fltb sma_20 sma_50
  then "Weak Uptrend"%string
  else if fltb close sma_20 && fltb sma_20 sma_50
  then "Strong Downtrend"%string
  else "Weak Downtrend"%string.

Definition _find_support_resistance (data : list Row.t) : Levels.t :=
  if (length data <? 10)%nat
  then {| Levels.support := NaN; Levels.resistance := NaN |}
  else
    {| Levels.support := quantile 0.1 (map Row.Low data);
       Levels.resistance := quantile 0.9 (map Row.High data) |}.

(** The bar taken as the previous day: the one before the last, or the
    last one itself when the frame has a single row. *)
Definition prev_day_of (data : list Row.t) (latest : Row.t) : Row.t :=
  if (1 <? length data)%nat
  then match iloc_last2 data with Some r => r | None => latest end
  else latest.

Definition generate_symbol_analysis (symbol : string) (data : list Row.t)
  : option Analysis.t :=
  match iloc_last data with
  | None => None
  | Some latest =>
      let prev_day := prev_day_of data latest in
      let returns_30d := tail 30 (map Row.Daily_Return data) in
      let returns_7d := tail 7 (map Row.Daily_Return data) in
      Some
        {| Analysis.symbol := symbol;
           Analysis.current_price := Row.Close latest;
           Analysis.daily_change := fmul (Row.Daily_Return latest) (Fin 100);
           Analysis.daily_change_abs := Row.Price_Change latest;
           Analysis.volume := Row.Volume latest;
           Analysis.volume_change :=
             if (0 <? Row.Volume prev_day)%Z
             then
               fmul
                 (fdiv
                    (of_Z (wrap64 (Row.Volume latest - Row.Volume prev_day)))
                    (of_Z (Row.Volume prev_day)))
                 (Fin 100)
             else Fin 0;
           Analysis.rsi := Row.RSI latest;
           Analysis.sma_20 := Row.SMA_20 latest;
           Analysis.sma_50 := Row.SMA_50 latest;
           Analysis.bb_position := _get_bb_position latest;
           Analysis.macd_signal := Row.MACD latest;
           Analysis.volatility := Row.Volatility latest;
           Analysis.avg_return_7d := fmul (series_mean returns_7d) (Fin 100);
           Analysis.avg_return_30d := fmul (series_mean returns_30d) (Fin 100);
           Analysis.volatility_7d := fmul (series_std returns_7d) (Fin 100);
           Analysis.volatility_30d := fmul (series_std returns_30d) (Fin 100);
           Analysis.trend_sma := _analyze_sma_trend latest;
           Analysis.support_resistance :=
             _find_support_resistance (tail 20 data) |}
  end.

(** The items taken for the detailed analysis go through a Python [set];
    [set_iter l] is the order in which the set built by adding the
    elements of [l] in turn is iterated.  Python fixes no order: only
    that each element comes once. *)
Variable set_iter : list string -> list string.
Hypothesis set_iter_NoDup : forall l, NoDup (set_iter l).
Hypothesis set_iter_In : forall l x, In x (set_iter l) <-> In x l.

(** The content of a file of the processed directory: the load raises, or
    it yields a frame. *)
Inductive processed_file : Type :=
| Garbled
| Stored (rows : list Row.t).

(** [d[k] = v] on a dictionary kept in insertion order: a key that is
    present keeps its place. *)
Fixpoint dict_set {V : Type} (d : list (string * V)) (k : string) (v : V)
  : list (string * V) :=
  match d with
  | [] => [(k, v)]
  | (k0, v0) :: t =>
      if String.eqb k0 k then (k, v) :: t else (k0, v0) :: dict_set t k v
  end.

Fixpoint dict_get {V : Type} (d : list (string * V)) (k : string)
  : option V :=
  match d with
  | [] => None
  | (k0, v0) :: t => if String.eqb k0 k then Some v0 else dict_get t k
  end.

(** [load_processed_data]: [processed_dir] is [None] when the directory
    does not exist, and otherwise the files that [glob] finds for the
    pattern, in its order.  A file that cannot be loaded is passed over. *)
Definition load_processed_data
  (processed_dir : option (list (string * processed_file)))
  : list (string * list Row.t) :=
  match processed_dir with
  | None => []
  | Some files =>
      fold_left
        (fun data_dict file =>
           let symbol_name := before_underscore (fst file) in
           match snd file with
           | Stored data => dict_set data_dict symbol_name data
           | Garbled => data_dict
           end)
        files []
  end.

(** The symbols that [generate_daily_report] adds to its set, in the
    order it adds them. *)
Definition significant_symbols (summary : Market.t) : list string :=
  map Info.symbol
    (firstn 5 (Market.gainers summary) ++ firstn 5 (Market.losers summary))
  ++ map Info.symbol (firstn 3 (Market.high_volume summary)).

(** [generate_daily_report] up to the rendering: [None] when nothing was
    loaded, and otherwise the summary and the detailed analyses that are
    handed to [create_html_report]. *)
Definition generate_daily_report (config : Config.t) (today : string)
  (processed_dir : option (list (string * processed_file)))
  (symbols : option (list string))
  : option (Market.t * list Analysis.t) :=
  match load_processed_data processed_dir with
  | [] => None
  | loaded =>
      let data_dict :=
        match symbols with
        | Some (s :: l) =>
            filter (fun kv => existsb (String.eqb (fst kv)) (s :: l)) loaded
        | _ => loaded
        end in
      let summary := generate_market_summary config today data_dict in
      let detailed_analysis :=
        fold_left
          (fun acc symbol =>
             match dict_get data_dict symbol with
             | Some data =>
                 match generate_symbol_analysis symbol data with
                 | Some analysis => acc ++ [analysis]
                 | None => acc
                 end
             | None => acc
             end)
          (set_iter (significant_symbols summary)) [] in
      Some (summary, detailed_analysis)
  end.

(** ** data_downloader.py *)

(** What [yf.Ticker(symbol).history(...)] does: it raises, or it returns
    a frame, which may have no row. *)
Inductive fetched : Type :=
| Failure
| Frame (bars : list Bar.t).

(** [download_symbol_data]: [None] on an exception and on an empty
    frame. *)
Definition download_symbol_data (yf : string -> fetched) (symbol : string)
  : option (list Bar.t) :=
  match yf symbol with
  | Failure => None
  | Frame [] => None
  | Frame data => Some data
  end.

(** The data directory: file names with their content. *)
Definition disk : Type := list (string * csv_file).

(** The names of the files that [save_data] and [save_processed_data]
    write. *)
Definition data_filename (symbol date_str : string) : string :=
  (symbol ++ "_" ++ date_str ++ ".csv")%string.

Definition processed_filename (symbol date_str : string) : string :=
  (symbol ++ "_processed_" ++ date_str ++ ".csv")%string.

(** [save_data]: nothing is written for [None] or an empty frame;
    [can_write] tells whether writing the file succeeds. *)
Definition save_data (can_write : string -> bool) (d : disk)
  (data : option (list Bar.t)) (symbol date_str : string) : bool * disk :=
  match data with
  | None => (false, d)
  | Some [] => (false, d)
  | Some bars =>
      let filename := data_filename symbol date_str in
      if can_write filename
      then (true, dict_set d filename (Table bars))
      else (false, d)
  end.

(** The loop of [download_all_symbols]. *)
Fixpoint download_loop (yf : string -> fetched) (can_write : string -> bool)
  (date_str : string) (symbols : list string) (successful_downloads : nat)
  (failed_downloads : list string) (d : disk) : nat * list string * disk :=
  match symbols with
  | [] => (successful_downloads, failed_downloads, d)
  | symbol :: rest =>
      let data := download_symbol_data yf symbol in
      let (saved, d') := save_data can_write d data symbol date_str in
      if saved
      then download_loop yf can_write date_str rest
             (S successful_downloads) failed_downloads d'
      else download_loop yf can_write date_str rest
             successful_downloads (failed_downloads ++ [symbol]) d'
  end.

(** [download_all_symbols]: the symbols given, or those of the
    configuration when none is given. *)
Definition download_all_symbols (yf : string -> fetched)
  (can_write : string -> bool) (date_str : string)
  (config_symbols : list string) (symbols : option (list string)) (d : disk)
  : nat * list string * disk :=
  let symbols :=
    match symbols with
    | Some (s :: l) => s :: l
    | _ => config_symbols
    end in
  download_loop yf can_write date_str symbols 0 [] d.

(** ** Vocabulary of the statements *)

(** The order of float64 cells as a proposition. *)
Definition flt (x y : float64) : Prop :=
  match x, y with
  | Fin a, Fin b => a < b
  | NInf, Fin _ | NInf, PInf | Fin _, PInf => True
  | _, _ => False
  end.

Definition fle (x y : float64) : Prop :=
  match x, y with
  | Fin a, Fin b => a <= b
  | NInf, Fin _ | NInf, PInf | Fin _, PInf | NInf, NInf | PInf, PInf => True
  | _, _ => False
  end.

Definition finite (x : float64) : Prop :=
  match x with Fin _ => True | _ => False end.

(** A cell that is NaN or finite. *)
Definition no_inf (x : float64) : Prop :=
  match x with PInf | NInf => False | _ => True end.

Definition val (x : float64) : Q :=
  match x with Fin q => q | _ => 0 end.

Definition Qsum (l : list Q) : Q := fold_right Qplus 0 l.

(** [l[lo : lo + n]] *)
Definition slice {A : Type} (lo n : nat) (l : list A) : list A :=
  firstn n (skipn lo l).

(** The close at index [k] of a series. *)
Definition close_at (data : list Bar.t) (k : nat) : Q :=
  nth k (map Bar.Close data) 0.

(** The sign of a rational as an integer. *)
Definition sign (q : Q) : Z := Z.sgn (Qnum q).

(** The daily return and the close of the last bar of a frame. *)
Definition last_return (data : list Row.t) : float64 :=
  match iloc_last data with
  | Some latest => Row.Daily_Return latest
  | None => NaN
  end.

Definition last_close (data : list Row.t) : float64 :=
  match iloc_last data with
  | Some latest => Row.Close latest
  | None => NaN
  end.

(** What one item of the dictionary adds to each list of the summary. *)
Definition info_of (item : string * list Row.t) : Info.t :=
  {| Info.symbol := fst item;
     Info.price := last_close (snd item);
     Info.change := fmul (last_return (snd item)) (Fin 100);
     Info.volume :=
       match iloc_last (snd item) with
       | Some latest => Row.Volume latest
       | None => 0%Z
       end;
     Info.volume_ratio :=
       match iloc_last (snd item) with
       | Some latest => Row.Volume_Ratio latest
       | None => NaN
       end |}.

Definition kept (item : string * list Row.t) : bool :=
  negb (isna (last_return (snd item)) || isna (last_close (snd item))).

Definition is_gainer (item : string * list Row.t) : bool :=
  kept item && fgtb (last_return (snd item)) (Fin 0.02).

Definition is_loser (item : string * list Row.t) : bool :=
  kept item && negb (fgtb (last_return (snd item)) (Fin 0.02))
  && fltb (last_return (snd item)) (fneg (Fin 0.02)).

Definition is_high_volume (config : Config.t) (item : string * list Row.t)
  : bool :=
  kept item && negb (isna (Info.volume_ratio (info_of item)))
  && fgtb (Info.volume_ratio (info_of item)) (volume_multiplier config).

(** A list in descending, ascending order of a key. *)
Definition descending {A : Type} (key : A -> float64) (l : list A) : Prop :=
  StronglySorted (fun a b => fle (key b) (key a)) l.

Definition ascending {A : Type} (key : A -> float64) (l : list A) : Prop :=
  StronglySorted (fun a b => fle (key a) (key b)) l.


(** The defined daily returns among the last [n] rows of a frame. *)
Definition recent_returns (n : nat) (data : list Row.t) : list float64 :=
  observed (tail n (map Row.Daily_Return data)).

Definition Zsum (l : list Z) : Z := fold_right Z.add 0%Z l.

Definition sum_abs (l : list Z) : Z :=
  fold_right (fun x s => (Z.abs x + s)%Z) 0%Z l.

(** ** Sample data *)

Definition bar_of (d : nat) (c : Q) (v : Z) : Bar.t :=
  {| Bar.Date := d; Bar.Open := c; Bar.High := c; Bar.Low := c;
     Bar.Close := c; Bar.Volume := v |}.

Definition sample_bars : list Bar.t :=
  [bar_of 1 100 10; bar_of 2 102 20; bar_of 3 99 30; bar_of 4 99 5;
   bar_of 5 104 8].

Definition rising_bars : list Bar.t :=
  map (fun i => bar_of i (inject_Z (Z.of_nat i) + 1) 7) (seq 0 16).

Definition flat_bars : list Bar.t :=
  map (fun i => bar_of i 50 7) (seq 0 16).

Definition zigzag_bars : list Bar.t :=
  map (fun i => bar_of i (if Nat.even i then 100 else 103) 7) (seq 0 16).

Definition nonneg (x : float64) : Prop :=
  match x with Fin q => 0 <= q | _ => False end.

(** The close-to-close change at index [k]; index 0 has no prior bar and
    the expression is then [close[0] - close[0]]. *)
Definition delta_at (data : list Bar.t) (k : nat) : Q :=
  close_at data k - close_at data (k - 1).

(** What the mean [avg] and the standard deviation [vol] of a series of
    returns are, from its defined cells [obs]; both are in percent. *)
Definition trailing_stats (obs : list float64) (avg vol : float64) : Prop :=
  (obs = [] -> avg = NaN)
  /\ ((1 <= length obs)%nat ->
      avg = Fin (Qsum (map val obs) / inject_Z (Z.of_nat (length obs)) * 100))
  /\ ((length obs <= 1)%nat -> vol = NaN)
  /\ ((2 <= length obs)%nat -> exists v, vol = Fin v /\ 0 <= v).

(** The dictionary that [load_processed_data] reads back from the frames
    that [process_symbol_data] built for the series of some symbols; the
    CSV round trip is taken as the identity. *)
Definition processed_dict (series : list (string * list Bar.t))
  : list (string * list Row.t) :=
  map (fun item => (fst item, add_indicators (snd item))) series.

(** The symbols of a ranked list. *)
Definition symbols (l : list Info.t) : list string := map Info.symbol l.



Definition one_bar : list Bar.t := [bar_of 1 100 10].

Definition two_bars (c0 c1 : Q) : list Bar.t :=
  [bar_of 1 c0 10; bar_of 2 c1 12].

Definition sample_series : list (string * list Bar.t) :=
  [("AAA"%string, two_bars 100 103);
   ("BBB"%string, two_bars 100 97);
   ("CCC"%string, two_bars 100 102)].

Definition sample_files : list (string * csv_file) :=
  [("EMPTY_20240102.csv"%string, Table []);
   ("AAPL_20240102.csv"%string, Table sample_bars)].

(** The frame of [process_symbol_data] after [sort_values('Date')]. *)
Definition sorted_bars (bars : list Bar.t) : list Bar.t :=
  sort_by (fun a b => (Bar.Date a <? Bar.Date b)%nat) bars.

(** A row carries the raw columns of a bar. *)
Definition same_bar (row : Row.t) (b : Bar.t) : Prop :=
  Row.Date row = Bar.Date b
  /\ Row.Open row = Fin (Bar.Open b)
  /\ Row.High row = Fin (Bar.High b)
  /\ Row.Low row = Fin (Bar.Low b)
  /\ Row.Close row = Fin (Bar.Close b)
  /\ Row.Volume row = Bar.Volume b
  /\ Row.Price_Change row = Fin (Bar.Close b - Bar.Open b)
  /\ Row.HL_Spread row = Fin (Bar.High b - Bar.Low b).

(** The alert that one item of the dictionary raises, and when. *)
Definition is_alert (config : Config.t) (item : string * list Row.t) : bool :=
  kept item
  && fgtb (fabs (last_return (snd item)))
       (fdiv (price_change_threshold config) (Fin 100)).

Definition alert_of (item : string * list Row.t) : Alert.t :=
  {| Alert.symbol := fst item;
     Alert.type := "price_change"%string;
     Alert.message := (fst item, fmul (last_return (snd item)) (Fin 100));
     Alert.severity :=
       if fgtb (fabs (last_return (snd item))) (Fin 0.1)
       then "high"%string else "medium"%string |}.

(** A data file that [pd.read_csv] can load. *)
Definition readable (file : string * csv_file) : bool :=
  match snd file with
  | Table _ => true
  | Unreadable => false
  end.

(** A directory in which no file is a table without rows. *)
Definition no_empty_table (files : list (string * csv_file)) : Prop :=
  forall filename, ~ In (filename, Table []) files.

(** The frame of the last file of [files] that could be loaded and whose
    name starts with [symbol] followed by an underscore or the end. *)
Fixpoint last_stored (files : list (string * processed_file))
  (symbol : string) : option (list Row.t) :=
  match files with
  | [] => None
  | file :: rest =>
      match last_stored rest symbol with
      | Some data => Some data
      | None =>
          if String.eqb (before_underscore (fst file)) symbol
          then match snd file with
               | Stored data => Some data
               | Garbled => None
               end
          else None
      end
  end.

(** No processed directory, or no file in it that can be loaded. *)
Definition nothing_stored
  (processed_dir : option (list (string * processed_file))) : Prop :=
  match processed_dir with
  | None => True
  | Some files => Forall (fun file => snd file = Garbled) files
  end.

(** More sample data: a month of bars, three symbols of which two move
    by more than the alert threshold, a row with given bands, and the
    files and the data source of a small run. *)
Definition month_bars : list Bar.t :=
  map (fun i => bar_of i (inject_Z (Z.of_nat i) + 100) (Z.of_nat i + 10))
    (seq 0 22).

Definition mover_series : list (string * list Bar.t) :=
  [("UP"%string, two_bars 100 114);
   ("FLAT"%string, two_bars 100 100);
   ("DOWN"%string, two_bars 100 90)].

Definition sample_row (close upper lower : Q) (volume : Z) : Row.t :=
  {| Row.Date := 1;
     Row.Open := Fin close;
     Row.High := Fin close;
     Row.Low := Fin close;
     Row.Close := Fin close;
     Row.Volume := volume;
     Row.SMA_20 := NaN;
     Row.SMA_50 := NaN;
     Row.EMA_20 := Fin close;
     Row.RSI := NaN;
     Row.BB_Upper := Fin upper;
     Row.BB_Middle := Fin ((upper + lower) / 2);
     Row.BB_Lower := Fin lower;
     Row.MACD := Fin 0;
     Row.MACD_Signal := Fin 0;
     Row.MACD_Histogram := Fin 0;
     Row.Volatility := NaN;
     Row.Volume_MA := NaN;
     Row.Volume_Ratio := NaN;
     Row.OBV := 0;
     Row.Daily_Return := NaN;
     Row.Price_Change := Fin 0;
     Row.Price_Change_Pct := Fin 0;
     Row.HL_Spread := Fin 0;
     Row.HL_Spread_Pct := Fin 0 |}.

(** A frame of one row with a given daily return and volume ratio, and
    two dictionaries of such frames: three symbols of which one sits on
    the threshold, and twelve gainers. *)
Definition return_row (daily_return volume_ratio : float64) : Row.t :=
  {| Row.Date := 1;
     Row.Open := Fin 100;
     Row.High := Fin 100;
     Row.Low := Fin 100;
     Row.Close := Fin 100;
     Row.Volume := 10;
     Row.SMA_20 := NaN;
     Row.SMA_50 := NaN;
     Row.EMA_20 := Fin 100;
     Row.RSI := NaN;
     Row.BB_Upper := NaN;
     Row.BB_Middle := NaN;
     Row.BB_Lower := NaN;
     Row.MACD := Fin 0;
     Row.MACD_Signal := Fin 0;
     Row.MACD_Histogram := Fin 0;
     Row.Volatility := NaN;
     Row.Volume_MA := NaN;
     Row.Volume_Ratio := volume_ratio;
     Row.OBV := 0;
     Row.Daily_Return := daily_return;
     Row.Price_Change := Fin 0;
     Row.Price_Change_Pct := Fin 0;
     Row.HL_Spread := Fin 0;
     Row.HL_Spread_Pct := Fin 0 |}.

Definition boundary_frames : list (string * list Row.t) :=
  [("AAA"%string, [return_row (Fin 0.03) NaN]);
   ("BBB"%string, [return_row (Fin (- 0.03)) NaN]);
   ("CCC"%string, [return_row (Fin 0.02) NaN])].


Definition ten_rows : list Row.t :=
  map (fun i => sample_row (inject_Z (Z.of_nat i) + 100) 120 90 10) (seq 0 10).

Definition good_files : list (string * csv_file) :=
  [("AAPL_20240102.csv"%string, Table sample_bars);
   ("notes.csv"%string, Unreadable)].

Definition sample_yf (symbol : string) : fetched :=
  if String.eqb symbol "AAPL" then Frame sample_bars
  else if String.eqb symbol "NONE" then Frame []
  else Failure.

Definition sample_processed : list (string * processed_file) :=
  [("AAA_processed_20240101.csv"%string, Stored []);
   ("BBB_processed_20240102.csv"%string, Garbled);
   ("AAA_processed_20240102.csv"%string, Stored [sample_row 100 120 90 10])].

(** ** Facts on float64 cells *)

Lemma fltb_flt (x y : float64) : fltb x y = true <-> flt x y.
Proof.
  destruct x as [a| | |], y as [b| | |]; simpl; try tauto;
    try (split; [discriminate | contradiction]).
  rewrite Qlt_alt. destruct (a ?= b); split; congruence.
Qed.

Lemma feqb_fsame (x y : float64) :
  isna x = false -> (feqb x y = true <-> fsame x y).
Proof.
  destruct x as [a| | |], y as [b| | |]; simpl; intros Hx;
    try discriminate; try tauto;
    try (split; [discriminate | contradiction]).
  apply Qeq_bool_iff.
Qed.

Lemma fleb_fle (x y : float64) : fleb x y = true <-> fle x y.
Proof.
  unfold fleb. rewrite orb_true_iff, fltb_flt.
  destruct x as [a| | |], y as [b| | |]; simpl;
    try tauto; try (split; [intros [[]|H]; discriminate | contradiction]).
  rewrite Qeq_bool_iff, Qle_lteq. tauto.
Qed.

Lemma fltb_false_fle (x y : float64) :
  isna x = false -> isna y = false -> fltb x y = false -> fle y x.
Proof.
  destruct x as [a| | |], y as [b| | |]; simpl; intros Hx Hy H;
    try discriminate; try exact I.
  apply Qle_alt. rewrite <- Qcompare_antisym.
  destruct (a ?= b); simpl; congruence.
Qed.

Lemma fle_trans (x y z : float64) : fle x y -> fle y z -> fle x z.
Proof.
  destruct x as [a| | |], y as [b| | |], z as [c| | |]; simpl;
    try tauto.
  apply Qle_trans.
Qed.

Lemma fle_isna (x y : float64) : fle x y -> isna x = false /\ isna y = false.
Proof.
  destruct x, y; simpl; tauto.
Qed.

Lemma flt_fle (x y : float64) : flt x y -> fle x y.
Proof.
  destruct x as [a| | |], y as [b| | |]; simpl; try tauto.
  apply Qlt_le_weak.
Qed.

Lemma fle_flt (x y : float64) :
  fle x y -> feqb x y = false -> flt x y.
Proof.
  destruct x as [a| | |], y as [b| | |]; simpl; try tauto;
    try discriminate.
  intros Hle Hne. apply Qle_lteq in Hle as [H|H]; [exact H|].
  apply Qeq_bool_iff in H. congruence.
Qed.

(** ** Facts on series operations *)

Lemma length_map2 {A B C : Type} (f : A -> B -> C) (l1 : list A) (l2 : list B) :
  length (map2 f l1 l2) = Nat.min (length l1) (length l2).
Proof.
  revert l2. induction l1 as [|a l1 IH]; intros [|b l2]; simpl; auto.
Qed.

Lemma nth_error_map2 {A B C : Type} (f : A -> B -> C) (l1 : list A)
  (l2 : list B) (i : nat) :
  nth_error (map2 f l1 l2) i =
  match nth_error l1 i, nth_error l2 i with
  | Some a, Some b => Some (f a b)
  | _, _ => None
  end.
Proof.
  revert l2 i. induction l1 as [|a l1 IH]; intros [|b l2] [|i]; simpl; auto.
  destruct (nth_error l1 i); reflexivity.
Qed.

Lemma map2_Forall {A B C : Type} (f : A -> B -> C) (P : A -> Prop)
  (Q : B -> Prop) (R : C -> Prop) (l1 : list A) (l2 : list B) :
  (forall a b, P a -> Q b -> R (f a b)) ->
  Forall P l1 -> Forall Q l2 -> Forall R (map2 f l1 l2).
Proof.
  intros Hf H1. revert l2.
  induction H1 as [|a l1 Ha H1 IH]; intros l2 H2; simpl; [constructor|].
  destruct H2 as [|b l2 Hb H2]; constructor; auto.
Qed.

Lemma nth_error_np_where {A : Type} (c : list bool) (a b : list A) (i : nat) :
  nth_error (np_where c a b) i =
  match nth_error c i, nth_error a i, nth_error b i with
  | Some ci, Some ai, Some bi => Some (if ci then ai else bi)
  | _, _, _ => None
  end.
Proof.
  revert a b i.
  induction c as [|ci c IH]; intros [|ai a] [|bi b] [|i]; simpl; auto;
    try (destruct (nth_error c i); reflexivity).
  - destruct (nth_error c i); [destruct (nth_error a i)|]; reflexivity.
Qed.

Lemma length_np_where {A : Type} (c : list bool) (a b : list A) :
  length c = length a -> length c = length b ->
  length (np_where c a b) = length c.
Proof.
  revert a b. induction c as [|ci c IH]; intros [|ai a] [|bi b]; simpl;
    intros Ha Hb; try discriminate; auto.
Qed.

Lemma length_shift1 (xs : list float64) : length (shift1 xs) = length xs.
Proof.
  destruct xs as [|x t]; [reflexivity|].
  unfold shift1. cbn [length]. rewrite removelast_firstn_len, length_firstn.
  cbn [length]. lia.
Qed.

Lemma nth_error_shift1_0 (x : float64) (t : list float64) :
  nth_error (shift1 (x :: t)) 0 = Some NaN.
Proof. reflexivity. Qed.

Lemma nth_error_shift1_S (xs : list float64) (i : nat) :
  (S i < length xs)%nat -> nth_error (shift1 xs) (S i) = nth_error xs i.
Proof.
  destruct xs as [|x t]; simpl; [lia|]. intros Hi.
  change (nth_error (removelast (x :: t)) i = nth_error (x :: t) i).
  rewrite removelast_firstn_len, nth_error_firstn. cbn [length Nat.pred].
  destruct (Nat.ltb_spec i (length t)); [reflexivity | lia].
Qed.

Lemma length_rolling (w : nat) (agg : list float64 -> float64)
  (xs : list float64) : length (rolling w agg xs) = length xs.
Proof.
  unfold rolling. now rewrite length_map, length_seq.
Qed.

Lemma nth_error_rolling (w : nat) (agg : list float64 -> float64)
  (xs : list float64) (i : nat) :
  (i < length xs)%nat ->
  nth_error (rolling w agg xs) i =
  Some (let obs := observed (map prep (trailing w i xs)) in
        if (length obs <? w)%nat then NaN else agg obs).
Proof.
  intros Hi. unfold rolling.
  rewrite nth_error_map, nth_error_seq.
  destruct (Nat.ltb_spec i (length xs)); [reflexivity | lia].
Qed.

Lemma trailing_slice {A : Type} (w i : nat) (xs : list A) :
  (w <= i + 1)%nat -> trailing w i xs = slice (i + 1 - w) w xs.
Proof.
  intros Hw. unfold trailing, slice.
  rewrite firstn_skipn_comm. do 2 f_equal. lia.
Qed.

Lemma length_trailing {A : Type} (w i : nat) (xs : list A) :
  (length (trailing w i xs) <= i + 1)%nat.
Proof.
  unfold trailing. rewrite length_skipn, length_firstn. lia.
Qed.

Lemma length_slice {A : Type} (lo n : nat) (xs : list A) :
  (lo + n <= length xs)%nat -> length (slice lo n xs) = n.
Proof.
  intros H. unfold slice. rewrite length_firstn, length_skipn. lia.
Qed.

Lemma In_slice {A : Type} (lo n : nat) (xs : list A) (x : A) :
  In x (slice lo n xs) <->
  exists k, (lo <= k < lo + n)%nat /\ nth_error xs k = Some x.
Proof.
  unfold slice. split.
  - intros H. apply In_nth_error in H as [j Hj].
    rewrite nth_error_firstn in Hj.
    destruct (Nat.ltb_spec j n); [|discriminate].
    rewrite nth_error_skipn in Hj. exists (lo + j)%nat. split; [lia | exact Hj].
  - intros (k & Hk & Hx). apply (nth_error_In _ (k - lo)).
    rewrite nth_error_firstn.
    destruct (Nat.ltb_spec (k - lo) n); [|lia].
    rewrite nth_error_skipn. replace (lo + (k - lo))%nat with k by lia. exact Hx.
Qed.

Lemma prep_finite (xs : list float64) :
  Forall finite xs -> map prep xs = xs.
Proof.
  induction 1 as [|x l Hx Hl IH]; [reflexivity|].
  simpl. rewrite IH. destruct x; try contradiction. reflexivity.
Qed.

Lemma observed_finite (xs : list float64) :
  Forall finite xs -> observed xs = xs.
Proof.
  induction 1 as [|x l Hx Hl IH]; [reflexivity|].
  unfold observed in *. simpl. destruct x; try contradiction. simpl.
  now rewrite IH.
Qed.

Lemma fsum_finite (xs : list float64) :
  Forall finite xs -> fsum xs = Fin (Qsum (map val xs)).
Proof.
  induction 1 as [|x l Hx Hl IH]; [reflexivity|].
  unfold fsum in *. simpl. rewrite IH. destruct x; try contradiction.
  reflexivity.
Qed.

Lemma Qnat_pos (n : nat) : (1 <= n)%nat -> 0 < inject_Z (Z.of_nat n).
Proof.
  intros H. change 0 with (inject_Z 0). rewrite <- Zlt_Qlt. lia.
Qed.

Lemma mean_finite (xs : list float64) :
  Forall finite xs -> (1 <= length xs)%nat ->
  mean xs = Fin (Qsum (map val xs) / inject_Z (Z.of_nat (length xs))).
Proof.
  intros Hf Hn. unfold mean, of_nat, of_Z. rewrite (fsum_finite _ Hf). simpl.
  apply Qnat_pos in Hn. apply Qgt_alt in Hn. now rewrite Hn.
Qed.

Lemma Forall_slice {A : Type} (P : A -> Prop) (lo n : nat) (xs : list A) :
  Forall P xs -> Forall P (slice lo n xs).
Proof.
  intros H. apply Forall_forall. intros x Hx.
  apply In_slice in Hx as (k & _ & Hk).
  apply nth_error_In in Hk. revert x Hk. now apply Forall_forall.
Qed.

(** The rolling mean of a series of finite cells. *)
Lemma nth_error_rolling_mean (w i : nat) (xs : list float64) :
  Forall finite xs -> (1 <= w)%nat -> (i < length xs)%nat ->
  nth_error (rolling w mean xs) i =
  Some (if (i + 1 <? w)%nat then NaN
        else Fin (Qsum (map val (slice (i + 1 - w) w xs))
                  / inject_Z (Z.of_nat w))).
Proof.
  intros Hf Hw Hi. rewrite nth_error_rolling by exact Hi. f_equal. cbv zeta.
  destruct (Nat.ltb_spec (i + 1) w) as [Hlt|Hge].
  - assert (Hlen : (length (observed (map prep (trailing w i xs))) < w)%nat).
    { unfold observed.
      eapply Nat.le_lt_trans; [apply filter_length_le|].
      rewrite length_map. pose proof (length_trailing w i xs). lia. }
    apply Nat.ltb_lt in Hlen. now rewrite Hlen.
  - rewrite trailing_slice by exact Hge.
    assert (Hs : Forall finite (slice (i + 1 - w) w xs))
      by now apply Forall_slice.
    rewrite (prep_finite _ Hs), (observed_finite _ Hs).
    assert (Hlen : length (slice (i + 1 - w) w xs) = w)
      by (apply length_slice; lia).
    rewrite Hlen, Nat.ltb_irrefl.
    rewrite mean_finite by (auto; lia). now rewrite Hlen.
Qed.

(** ** The simple moving average *)

Lemma slice_map {A B : Type} (f : A -> B) (lo n : nat) (l : list A) :
  slice lo n (map f l) = map f (slice lo n l).
Proof.
  unfold slice. now rewrite skipn_map, firstn_map.
Qed.

Lemma closes_finite (data : list Bar.t) : Forall finite (closes data).
Proof.
  unfold closes. apply Forall_forall. intros x Hx.
  apply in_map_iff in Hx as (b & <- & _). exact I.
Qed.

(** C4.  For every window size [w >= 1] and every series, SMA(w) at index
    [i] is the arithmetic mean of the closes at indices [i-w+1 .. i]
    whenever [i >= w-1], and is NaN (the missing-value marker, not zero)
    for every [i < w-1]. *)
Theorem calculate_sma_window_mean (data : list Bar.t) (w i : nat) :
  (1 <= w)%nat -> (i < length data)%nat ->
  ((w - 1 <= i)%nat ->
   nth_error (calculate_sma data w) i =
   Some (Fin (Qsum (map Bar.Close (slice (i + 1 - w) w data))
              / inject_Z (Z.of_nat w))))
  /\ ((i < w - 1)%nat -> nth_error (calculate_sma data w) i = Some NaN).
Proof.
  intros Hw Hi. unfold calculate_sma.
  rewrite nth_error_rolling_mean;
    [| apply closes_finite | exact Hw | unfold closes; now rewrite length_map].
  split; intros H.
  - destruct (Nat.ltb_spec (i + 1) w); [lia|].
    unfold closes. rewrite slice_map, map_map. reflexivity.
  - destruct (Nat.ltb_spec (i + 1) w); [reflexivity | lia].
Qed.

(** ** On-balance volume *)

Lemma wrap64_id (z : Z) : int64_range z -> wrap64 z = z.
Proof.
  unfold wrap64, int64_range. intros H.
  rewrite Z.mod_small; lia.
Qed.

Lemma length_cumsum_from (l : list Z) (acc : Z) :
  length (cumsum_from acc l) = length l.
Proof.
  revert acc. induction l as [|x t IH]; intros acc; simpl; auto.
Qed.

Lemma sum_abs_nonneg (l : list Z) : (0 <= sum_abs l)%Z.
Proof.
  induction l as [|x t IH]; simpl; lia.
Qed.

(** Without overflow the cumulative sum is the plain running sum. *)
Lemma cumsum_from_nth (l : list Z) :
  forall acc, (Z.abs acc + sum_abs l < 2 ^ 63)%Z ->
  (forall x, nth_error l 0 = Some x ->
     nth_error (cumsum_from acc l) 0 = Some (acc + x)%Z)
  /\ (forall i o x,
        nth_error (cumsum_from acc l) i = Some o ->
        nth_error l (S i) = Some x ->
        nth_error (cumsum_from acc l) (S i) = Some (o + x)%Z).
Proof.
  induction l as [|x0 t IH]; intros acc Hb.
  - split; [intros x Hx; discriminate|].
    intros [|i] o x Ho; discriminate.
  - simpl in Hb. pose proof (sum_abs_nonneg t) as Ht.
    assert (Hs : wrap64 (acc + x0) = (acc + x0)%Z)
      by (apply wrap64_id; unfold int64_range; lia).
    simpl. rewrite Hs.
    destruct (IH (acc + x0)%Z) as [IH0 IHS]; [lia|].
    split.
    + intros x [= <-]. reflexivity.
    + intros [|i] o x Ho Hx; simpl in *.
      * injection Ho as <-. now apply IH0.
      * now apply IHS.
Qed.

Lemma sign_sub (a b : Q) :
  sign (a - b) =
  match b ?= a with Lt => 1%Z | Eq => 0%Z | Gt => (-1)%Z end.
Proof.
  unfold sign, Qcompare, Qminus, Qplus, Qopp. simpl.
  destruct (Z.compare_spec (Qnum b * QDen a) (Qnum a * QDen b)) as [H|H|H].
  - apply Z.sgn_null_iff. lia.
  - apply Z.sgn_pos. lia.
  - apply Z.sgn_neg. lia.
Qed.

(** The volume that one bar brings to the on-balance volume. *)
Lemma obv_contribution (c0 c1 : Q) (v : Z) :
  (0 <= v < 2 ^ 63)%Z ->
  (if fgtb (Fin c1) (Fin c0) then v
   else if fltb (Fin c1) (Fin c0) then neg64 v else 0%Z)
  = (sign (c1 - c0) * v)%Z.
Proof.
  intros Hv. rewrite sign_sub. unfold fgtb, fltb.
  rewrite <- (Qcompare_antisym c0 c1).
  destruct (c0 ?= c1); simpl.
  - reflexivity.
  - now destruct v.
  - unfold neg64. rewrite wrap64_id by (unfold int64_range; lia).
    now destruct v.
Qed.

Lemma sum_abs_le (c v : list Z) :
  length c = length v ->
  (forall i ci vi, nth_error c i = Some ci -> nth_error v i = Some vi ->
                   (Z.abs ci <= vi)%Z) ->
  (sum_abs c <= Zsum v)%Z.
Proof.
  revert v. induction c as [|c0 c IH]; intros [|v0 v] Hlen H; simpl in *;
    try discriminate.
  pose proof (H 0%nat c0 v0 eq_refl eq_refl).
  assert (sum_abs c <= Zsum v)%Z.
  { apply IH; [lia|]. intros i ci vi Hc Hv. exact (H (S i) ci vi Hc Hv). }
  lia.
Qed.

Lemma Zsum_nonneg (l : list Z) :
  Forall (fun v => (0 <= v)%Z) l -> (0 <= Zsum l)%Z.
Proof.
  induction 1 as [|v l Hv Hl IH]; simpl; lia.
Qed.

Lemma Zsum_bounds (l : list Z) (v : Z) :
  Forall (fun v => (0 <= v)%Z) l -> In v l -> (0 <= v <= Zsum l)%Z.
Proof.
  induction 1 as [|v0 l Hv Hl IH]; simpl; [contradiction|].
  pose proof (Zsum_nonneg l Hl).
  intros [<-|Hin]; [lia|]. specialize (IH Hin). lia.
Qed.

Lemma sign_range (q : Q) : (-1 <= sign q <= 1)%Z.
Proof.
  unfold sign. destruct (Qnum q); simpl; lia.
Qed.

(** The array that [calculate_volume_indicators] sums up: nothing at
    index 0, where the shifted close is NaN, then the signed volumes. *)
Lemma obv_steps_nth (data : list Bar.t) :
  Forall (fun b => (0 <= Bar.Volume b < 2 ^ 63)%Z) data ->
  let steps :=
    np_where (map2 fgtb (closes data) (shift1 (closes data)))
      (volumes data)
      (np_where (map2 fltb (closes data) (shift1 (closes data)))
         (map neg64 (volumes data))
         (repeat 0%Z (length data))) in
  length steps = length data
  /\ (data <> [] -> nth_error steps 0 = Some 0%Z)
  /\ (forall i p b,
        nth_error data i = Some p -> nth_error data (S i) = Some b ->
        nth_error steps (S i)
        = Some (sign (Bar.Close b - Bar.Close p) * Bar.Volume b)%Z).
Proof.
  intros Hv steps. subst steps. split; [|split].
  - assert (Hc : length (closes data) = length data)
      by (unfold closes; apply length_map).
    assert (Hvl : length (volumes data) = length data)
      by (unfold volumes; apply length_map).
    assert (Hg : forall f : float64 -> float64 -> bool,
               length (map2 f (closes data) (shift1 (closes data)))
               = length data)
      by (intros f; rewrite length_map2, length_shift1, Hc; lia).
    assert (Hin : length (np_where (map2 fltb (closes data) (shift1 (closes data)))
                            (map neg64 (volumes data))
                            (repeat 0%Z (length data))) = length data).
    { rewrite length_np_where; rewrite ?Hg, ?length_map, ?repeat_length; auto. }
    rewrite length_np_where; rewrite ?Hg, ?Hin; auto.
  - destruct data as [|b t]; [congruence|]. reflexivity.
  - intros i p b Hp Hb.
    assert (Hlen : (S i < length (closes data))%nat).
    { unfold closes. rewrite length_map. apply nth_error_Some. congruence. }
    rewrite !nth_error_np_where, !nth_error_map2.
    rewrite nth_error_shift1_S by exact Hlen.
    unfold closes, volumes. rewrite !nth_error_map, Hb, Hp.
    cbn [option_map].
    rewrite nth_error_repeat
      by (unfold closes in Hlen; rewrite length_map in Hlen; exact Hlen).
    f_equal. apply obv_contribution.
    apply nth_error_In in Hb.
    exact (proj1 (Forall_forall _ _) Hv b Hb).
Qed.

(** C5.  OBV is the running cumulative sum
    [OBV[i] = OBV[i-1] + sign(close[i] - close[i-1]) * volume[i]]
    ([+volume] if the close rose, [-volume] if it fell, nothing if it is
    unchanged), with [OBV[0] = 0] because index 0 has no prior bar, and it
    is defined at every index.  The volumes are those of the data model
    (non-negative) and their total fits an int64 cell. *)
Theorem obv_running_sum (data : list Bar.t) :
  Forall (fun b => (0 <= Bar.Volume b)%Z) data ->
  (Zsum (volumes data) < 2 ^ 63)%Z ->
  let obv := snd (calculate_volume_indicators data) in
  length obv = length data
  /\ (data <> [] -> nth_error obv 0 = Some 0%Z)
  /\ (forall i p b,
        nth_error data i = Some p -> nth_error data (S i) = Some b ->
        exists o,
          nth_error obv i = Some o
          /\ nth_error obv (S i)
             = Some (o + sign (Bar.Close b - Bar.Close p) * Bar.Volume b)%Z).
Proof.
  intros Hpos Hsum obv.
  assert (Hv : Forall (fun b => (0 <= Bar.Volume b < 2 ^ 63)%Z) data).
  { apply Forall_forall. intros b Hb.
    assert (Hin : In (Bar.Volume b) (volumes data)) by now apply in_map.
    assert (Hnn : Forall (fun v => (0 <= v)%Z) (volumes data)).
    { unfold volumes. apply Forall_forall. intros v Hvin.
      apply in_map_iff in Hvin as (b' & <- & Hb').
      exact (proj1 (Forall_forall _ _) Hpos b' Hb'). }
    pose proof (Zsum_bounds _ _ Hnn Hin). lia. }
  destruct (obv_steps_nth data Hv) as (Hlen & H0 & HS).
  subst obv. unfold calculate_volume_indicators. cbn [snd].
  set (steps := np_where _ _ _) in *.
  assert (Hb : (Z.abs 0 + sum_abs steps < 2 ^ 63)%Z).
  { assert (sum_abs steps <= Zsum (volumes data))%Z; [|lia].
    apply sum_abs_le; [unfold volumes; now rewrite length_map|].
    intros i ci vi Hc Hvi. unfold volumes in Hvi.
    rewrite nth_error_map in Hvi.
    destruct (nth_error data i) as [b|] eqn:Hb; [|discriminate].
    injection Hvi as <-.
    assert (Hvb : (0 <= Bar.Volume b < 2 ^ 63)%Z).
    { apply nth_error_In in Hb. exact (proj1 (Forall_forall _ _) Hv b Hb). }
    destruct i as [|i].
    - rewrite H0 in Hc by (intros ->; discriminate).
      injection Hc as <-. simpl. lia.
    - destruct (nth_error data i) as [p|] eqn:Hp.
      + rewrite (HS i p b Hp Hb) in Hc. injection Hc as <-.
        pose proof (sign_range (Bar.Close b - Bar.Close p)). nia.
      + apply nth_error_None in Hp.
        assert (S i < length data)%nat by (apply nth_error_Some; congruence).
        lia. }
  destruct (cumsum_from_nth steps 0%Z Hb) as [C0 CS].
  unfold cumsum. split; [|split].
  - now rewrite length_cumsum_from.
  - intros Hne. rewrite (C0 0%Z (H0 Hne)). reflexivity.
  - intros i p b Hp Hbq.
    assert (Hi : (i < length (cumsum_from 0 steps))%nat).
    { rewrite length_cumsum_from, Hlen. apply nth_error_Some. congruence. }
    destruct (nth_error (cumsum_from 0 steps) i) as [o|] eqn:Ho;
      [|apply nth_error_None in Ho; lia].
    exists o. split; [reflexivity|].
    exact (CS i o _ Ho (HS i p b Hp Hbq)).
Qed.

(** ** Relative strength index *)

Lemma In_shift1 (xs : list float64) (x : float64) :
  In x (shift1 xs) -> x = NaN \/ In x xs.
Proof.
  intros H. apply In_nth_error in H as [j Hj].
  assert (Hlt : (j < length xs)%nat).
  { rewrite <- length_shift1. apply nth_error_Some. congruence. }
  destruct j as [|j].
  - destruct xs as [|x0 t]; [simpl in Hlt; lia|].
    rewrite nth_error_shift1_0 in Hj. left. congruence.
  - rewrite nth_error_shift1_S in Hj by exact Hlt.
    right. now apply nth_error_In in Hj.
Qed.

Lemma diff_no_inf (data : list Bar.t) : Forall no_inf (diff (closes data)).
Proof.
  unfold diff.
  apply (map2_Forall fsub finite no_inf no_inf).
  - intros [a| | |] [b| | |]; simpl; tauto.
  - apply closes_finite.
  - apply Forall_forall. intros x Hx.
    apply In_shift1 in Hx as [->|Hx]; [exact I|].
    pose proof (closes_finite data) as Hf.
    apply (proj1 (Forall_forall _ _) Hf) in Hx. now destruct x.
Qed.

(** The two series that RSI averages hold finite non-negative cells
    only: the NaN of index 0 is replaced by zero like every cell that
    fails the test. *)
Lemma rsi_gains_nonneg (data : list Bar.t) :
  Forall nonneg (where_ (fun d => fgtb d (Fin 0)) (Fin 0) (diff (closes data))).
Proof.
  unfold where_. apply Forall_map.
  eapply Forall_impl; [|apply diff_no_inf].
  intros [q| | |] H; simpl in *; try contradiction; try apply Qle_refl.
  destruct (Qcompare_spec 0 q); simpl; try apply Qle_refl.
  now apply Qlt_le_weak.
Qed.

Lemma rsi_losses_nonneg (data : list Bar.t) :
  Forall nonneg
    (map fneg (where_ (fun d => fltb d (Fin 0)) (Fin 0) (diff (closes data)))).
Proof.
  unfold where_. rewrite map_map. apply Forall_map.
  eapply Forall_impl; [|apply diff_no_inf].
  intros [q| | |] H; simpl in *; try contradiction; try (now compute).
  destruct (Qcompare_spec q 0); simpl; try (now compute).
  lra.
Qed.

Lemma nonneg_finite (xs : list float64) : Forall nonneg xs -> Forall finite xs.
Proof.
  apply Forall_impl. intros [q| | |]; simpl; tauto.
Qed.

Lemma Qsum_nonneg (l : list Q) : Forall (fun q => 0 <= q) l -> 0 <= Qsum l.
Proof.
  induction 1 as [|q l Hq Hl IH]; simpl; lra.
Qed.

Lemma Qsum_zero (l : list Q) : Forall (fun q => q == 0) l -> Qsum l == 0.
Proof.
  induction 1 as [|q l Hq Hl IH]; simpl; lra.
Qed.

Lemma Qsum_pos (l : list Q) :
  Forall (fun q => 0 <= q) l -> Exists (fun q => 0 < q) l -> 0 < Qsum l.
Proof.
  induction 1 as [|q l Hq Hl IH]; intros He; inversion He; subst; simpl.
  - pose proof (Qsum_nonneg l Hl). lra.
  - specialize (IH H0). lra.
Qed.

Lemma vals_nonneg (xs : list float64) :
  Forall nonneg xs -> Forall (fun q => 0 <= q) (map val xs).
Proof.
  intros H. apply Forall_map. eapply Forall_impl; [|exact H].
  intros [q| | |]; simpl; tauto.
Qed.

Lemma mean_nonneg (obs : list float64) :
  Forall nonneg obs -> mean obs = NaN \/ nonneg (mean obs).
Proof.
  intros H. destruct obs as [|x obs]; [left; reflexivity|].
  right. rewrite mean_finite by (simpl; auto using nonneg_finite; lia).
  unfold nonneg. apply Qle_shift_div_l.
  - apply Qnat_pos. simpl. lia.
  - pose proof (Qsum_nonneg _ (vals_nonneg _ H)) as Hs. lra.
Qed.

Lemma Forall_observed (P : float64 -> Prop) (xs : list float64) :
  Forall P xs -> Forall P (observed xs).
Proof.
  intros H. apply Forall_forall. intros x Hx.
  apply filter_In in Hx as [Hx _]. revert x Hx. now apply Forall_forall.
Qed.

Lemma Forall_trailing {A : Type} (P : A -> Prop) (w i : nat) (xs : list A) :
  Forall P xs -> Forall P (trailing w i xs).
Proof.
  intros H. unfold trailing.
  apply Forall_forall. intros x Hx.
  apply In_nth_error in Hx as [j Hj]. rewrite nth_error_skipn in Hj.
  rewrite nth_error_firstn in Hj.
  destruct (_ <? _)%nat; [|discriminate].
  apply nth_error_In in Hj. revert x Hj. now apply Forall_forall.
Qed.

Lemma rolling_mean_nonneg (w : nat) (xs : list float64) :
  Forall nonneg xs ->
  Forall (fun x => x = NaN \/ nonneg x) (rolling w mean xs).
Proof.
  intros H. unfold rolling. apply Forall_map, Forall_forall. intros i _.
  cbv zeta. destruct (_ <? _)%nat; [now left|].
  apply mean_nonneg, Forall_observed.
  rewrite prep_finite by (apply nonneg_finite, Forall_trailing, H).
  apply Forall_trailing, H.
Qed.

Lemma fdiv_pos (a b : Q) : 0 < b -> fdiv (Fin a) (Fin b) = Fin (a / b).
Proof.
  intros H. unfold fdiv. apply Qgt_alt in H. now rewrite H.
Qed.

Lemma fdiv_zero_zero (a b : Q) :
  a == 0 -> b == 0 -> fdiv (Fin a) (Fin b) = NaN.
Proof.
  intros Ha Hb. unfold fdiv. apply Qeq_alt in Ha, Hb. now rewrite Ha, Hb.
Qed.

Lemma fdiv_pos_zero (a b : Q) :
  0 < a -> b == 0 -> fdiv (Fin a) (Fin b) = PInf.
Proof.
  intros Ha Hb. unfold fdiv. apply Qgt_alt in Ha. apply Qeq_alt in Hb.
  now rewrite Ha, Hb.
Qed.

(** The formula [100 - 100 / (1 + gain / loss)] on non-negative means. *)
Lemma rsi_formula_range (g l : float64) :
  g = NaN \/ nonneg g -> l = NaN \/ nonneg l ->
  let x := fsub (Fin 100) (fdiv (Fin 100) (fadd (Fin 1) (fdiv g l))) in
  x = NaN \/ within 0 100 x.
Proof.
  intros [->|Hg] [->|Hl]; try (now left).
  - destruct g; now left.
  - destruct g as [a| | |], l as [b| | |]; simpl in Hg, Hl; try contradiction.
    cbv zeta.
    destruct (Qlt_le_dec 0 b) as [Hb|Hb].
    + rewrite (fdiv_pos a b Hb).
      assert (Hr : 0 <= a / b) by (apply Qle_shift_div_l; lra).
      cbn [fadd]. rewrite fdiv_pos by lra.
      right. simpl.
      assert (0 <= 100 / (1 + a / b)) by (apply Qle_shift_div_l; lra).
      assert (100 / (1 + a / b) <= 100) by (apply Qle_shift_div_r; lra).
      lra.
    + assert (Hb0 : b == 0) by lra.
      destruct (Qlt_le_dec 0 a) as [Ha|Ha].
      * rewrite (fdiv_pos_zero a b Ha Hb0). right. simpl. lra.
      * rewrite (fdiv_zero_zero a b) by lra. now left.
Qed.

Lemma calculate_rsi_range (data : list Bar.t) (w : nat) :
  Forall (fun x => x = NaN \/ within 0 100 x) (calculate_rsi data w).
Proof.
  unfold calculate_rsi. apply Forall_map.
  apply (map2_Forall fdiv (fun g => g = NaN \/ nonneg g)
           (fun l => l = NaN \/ nonneg l)).
  - intros g l Hg Hl. exact (rsi_formula_range g l Hg Hl).
  - apply rolling_mean_nonneg, rsi_gains_nonneg.
  - apply rolling_mean_nonneg, rsi_losses_nonneg.
Qed.

Lemma close_at_nth (data : list Bar.t) (k : nat) (b : Bar.t) :
  nth_error data k = Some b -> close_at data k = Bar.Close b.
Proof.
  intros H. unfold close_at. apply nth_error_nth.
  now rewrite nth_error_map, H.
Qed.

Lemma length_diff (xs : list float64) : length (diff xs) = length xs.
Proof.
  unfold diff. rewrite length_map2, length_shift1. lia.
Qed.

(** The cell of [diff] at an index: NaN at index 0, the change of the
    close afterwards. *)
Lemma nth_error_diff (data : list Bar.t) (k : nat) :
  (k < length data)%nat ->
  nth_error (diff (closes data)) k =
  Some (match k with
        | O => NaN
        | S _ => Fin (delta_at data k)
        end).
Proof.
  intros Hk. unfold diff. rewrite nth_error_map2.
  destruct (nth_error data k) as [b|] eqn:Hb;
    [|apply nth_error_None in Hb; lia].
  unfold closes at 1. rewrite nth_error_map, Hb. cbn [option_map].
  destruct k as [|j].
  - destruct data as [|b0 t]; [discriminate|]. reflexivity.
  - rewrite nth_error_shift1_S
      by (unfold closes; rewrite length_map; exact Hk).
    destruct (nth_error data j) as [p|] eqn:Hp;
      [|apply nth_error_None in Hp; lia].
    unfold closes. rewrite nth_error_map, Hp. cbn [option_map].
    unfold delta_at. rewrite (close_at_nth _ _ _ Hb).
    replace (S j - 1)%nat with j by lia.
    rewrite (close_at_nth _ _ _ Hp). reflexivity.
Qed.

Lemma rsi_gain_at (data : list Bar.t) (k : nat) :
  (k < length data)%nat ->
  exists g,
    nth_error (where_ (fun d => fgtb d (Fin 0)) (Fin 0) (diff (closes data))) k
    = Some (Fin g)
    /\ 0 <= g
    /\ (delta_at data k <= 0 -> g == 0)
    /\ (0 < delta_at data k -> 0 < g).
Proof.
  intros Hk. unfold where_. rewrite nth_error_map, nth_error_diff by exact Hk.
  cbn [option_map]. destruct k as [|j].
  - exists 0. simpl. repeat split; try lra.
    unfold delta_at. simpl. lra.
  - unfold fgtb, fltb.
    destruct (Qcompare_spec 0 (delta_at data (S j))) as [H|H|H].
    + exists 0. repeat split; lra.
    + exists (delta_at data (S j)). repeat split; lra.
    + exists 0. repeat split; lra.
Qed.

Lemma rsi_loss_at (data : list Bar.t) (k : nat) :
  (k < length data)%nat ->
  exists l,
    nth_error
      (map fneg (where_ (fun d => fltb d (Fin 0)) (Fin 0) (diff (closes data))))
      k
    = Some (Fin l)
    /\ 0 <= l
    /\ (0 <= delta_at data k -> l == 0).
Proof.
  intros Hk. unfold where_.
  rewrite !nth_error_map, nth_error_diff by exact Hk.
  cbn [option_map]. destruct k as [|j].
  - exists (- 0). simpl. repeat split; lra.
  - unfold fltb.
    destruct (Qcompare_spec (delta_at data (S j)) 0) as [H|H|H].
    + exists (- 0). simpl. repeat split; lra.
    + exists (- delta_at data (S j)). simpl. repeat split; lra.
    + exists (- 0). simpl. repeat split; lra.
Qed.

(** RSI at an index with a full window: the formula on the two window
    sums, with what the changes of the close in the window say about
    them. *)
Lemma rsi_window (data : list Bar.t) (w i : nat) :
  (1 <= w)%nat -> (w <= i + 1)%nat -> (i < length data)%nat ->
  exists g l,
    nth_error (calculate_rsi data w) i
    = Some (fsub (Fin 100)
              (fdiv (Fin 100) (fadd (Fin 1) (fdiv (Fin g) (Fin l)))))
    /\ 0 <= g /\ 0 <= l
    /\ ((forall k, (i + 1 - w <= k <= i)%nat -> 0 <= delta_at data k) ->
        l == 0)
    /\ ((forall k, (i + 1 - w <= k <= i)%nat -> delta_at data k <= 0) ->
        g == 0)
    /\ ((exists k, (i + 1 - w <= k <= i)%nat /\ 0 < delta_at data k) ->
        0 < g).
Proof.
  intros Hw Hwi Hi.
  set (G := where_ (fun d => fgtb d (Fin 0)) (Fin 0) (diff (closes data))).
  set (L := map fneg
              (where_ (fun d => fltb d (Fin 0)) (Fin 0) (diff (closes data)))).
  assert (HlenG : length G = length data).
  { unfold G, where_. rewrite length_map, length_diff.
    unfold closes. apply length_map. }
  assert (HlenL : length L = length data).
  { unfold L, where_. rewrite !length_map, length_diff.
    unfold closes. apply length_map. }
  pose proof (rsi_gains_nonneg data) as HG. fold G in HG.
  pose proof (rsi_losses_nonneg data) as HL. fold L in HL.
  assert (Hpos : 0 < inject_Z (Z.of_nat w)) by now apply Qnat_pos.
  exists (Qsum (map val (slice (i + 1 - w) w G)) / inject_Z (Z.of_nat w)).
  exists (Qsum (map val (slice (i + 1 - w) w L)) / inject_Z (Z.of_nat w)).
  assert (HinG : forall x, In x (map val (slice (i + 1 - w) w G)) ->
            exists k g, (i + 1 - w <= k <= i)%nat /\ x = g /\ 0 <= g
              /\ (delta_at data k <= 0 -> g == 0)
              /\ (0 < delta_at data k -> 0 < g)).
  { intros x Hx. apply in_map_iff in Hx as (y & <- & Hy).
    apply In_slice in Hy as (k & Hk & Hy).
    assert (Hkd : (k < length data)%nat)
      by (rewrite <- HlenG; apply nth_error_Some; congruence).
    destruct (rsi_gain_at data k Hkd) as (g & Hg & Hrest).
    fold G in Hg. rewrite Hg in Hy. injection Hy as <-.
    exists k, g. split; [lia|]. split; [reflexivity | exact Hrest]. }
  assert (HinL : forall x, In x (map val (slice (i + 1 - w) w L)) ->
            exists k l, (i + 1 - w <= k <= i)%nat /\ x = l /\ 0 <= l
              /\ (0 <= delta_at data k -> l == 0)).
  { intros x Hx. apply in_map_iff in Hx as (y & <- & Hy).
    apply In_slice in Hy as (k & Hk & Hy).
    assert (Hkd : (k < length data)%nat)
      by (rewrite <- HlenL; apply nth_error_Some; congruence).
    destruct (rsi_loss_at data k Hkd) as (l & Hl & Hrest).
    fold L in Hl. rewrite Hl in Hy. injection Hy as <-.
    exists k, l. split; [lia|]. split; [reflexivity | exact Hrest]. }
  split; [|split; [|split; [|split; [|split]]]].
  - unfold calculate_rsi. fold G. fold L.
    rewrite nth_error_map, nth_error_map2.
    rewrite !nth_error_rolling_mean
      by (auto using nonneg_finite; try lia; congruence).
    destruct (Nat.ltb_spec (i + 1) w); [lia|]. reflexivity.
  - apply Qle_shift_div_l; [exact Hpos|].
    pose proof (Qsum_nonneg _ (vals_nonneg _ (Forall_slice _ (i + 1 - w)%nat w _ HG))). lra.
  - apply Qle_shift_div_l; [exact Hpos|].
    pose proof (Qsum_nonneg _ (vals_nonneg _ (Forall_slice _ (i + 1 - w)%nat w _ HL))). lra.
  - intros Hno.
    assert (Hz : Qsum (map val (slice (i + 1 - w) w L)) == 0).
    { apply Qsum_zero, Forall_forall. intros x Hx.
      destruct (HinL x Hx) as (k & l & Hk & -> & _ & Hl0). auto. }
    rewrite Hz. unfold Qdiv. lra.
  - intros Hno.
    assert (Hz : Qsum (map val (slice (i + 1 - w) w G)) == 0).
    { apply Qsum_zero, Forall_forall. intros x Hx.
      destruct (HinG x Hx) as (k & g & Hk & -> & _ & Hg0 & _). auto. }
    rewrite Hz. unfold Qdiv. lra.
  - intros (k & Hk & Hd).
    apply Qlt_shift_div_l; [exact Hpos|].
    assert (Hs : 0 < Qsum (map val (slice (i + 1 - w) w G))); [|lra].
    apply Qsum_pos.
    + apply vals_nonneg, Forall_slice, HG.
    + assert (Hkd : (k < length data)%nat) by lia.
      destruct (rsi_gain_at data k Hkd) as (g & Hg & _ & _ & Hgp).
      fold G in Hg. apply Exists_exists. exists g. split; [|auto].
      apply in_map_iff. exists (Fin g). split; [reflexivity|].
      apply In_slice. exists k. split; [lia | exact Hg].
Qed.

(** C6.  Wherever RSI is defined its value lies in [0, 100]; and when the
    trailing window holds gains but no losses (no close in the window
    is below its predecessor, one at least is above), RSI is exactly 100:
    the infinite relative strength saturates the formula. *)
Theorem rsi_bounded (data : list Bar.t) (w i : nat) :
  (forall x,
     nth_error (calculate_rsi data w) i = Some x -> isna x = false ->
     within 0 100 x)
  /\ ((1 <= w)%nat -> (w <= i + 1)%nat -> (i < length data)%nat ->
      (forall k, (i + 1 - w <= k <= i)%nat -> 0 <= delta_at data k) ->
      (exists k, (i + 1 - w <= k <= i)%nat /\ 0 < delta_at data k) ->
      nth_error (calculate_rsi data w) i = Some (Fin 100)).
Proof.
  split.
  - intros x Hx Hdef. apply nth_error_In in Hx.
    pose proof (calculate_rsi_range data w) as Hr.
    apply (proj1 (Forall_forall _ _) Hr) in Hx as [->|Hx];
      [discriminate | exact Hx].
  - intros Hw Hwi Hi Hno Hgain.
    destruct (rsi_window data w i Hw Hwi Hi)
      as (g & l & Hrsi & _ & _ & Hl & _ & Hg).
    rewrite Hrsi, (fdiv_pos_zero g l (Hg Hgain) (Hl Hno)). reflexivity.
Qed.

(** C9.  When the 14 close-to-close changes that end at index [i >= 14]
    are all zero, the mean gain and the mean loss are both zero and RSI at
    [i] is NaN (zero over zero), not 100, 50 or any other number. *)
Theorem rsi_flat_window_undefined (data : list Bar.t) (i : nat) :
  (14 <= i)%nat -> (i < length data)%nat ->
  (forall k, (i - 13 <= k <= i)%nat -> delta_at data k == 0) ->
  nth_error (calculate_rsi data 14) i = Some NaN.
Proof.
  intros Hi Hlen Hflat.
  destruct (rsi_window data 14 i) as (g & l & Hrsi & _ & _ & Hl & Hg & _);
    try lia.
  rewrite Hrsi, (fdiv_zero_zero g l); [reflexivity | |].
  - apply Hg. intros k Hk. rewrite (Hflat k) by lia. lra.
  - apply Hl. intros k Hk. rewrite (Hflat k) by lia. lra.
Qed.

(** The formula gives 100 whichever sign the infinite relative strength
    has. *)
Lemma rsi_formula_infinite :
  fsub (Fin 100) (fdiv (Fin 100) (fadd (Fin 1) PInf)) = Fin 100
  /\ fsub (Fin 100) (fdiv (Fin 100) (fadd (Fin 1) NInf)) = Fin 100.
Proof. split; reflexivity. Qed.

(** ** Bollinger bands *)

Lemma fsqrt_cases (x : float64) :
  fsqrt x = NaN \/ fsqrt x = PInf \/ nonneg (fsqrt x).
Proof.
  destruct x as [q| | |]; simpl; auto.
  destruct (Qle_bool 0 q) eqn:Hq; auto.
  right; right. simpl. apply sqrt64_nonneg. now apply Qle_bool_iff.
Qed.

Lemma rolling_std_cells (w : nat) (xs : list float64) :
  Forall (fun s => s = NaN \/ s = PInf \/ nonneg s) (rolling w std xs).
Proof.
  unfold rolling. apply Forall_map, Forall_forall. intros i _. cbv zeta.
  destruct (_ <? _)%nat; [now left|]. apply fsqrt_cases.
Qed.

(** A band at [k] deviations on each side of a middle value. *)
Lemma band_order (m s : float64) (k : Q) :
  0 <= k -> s = NaN \/ s = PInf \/ nonneg s ->
  isna (fadd m (fmul s (Fin k))) = false ->
  isna (fsub m (fmul s (Fin k))) = false ->
  fle (fsub m (fmul s (Fin k))) m /\ fle m (fadd m (fmul s (Fin k))).
Proof.
  intros Hk [->|[->|Hs]].
  - destruct m; discriminate.
  - simpl. unfold scale_inf.
    destruct (Qcompare_spec k 0) as [H|H|H]; [|lra|].
    + destruct m; discriminate.
    + destruct m; simpl; try discriminate; auto.
  - destruct s as [v| | |]; simpl in Hs; try contradiction.
    assert (Hvk : 0 <= v * k) by now apply Qmult_le_0_compat.
    destruct m as [a| | |]; simpl; try discriminate; auto.
    intros _ _. split; lra.
Qed.

(** C7.  At every index where the upper, the middle and the lower band
    are all defined, [lower <= middle <= upper]: the middle band is the
    moving average and the other two lie [num_std >= 0] (two, in
    [process_symbol_data]) rolling sample standard deviations away from
    it. *)
Theorem bollinger_bands_ordered (data : list Bar.t) (window : nat)
  (num_std : Q) (i : nat) (u m l : float64) :
  0 <= num_std ->
  let '(upper_band, middle_band, lower_band) :=
    calculate_bollinger_bands data window num_std in
  nth_error upper_band i = Some u ->
  nth_error middle_band i = Some m ->
  nth_error lower_band i = Some l ->
  isna u = false -> isna m = false -> isna l = false ->
  fle l m /\ fle m u
  /\ nth_error (calculate_sma data window) i = Some m
  /\ exists s,
       nth_error (rolling window std (closes data)) i = Some s
       /\ u = fadd m (fmul s (Fin num_std))
       /\ l = fsub m (fmul s (Fin num_std)).
Proof.
  intros Hk. unfold calculate_bollinger_bands.
  rewrite !nth_error_map2, !nth_error_map.
  intros Hu Hm Hl Hdu Hdm Hdl. rewrite Hm in Hu, Hl.
  destruct (nth_error (rolling window std (closes data)) i) as [s|] eqn:Hs;
    [|discriminate].
  cbn [option_map] in Hu, Hl. injection Hu as <-. injection Hl as <-.
  assert (Hcell : s = NaN \/ s = PInf \/ nonneg s).
  { apply nth_error_In in Hs.
    exact (proj1 (Forall_forall _ _) (rolling_std_cells _ _) s Hs). }
  destruct (band_order m s num_std Hk Hcell Hdu Hdl) as [H1 H2].
  repeat split; auto. exists s. auto.
Qed.

(** ** The per-symbol analysis *)

Lemma iloc_last_one {A : Type} (x : A) : iloc_last [x] = Some x.
Proof. reflexivity. Qed.

(** C10.  For every one-bar series the bar taken as the previous day is
    the last bar itself, and the reported [volume_change] is zero
    whatever the volume of the bar. *)
Theorem one_bar_volume_change (symbol : string) (row : Row.t) :
  prev_day_of [row] row = row
  /\ exists a,
       generate_symbol_analysis symbol [row] = Some a
       /\ fsame (Analysis.volume_change a) (Fin 0).
Proof.
  split; [reflexivity|].
  unfold generate_symbol_analysis. rewrite iloc_last_one.
  eexists. split; [reflexivity|].
  cbn [Analysis.volume_change]. change (prev_day_of [row] row) with row.
  destruct (0 <? Row.Volume row)%Z eqn:Hv; [|simpl; reflexivity].
  apply Z.ltb_lt in Hv.
  rewrite Z.sub_diag. change (wrap64 0) with 0%Z.
  unfold of_Z. rewrite fdiv_pos
    by (change 0 with (inject_Z 0); rewrite <- Zlt_Qlt; exact Hv).
  simpl. unfold Qdiv. change (inject_Z 0) with 0. lra.
Qed.

Lemma Forall_tail {A : Type} (P : A -> Prop) (n : nat) (l : list A) :
  Forall P l -> Forall P (tail n l).
Proof.
  unfold tail. generalize (length l - n)%nat as k. intros k H. revert k.
  induction H as [|x l Hx Hl IH]; intros [|k]; simpl; auto.
Qed.

Lemma length_tail {A : Type} (n : nat) (l : list A) :
  length (tail n l) = Nat.min n (length l).
Proof.
  unfold tail. rewrite length_skipn. lia.
Qed.

Lemma observed_finite_cells (xs : list float64) :
  Forall no_inf xs -> Forall finite (observed xs).
Proof.
  intros H. apply Forall_forall. intros x Hx.
  apply filter_In in Hx as [Hin Hna].
  apply (proj1 (Forall_forall _ _) H) in Hin.
  destruct x; simpl in *; auto; discriminate.
Qed.

Lemma fsqrt_nonneg (v : Q) :
  0 <= v -> exists r, fsqrt (Fin v) = Fin r /\ 0 <= r.
Proof.
  intros Hv. simpl. apply Qle_bool_iff in Hv as Hb. rewrite Hb.
  eexists. split; [reflexivity|]. now apply sqrt64_nonneg.
Qed.

(** The sample variance of two or more finite observations is a finite
    non-negative value. *)
Lemma var_finite (obs : list float64) :
  Forall finite obs -> (2 <= length obs)%nat ->
  exists v, var obs = Fin v /\ 0 <= v.
Proof.
  intros Hf Hn. unfold var.
  destruct (Nat.leb_spec (length obs) 1); [lia|].
  rewrite mean_finite by (auto; lia).
  set (mu := Qsum (map val obs) / inject_Z (Z.of_nat (length obs))).
  assert (Hsq : Forall nonneg
                  (map (fun x => fmul (fsub x (Fin mu)) (fsub x (Fin mu))) obs)).
  { apply Forall_map. eapply Forall_impl; [|exact Hf].
    intros [q| | |] Hq; try contradiction.
    cbn [fsub fneg fadd fmul nonneg].
    generalize (q + - mu). intros d.
    destruct (Qlt_le_dec d 0) as [Hd|Hd].
    - setoid_replace (d * d) with ((- d) * (- d)) by ring.
      apply Qmult_le_0_compat; lra.
    - now apply Qmult_le_0_compat. }
  rewrite (fsum_finite _ (nonneg_finite _ Hsq)).
  assert (Hd : 0 < inject_Z (Z.of_nat (length obs - 1)))
    by (apply Qnat_pos; lia).
  unfold of_nat, of_Z. rewrite fdiv_pos by exact Hd.
  eexists. split; [reflexivity|].
  apply Qle_shift_div_l; [exact Hd|].
  pose proof (Qsum_nonneg _ (vals_nonneg _ Hsq)). lra.
Qed.

(** Mean and standard deviation of a series whose cells are finite or
    NaN, as the analysis reports them. *)
Lemma series_stats (xs : list float64) :
  Forall no_inf xs ->
  trailing_stats (observed xs)
    (fmul (series_mean xs) (Fin 100)) (fmul (series_std xs) (Fin 100)).
Proof.
  intros H. pose proof (observed_finite_cells xs H) as Hf.
  unfold trailing_stats, series_mean, series_std, std.
  split; [|split; [|split]].
  - intros ->. reflexivity.
  - intros Hn. now rewrite mean_finite by auto.
  - intros Hn. unfold var.
    destruct (Nat.leb_spec (length (observed xs)) 1); [reflexivity | lia].
  - intros Hn. destruct (var_finite _ Hf Hn) as (v & -> & Hv).
    destruct (fsqrt_nonneg v Hv) as (r & -> & Hr).
    eexists. split; [reflexivity|]. lra.
Qed.

Lemma iloc_last_nonempty {A : Type} (l : list A) :
  l <> [] -> exists x, iloc_last l = Some x.
Proof.
  destruct l as [|a l]; [congruence|]. intros _. unfold iloc_last.
  destruct (nth_error (a :: l) (length (a :: l) - 1)) as [x|] eqn:H.
  - now exists x.
  - apply nth_error_None in H. simpl in H. lia.
Qed.

(** C8, as the code has it.  The trailing 7-day and 30-day statistics of
    a non-empty series are taken over its last [min n len] rows, NaN
    returns skipped: the mean is the average of the defined returns of
    these rows and is defined as soon as there is one, NaN when there is
    none; the standard deviation is defined as soon as there are two and
    NaN otherwise, so it is NaN for every one-bar series.  Returns are
    NaN or finite. *)
Theorem trailing_return_stats (symbol : string) (data : list Row.t) :
  data <> [] ->
  Forall (fun r => no_inf (Row.Daily_Return r)) data ->
  exists a,
    generate_symbol_analysis symbol data = Some a
    /\ length (tail 7 (map Row.Daily_Return data)) = Nat.min 7 (length data)
    /\ length (tail 30 (map Row.Daily_Return data)) = Nat.min 30 (length data)
    /\ trailing_stats (recent_returns 7 data)
         (Analysis.avg_return_7d a) (Analysis.volatility_7d a)
    /\ trailing_stats (recent_returns 30 data)
         (Analysis.avg_return_30d a) (Analysis.volatility_30d a).
Proof.
  intros Hne Hret.
  destruct (iloc_last_nonempty data Hne) as [latest Hlast].
  unfold generate_symbol_analysis. rewrite Hlast.
  eexists. split; [reflexivity|].
  rewrite !length_tail, length_map. do 2 (split; [reflexivity|]).
  assert (Hcells : Forall no_inf (map Row.Daily_Return data))
    by (apply Forall_map; exact Hret).
  cbn [Analysis.avg_return_7d Analysis.volatility_7d
       Analysis.avg_return_30d Analysis.volatility_30d].
  split; apply series_stats, Forall_tail, Hcells.
Qed.

(** ** The batch run *)

Lemma add_indicators_nil : add_indicators [] = [].
Proof. reflexivity. Qed.

(** A table without rows anywhere among the data files ends the run with
    the [IndexError] of [generate_summary_stats], whatever the other
    files hold. *)
Lemma process_files_empty_table (data_files : list (string * csv_file))
  (filename : string) :
  In (filename, Table []) data_files ->
  forall summaries, process_files data_files summaries = Raise IndexError.
Proof.
  induction data_files as [|[f c] rest IH]; intros Hin summaries;
    [contradiction|].
  simpl. destruct Hin as [Heq|Hin].
  - injection Heq as -> ->. reflexivity.
  - destruct c as [|bars]; simpl; [now apply IH|].
    destruct (generate_summary_stats (add_indicators bars) (symbol_of f))
      as [s|[]]; [now apply IH | reflexivity].
Qed.

Lemma process_all_data_empty_table (data_files : list (string * csv_file))
  (filename : string) :
  In (filename, Table []) data_files ->
  process_all_data data_files = Raise IndexError.
Proof.
  intros Hin. unfold process_all_data.
  destruct data_files; [contradiction|].
  now apply (process_files_empty_table _ filename).
Qed.

(** ** Sorting *)

Lemma insert_by_perm {A : Type} (lt : A -> A -> bool) (x : A) (l : list A) :
  Permutation (x :: l) (insert_by lt x l).
Proof.
  induction l as [|y t IH]; simpl; [reflexivity|].
  destruct (lt y x); [|reflexivity].
  rewrite perm_swap. now constructor.
Qed.

Lemma sort_by_perm {A : Type} (lt : A -> A -> bool) (l : list A) :
  Permutation l (sort_by lt l).
Proof.
  induction l as [|x t IH]; simpl; [reflexivity|].
  rewrite <- insert_by_perm. now constructor.
Qed.

Lemma insert_by_sorted {A : Type} (lt : A -> A -> bool) (R : A -> A -> Prop)
  (P : A -> Prop) :
  (forall a b, P a -> P b -> lt a b = true -> R a b) ->
  (forall a b, P a -> P b -> lt a b = false -> R b a) ->
  (forall a b c, R a b -> R b c -> R a c) ->
  forall x l, P x -> Forall P l ->
  StronglySorted R l -> StronglySorted R (insert_by lt x l).
Proof.
  intros H1 H2 H3 x l Hx HP Hs.
  induction Hs as [|y t Hs IH Hy]; simpl.
  - constructor; constructor.
  - inversion HP as [|? ? Py Pt]; subst.
    destruct (lt y x) eqn:Hlt.
    + constructor; [now apply IH|].
      apply (Permutation_Forall (insert_by_perm lt x t)).
      constructor; [now apply H1 | exact Hy].
    + assert (Rxy : R x y) by now apply H2.
      constructor; [now constructor|].
      constructor; [exact Rxy|].
      eapply Forall_impl; [|exact Hy]. intros z Hz. now apply (H3 x y z).
Qed.

Lemma sort_by_sorted {A : Type} (lt : A -> A -> bool) (R : A -> A -> Prop)
  (P : A -> Prop) :
  (forall a b, P a -> P b -> lt a b = true -> R a b) ->
  (forall a b, P a -> P b -> lt a b = false -> R b a) ->
  (forall a b c, R a b -> R b c -> R a c) ->
  forall l, Forall P l -> StronglySorted R (sort_by lt l).
Proof.
  intros H1 H2 H3 l HP.
  induction HP as [|x t Hx Ht IH]; simpl; [constructor|].
  apply (insert_by_sorted lt R P); auto.
  apply (Permutation_Forall (sort_by_perm lt t)). exact Ht.
Qed.

(** Python's [sorted] on keys that are all defined. *)
Lemma sorted_descending {A : Type} (key : A -> float64) (l : list A) :
  Forall (fun a => isna (key a) = false) l ->
  descending key (sorted key true l).
Proof.
  intros H. unfold descending, sorted.
  apply (sort_by_sorted _ _ (fun a => isna (key a) = false)); auto.
  - intros a b _ _ Hlt. now apply flt_fle, fltb_flt.
  - intros a b Ha Hb Hlt. now apply fltb_false_fle.
  - intros a b c Hab Hbc. now apply (fle_trans _ (key b)).
Qed.

Lemma sorted_ascending {A : Type} (key : A -> float64) (l : list A) :
  Forall (fun a => isna (key a) = false) l ->
  ascending key (sorted key false l).
Proof.
  intros H. unfold ascending, sorted.
  apply (sort_by_sorted _ _ (fun a => isna (key a) = false)); auto.
  - intros a b _ _ Hlt. now apply flt_fle, fltb_flt.
  - intros a b Ha Hb Hlt. now apply fltb_false_fle.
  - intros a b c Hab Hbc. now apply (fle_trans _ (key b)).
Qed.

Lemma sorted_perm {A : Type} (key : A -> float64) (reverse : bool)
  (l : list A) : Permutation l (sorted key reverse l).
Proof. apply sort_by_perm. Qed.


Lemma StronglySorted_app_order {A : Type} (R : A -> A -> Prop)
  (l1 l2 : list A) :
  StronglySorted R (l1 ++ l2) ->
  forall a b, In a l1 -> In b l2 -> R a b.
Proof.
  induction l1 as [|x t IH]; simpl; intros Hs a b Ha Hb; [contradiction|].
  inversion Hs as [|? ? Hs' Hx]; subst.
  destruct Ha as [<-|Ha].
  - apply (proj1 (Forall_forall _ _) Hx). apply in_or_app. now right.
  - now apply IH.
Qed.

(** The first [n] entries of a sorted list come before all the others. *)
Lemma firstn_top {A : Type} (R : A -> A -> Prop) (n : nat) (l : list A) :
  StronglySorted R l ->
  forall a b, In a (firstn n l) -> In b (skipn n l) -> R a b.
Proof.
  intros Hs. rewrite <- (firstn_skipn n l) in Hs.
  now apply StronglySorted_app_order.
Qed.

(** ** The market summary *)

(** What one turn of the loop adds to the three ranked lists. *)
Lemma summary_step_lists (config : Config.t) (s : Market.t)
  (item : string * list Row.t) :
  Market.gainers (summary_step config s item)
  = Market.gainers s ++ (if is_gainer item then [info_of item] else [])
  /\ Market.losers (summary_step config s item)
     = Market.losers s ++ (if is_loser item then [info_of item] else [])
  /\ Market.high_volume (summary_step config s item)
     = Market.high_volume s
       ++ (if is_high_volume config item then [info_of item] else []).
Proof.
  destruct item as [symbol data].
  unfold summary_step, is_gainer, is_loser, is_high_volume, kept, info_of,
    last_return, last_close.
  cbn [fst snd].
  destruct (iloc_last data) as [latest|]; cbn [isna orb negb andb];
    [|now rewrite !app_nil_r].
  destruct (isna (Row.Daily_Return latest)); cbn [orb negb andb];
    [now rewrite !app_nil_r|].
  destruct (isna (Row.Close latest)); cbn [orb negb andb];
    [now rewrite !app_nil_r|].
  cbn [Info.volume_ratio].
  destruct (fgtb (Row.Daily_Return latest) (Fin 0.02));
    destruct (fltb (Row.Daily_Return latest) (fneg (Fin 0.02)));
    destruct (isna (Row.Volume_Ratio latest));
    destruct (fgtb (Row.Volume_Ratio latest) (volume_multiplier config));
    destruct (fgtb (fabs (Row.Daily_Return latest))
                (fdiv (price_change_threshold config) (Fin 100)));
    cbn; rewrite ?app_nil_r; auto.
Qed.

Lemma fold_summary_lists (config : Config.t)
  (data_dict : list (string * list Row.t)) (s : Market.t) :
  let r := fold_left (summary_step config) data_dict s in
  Market.gainers r
  = Market.gainers s ++ map info_of (filter is_gainer data_dict)
  /\ Market.losers r
     = Market.losers s ++ map info_of (filter is_loser data_dict)
  /\ Market.high_volume r
     = Market.high_volume s
       ++ map info_of (filter (is_high_volume config) data_dict).
Proof.
  revert s. induction data_dict as [|item rest IH]; intros s; simpl.
  - now rewrite !app_nil_r.
  - destruct (IH (summary_step config s item)) as (Hg & Hl & Hh).
    destruct (summary_step_lists config s item) as (Sg & Sl & Sh).
    rewrite Hg, Hl, Hh, Sg, Sl, Sh, <- !app_assoc.
    destruct (is_gainer item), (is_loser item), (is_high_volume config item);
      auto.
Qed.

Lemma collect_lists (config : Config.t) (today : string)
  (data_dict : list (string * list Row.t)) :
  Market.gainers (collect config today data_dict)
  = map info_of (filter is_gainer data_dict)
  /\ Market.losers (collect config today data_dict)
     = map info_of (filter is_loser data_dict)
  /\ Market.high_volume (collect config today data_dict)
     = map info_of (filter (is_high_volume config) data_dict).
Proof.
  unfold collect. apply (fold_summary_lists config data_dict).
Qed.

(** The keys of the ranked lists are never NaN. *)
Lemma gainer_change_defined (item : string * list Row.t) :
  is_gainer item = true -> isna (Info.change (info_of item)) = false.
Proof.
  unfold is_gainer, info_of. cbn [Info.change].
  intros H. apply andb_prop in H as [_ H]. unfold fgtb in H.
  destruct (last_return (snd item)) as [q| | |]; try discriminate; reflexivity.
Qed.

Lemma loser_change_defined (item : string * list Row.t) :
  is_loser item = true -> isna (Info.change (info_of item)) = false.
Proof.
  unfold is_loser, info_of. cbn [Info.change].
  intros H. apply andb_prop in H as [_ H].
  destruct (last_return (snd item)) as [q| | |]; try discriminate; reflexivity.
Qed.


Lemma Forall_map_filter {A B : Type} (f : A -> B) (p : A -> bool)
  (P : B -> Prop) (l : list A) :
  (forall a, p a = true -> P (f a)) -> Forall P (map f (filter p l)).
Proof.
  intros H. apply Forall_map, Forall_forall. intros a Ha.
  apply filter_In in Ha as [_ Ha]. now apply H.
Qed.

Lemma length_firstn_le {A : Type} (n : nat) (l : list A) :
  (length (firstn n l) <= n)%nat.
Proof. rewrite length_firstn. lia. Qed.

Lemma NoDup_fst_unique {K V : Type} (l : list (K * V)) (k : K) (v v' : V) :
  NoDup (map fst l) -> In (k, v) l -> In (k, v') l -> v = v'.
Proof.
  induction l as [|[k0 v0] t IH]; simpl; intros Hnd H1 H2; [contradiction|].
  inversion Hnd as [|? ? Hnotin Hnd']; subst.
  destruct H1 as [H1|H1], H2 as [H2|H2].
  - congruence.
  - injection H1 as -> ->. exfalso. apply Hnotin.
    apply in_map_iff. now exists (k, v').
  - injection H2 as -> ->. exfalso. apply Hnotin.
    apply in_map_iff. now exists (k, v).
  - now apply IH.
Qed.

Lemma In_symbols_filter (p : string * list Row.t -> bool)
  (data_dict : list (string * list Row.t)) (symbol : string)
  (data : list Row.t) :
  NoDup (map fst data_dict) -> In (symbol, data) data_dict ->
  (In symbol (symbols (map info_of (filter p data_dict)))
   <-> p (symbol, data) = true).
Proof.
  intros Hnd Hin. unfold symbols. rewrite map_map. cbn [info_of Info.symbol].
  split.
  - intros H. apply in_map_iff in H as ([k v] & Hk & Hf). cbn [fst] in Hk.
    subst k. apply filter_In in Hf as [Hv Hp].
    now rewrite (NoDup_fst_unique _ _ _ _ Hnd Hin Hv).
  - intros Hp. apply in_map_iff. exists (symbol, data). split; [reflexivity|].
    apply filter_In. now split.
Qed.

Lemma In_firstn {A : Type} (n : nat) (l : list A) (x : A) :
  In x (firstn n l) -> In x l.
Proof.
  intros H. rewrite <- (firstn_skipn n l). apply in_or_app. now left.
Qed.

Lemma In_symbols_ranked (key : Info.t -> float64) (reverse : bool)
  (l : list Info.t) (symbol : string) :
  In symbol (symbols (firstn 10 (sorted key reverse l))) ->
  In symbol (symbols l).
Proof.
  unfold symbols. intros H. apply in_map_iff in H as (g & Hg & Hin).
  apply In_firstn in Hin.
  apply (Permutation_in _ (Permutation_sym (sorted_perm key reverse l))) in Hin.
  apply in_map_iff. now exists g.
Qed.

(** The two thresholds, for a return that is not NaN. *)
Lemma thresholds_exclusive (r : float64) :
  flt r (Fin (- 0.02)) -> ~ flt (Fin 0.02) r.
Proof.
  destruct r as [q| | |]; simpl; try tauto. lra.
Qed.

Lemma thresholds_boundary (r : float64) :
  fsame r (Fin 0.02) \/ fsame r (Fin (- 0.02)) ->
  ~ flt (Fin 0.02) r /\ ~ flt r (Fin (- 0.02)).
Proof.
  destruct r as [q| | |]; simpl; try tauto. lra.
Qed.

(** Classification of the symbols that pass the guard on the last bar. *)
Lemma classification_kept (config : Config.t) (today : string)
  (data_dict : list (string * list Row.t)) (symbol : string)
  (data : list Row.t) :
  NoDup (map fst data_dict) -> In (symbol, data) data_dict ->
  kept (symbol, data) = true ->
  let r := last_return data in
  let s := collect config today data_dict in
  (In symbol (symbols (Market.gainers s)) <-> flt (Fin 0.02) r)
  /\ (In symbol (symbols (Market.losers s)) <-> flt r (Fin (- 0.02))).
Proof.
  intros Hnd Hin Hkept r s.
  destruct (collect_lists config today data_dict) as (Hg & Hl & _).
  subst s. rewrite Hg, Hl.
  rewrite !(In_symbols_filter _ data_dict symbol data Hnd Hin).
  unfold is_gainer, is_loser. rewrite Hkept. cbn [andb fst snd]. fold r.
  unfold fgtb. split.
  - apply fltb_flt.
  - rewrite andb_true_iff, negb_true_iff.
    change (fneg (Fin 0.02)) with (Fin (- 0.02)). rewrite fltb_flt.
    split; [tauto|]. intros H. split; [|exact H].
    apply thresholds_exclusive in H.
    destruct (fltb (Fin 0.02) r) eqn:E; [|reflexivity].
    apply fltb_flt in E. contradiction.
Qed.

(** The frames of the engine never hold an undefined close. *)
Lemma add_indicators_close (bars : list Bar.t) (row : Row.t) :
  In row (add_indicators bars) -> finite (Row.Close row).
Proof.
  unfold add_indicators, calculate_bollinger_bands, calculate_macd,
    calculate_volume_indicators.
  cbv beta iota zeta. intros H.
  apply in_map_iff in H as ([i b] & <- & _). exact I.
Qed.

Lemma iloc_last_In {A : Type} (l : list A) (x : A) :
  iloc_last l = Some x -> In x l.
Proof.
  destruct l as [|a l]; [discriminate|]. unfold iloc_last.
  apply nth_error_In.
Qed.

Lemma engine_kept (symbol : string) (bars : list Bar.t) :
  isna (last_return (add_indicators bars)) = false ->
  kept (symbol, add_indicators bars) = true.
Proof.
  unfold kept, last_return, last_close. cbn [snd].
  destruct (iloc_last (add_indicators bars)) as [latest|] eqn:Hlast;
    [|discriminate].
  intros ->. apply iloc_last_In, add_indicators_close in Hlast.
  destruct (Row.Close latest); try contradiction. reflexivity.
Qed.

Lemma processed_dict_keys (series : list (string * list Bar.t)) :
  map fst (processed_dict series) = map fst series.
Proof.
  unfold processed_dict. rewrite map_map. reflexivity.
Qed.

(** ** Ranking *)


Lemma filter_all {A : Type} (p : A -> bool) (l : list A) :
  (forall x, In x l -> p x = true) -> filter p l = l.
Proof.
  induction l as [|x t IH]; simpl; intros H; [reflexivity|].
  rewrite (H x) by now left. f_equal. apply IH. intros y Hy. apply H. now right.
Qed.





(** An entry of the list that is sorted is among the first ten, or ten
    entries come before it. *)
Lemma listed_or_crowded {A : Type} (key : A -> float64) (reverse : bool)
  (R : A -> A -> Prop) (all : list A) (x : A) :
  StronglySorted R (sorted key reverse all) ->
  In x all ->
  In x (firstn 10 (sorted key reverse all))
  \/ ((10 < length all)%nat
      /\ length (firstn 10 (sorted key reverse all)) = 10%nat
      /\ forall g, In g (firstn 10 (sorted key reverse all)) -> R g x).
Proof.
  intros Hs Hx. pose proof (sorted_perm key reverse all) as Hperm.
  apply (Permutation_in _ Hperm) in Hx.
  rewrite <- (firstn_skipn 10 (sorted key reverse all)) in Hx.
  apply in_app_or in Hx as [Hx|Hx]; [now left | right].
  assert (Hlen : (10 < length all)%nat).
  { rewrite (Permutation_length Hperm).
    destruct (le_lt_dec (length (sorted key reverse all)) 10) as [H|H];
      [|exact H].
    rewrite skipn_all2 in Hx by exact H. contradiction. }
  split; [exact Hlen|]. split.
  - rewrite length_firstn, <- (Permutation_length Hperm). lia.
  - intros g Hg. now apply (firstn_top R 10 _ Hs).
Qed.


Lemma kept_defined (symbol : string) (data : list Row.t) :
  isna (last_return data) = false -> isna (last_close data) = false ->
  kept (symbol, data) = true.
Proof. unfold kept. cbn [snd]. now intros -> ->. Qed.

(** A symbol of a class is listed in the summary, or ten symbols of the
    class rank before it. *)
Lemma class_listed_or_crowded (p : string * list Row.t -> bool)
  (key : Info.t -> float64) (reverse : bool) (R : Info.t -> Info.t -> Prop)
  (data_dict : list (string * list Row.t)) (item : string * list Row.t) :
  StronglySorted R (sorted key reverse (map info_of (filter p data_dict))) ->
  In item data_dict -> p item = true ->
  let ranked :=
    firstn 10 (sorted key reverse (map info_of (filter p data_dict))) in
  In (fst item) (symbols ranked)
  \/ ((10 < length data_dict)%nat
      /\ length ranked = 10%nat
      /\ forall g, In g ranked -> R g (info_of item)).
Proof.
  intros Hs Hin Hp ranked.
  assert (Hx : In (info_of item) (map info_of (filter p data_dict))).
  { apply in_map, filter_In. now split. }
  destruct (listed_or_crowded key reverse R _ _ Hs Hx) as [H|(Hn & Hl & Hr)].
  - left. unfold symbols. apply in_map_iff. now exists (info_of item).
  - right. split; [|now split].
    rewrite length_map in Hn.
    pose proof (filter_length_le p data_dict). lia.
Qed.

(** C2.  The dictionary is the one handed to [generate_market_summary];
    the symbol's last row has a defined daily return and, as every bar of
    the data model and every row that the engine builds
    ([add_indicators_close]), a defined close.  The loop puts the symbol among the
    gainers iff the return is strictly above +2%, among the losers iff
    it is strictly below -2%.  In the returned summary, whose lists are
    sorted and cut to ten, a listed gainer is above +2% and a listed
    loser below -2%; a gainer is listed unless ten gainers of at least
    its change are, a loser unless ten losers of at most its change are;
    with ten symbols or fewer the summary lists the symbol as a gainer
    iff its return is above +2% and as a loser iff it is below -2%.
    No symbol is in both classes, and a return of exactly +2% or exactly
    -2% is in neither. *)
Theorem gainer_loser_classification (config : Config.t) (today : string)
  (data_dict : list (string * list Row.t)) (symbol : string)
  (data : list Row.t) :
  NoDup (map fst data_dict) -> In (symbol, data) data_dict ->
  let r := last_return data in
  isna r = false -> isna (last_close data) = false ->
  let collected := collect config today data_dict in
  let summary := generate_market_summary config today data_dict in
  let gainers := symbols (Market.gainers summary) in
  let losers := symbols (Market.losers summary) in
  ((In symbol (symbols (Market.gainers collected)) <-> flt (Fin 0.02) r)
   /\ (In symbol (symbols (Market.losers collected))
       <-> flt r (Fin (- 0.02))))
  /\ ((In symbol gainers -> flt (Fin 0.02) r)
      /\ (In symbol losers -> flt r (Fin (- 0.02))))
  /\ (flt (Fin 0.02) r ->
      In symbol gainers
      \/ ((10 < length data_dict)%nat
          /\ length (Market.gainers summary) = 10%nat
          /\ forall g, In g (Market.gainers summary) ->
               fle (fmul r (Fin 100)) (Info.change g)))
  /\ (flt r (Fin (- 0.02)) ->
      In symbol losers
      \/ ((10 < length data_dict)%nat
          /\ length (Market.losers summary) = 10%nat
          /\ forall g, In g (Market.losers summary) ->
               fle (Info.change g) (fmul r (Fin 100))))
  /\ ((length data_dict <= 10)%nat ->
      (In symbol gainers <-> flt (Fin 0.02) r)
      /\ (In symbol losers <-> flt r (Fin (- 0.02))))
  /\ (~ (In symbol gainers /\ In symbol losers)
      /\ ~ (In symbol (symbols (Market.gainers collected))
            /\ In symbol (symbols (Market.losers collected))))
  /\ (fsame r (Fin 0.02) \/ fsame r (Fin (- 0.02)) ->
      (~ In symbol gainers /\ ~ In symbol losers)
      /\ ~ In symbol (symbols (Market.gainers collected))
      /\ ~ In symbol (symbols (Market.losers collected))).
Proof.
  intros Hnd Hin r Hr Hc collected summary gainers losers.
  pose proof (kept_defined symbol data Hr Hc) as Hkept.
  destruct (classification_kept config today data_dict symbol data
              Hnd Hin Hkept) as [Hg Hl].
  fold r in Hg, Hl. fold collected in Hg, Hl.
  assert (Gs : In symbol gainers -> flt (Fin 0.02) r).
  { intros H. apply Hg. subst gainers summary collected.
    unfold generate_market_summary in H. cbn [Market.gainers] in H.
    now apply In_symbols_ranked in H. }
  assert (Ls : In symbol losers -> flt r (Fin (- 0.02))).
  { intros H. apply Hl. subst losers summary collected.
    unfold generate_market_summary in H. cbn [Market.losers] in H.
    now apply In_symbols_ranked in H. }
  destruct (collect_lists config today data_dict) as (Cg & Cl & _).
  assert (Gc : flt (Fin 0.02) r ->
               In symbol gainers
               \/ ((10 < length data_dict)%nat
                   /\ length (Market.gainers summary) = 10%nat
                   /\ forall g, In g (Market.gainers summary) ->
                        fle (fmul r (Fin 100)) (Info.change g))).
  { intros H. apply Hg in H. unfold collected in H. rewrite Cg in H.
    apply (In_symbols_filter _ _ _ _ Hnd Hin) in H.
    subst gainers summary. unfold generate_market_summary.
    cbn [Market.gainers]. rewrite Cg.
    apply (class_listed_or_crowded is_gainer Info.change true
             (fun g x => fle (Info.change x) (Info.change g))
             data_dict (symbol, data)); try assumption.
    apply sorted_descending, Forall_map_filter, gainer_change_defined. }
  assert (Lc : flt r (Fin (- 0.02)) ->
               In symbol losers
               \/ ((10 < length data_dict)%nat
                   /\ length (Market.losers summary) = 10%nat
                   /\ forall g, In g (Market.losers summary) ->
                        fle (Info.change g) (fmul r (Fin 100)))).
  { intros H. apply Hl in H. unfold collected in H. rewrite Cl in H.
    apply (In_symbols_filter _ _ _ _ Hnd Hin) in H.
    subst losers summary. unfold generate_market_summary.
    cbn [Market.losers]. rewrite Cl.
    apply (class_listed_or_crowded is_loser Info.change false
             (fun g x => fle (Info.change g) (Info.change x))
             data_dict (symbol, data)); try assumption.
    apply sorted_ascending, Forall_map_filter, loser_change_defined. }
  split; [split; assumption|]. split; [split; assumption|].
  split; [exact Gc|]. split; [exact Lc|]. split; [|split].
  - intros Hlen. split; (split; [assumption|]).
    + intros H. destruct (Gc H) as [H'|(H' & _)]; [exact H' | lia].
    + intros H. destruct (Lc H) as [H'|(H' & _)]; [exact H' | lia].
  - split.
    + intros [H1 H2]. apply Gs in H1. apply Ls in H2.
      now apply thresholds_exclusive in H2.
    + intros [H1 H2]. apply Hg in H1. apply Hl in H2.
      now apply thresholds_exclusive in H2.
  - intros Hb. apply thresholds_boundary in Hb as [H1 H2].
    split; [split|split]; intros H.
    + now apply H1, Gs.
    + now apply H2, Ls.
    + now apply H1, Hg.
    + now apply H2, Hl.
Qed.




(** The key of the two price lists is the return in percent, which
    orders the symbols as the return does. *)
Lemma percent_order (r1 r2 : float64) :
  isna r1 = false -> isna r2 = false ->
  (fle (fmul r1 (Fin 100)) (fmul r2 (Fin 100)) <-> fle r1 r2).
Proof.
  destruct r1 as [a| | |], r2 as [b| | |]; simpl; try discriminate;
    try tauto.
  intros _ _. split; intros H; lra.
Qed.


(** ** Exponential averages *)

Lemma length_ewm_from (k : Q) (l : list float64) :
  forall num den, length (ewm_from k num den l) = length l.
Proof.
  induction l as [|x t IH]; intros num den; simpl; auto.
Qed.

Lemma span_factor (span : nat) :
  (1 <= span)%nat ->
  0 <= 1 - 2 / (inject_Z (Z.of_nat span) + 1)
  /\ 1 - 2 / (inject_Z (Z.of_nat span) + 1) < 1.
Proof.
  intros H. apply Qnat_pos in H as Hs.
  assert (Hone : 1 <= inject_Z (Z.of_nat span)).
  { change 1 with (inject_Z 1). rewrite <- Zle_Qle. lia. }
  assert (H1 : 2 / (inject_Z (Z.of_nat span) + 1) <= 1)
    by (apply Qle_shift_div_r; lra).
  assert (H2 : 0 < 2 / (inject_Z (Z.of_nat span) + 1))
    by (apply Qlt_shift_div_l; lra).
  lra.
Qed.

Lemma Qmult_le_nonneg_l (k a b : Q) : 0 <= k -> a <= b -> k * a <= k * b.
Proof.
  intros Hk Hab. rewrite (Qmult_comm k a), (Qmult_comm k b).
  now apply Qmult_le_compat_r.
Qed.

(** The running weighted average stays between any two bounds of the
    cells it has seen. *)
Lemma ewm_from_bounds (k lo hi : Q) :
  0 <= k ->
  forall (l : list Q) (n d : Q) (i : nat) (y : float64),
    0 <= d -> lo * d <= n -> n <= hi * d ->
    (forall j x, (j <= i)%nat -> nth_error l j = Some x -> lo <= x <= hi) ->
    nth_error (ewm_from k (Fin n) (Fin d) (map Fin l)) i = Some y ->
    exists q, y = Fin q /\ lo <= q <= hi.
Proof.
  intros Hk l. induction l as [|x t IH]; intros n d i y Hd Hlo Hhi Hx Hy.
  - destruct i; discriminate.
  - cbn [map ewm_from fadd fmul] in Hy.
    assert (Hx0 : lo <= x <= hi) by (apply (Hx 0%nat); [lia | reflexivity]).
    assert (Hkd : 0 <= k * d) by now apply Qmult_le_0_compat.
    assert (Hden : 0 < 1 + k * d) by lra.
    assert (Hn1 : lo * (1 + k * d) <= x + k * n).
    { assert (k * (lo * d) <= k * n) by now apply Qmult_le_nonneg_l.
      lra. }
    assert (Hn2 : x + k * n <= hi * (1 + k * d)).
    { assert (k * n <= k * (hi * d)) by now apply Qmult_le_nonneg_l.
      lra. }
    rewrite fdiv_pos in Hy by exact Hden.
    destruct i as [|i]; cbn [nth_error] in Hy.
    + injection Hy as <-. eexists. split; [reflexivity|]. split.
      * apply Qle_shift_div_l; [exact Hden | exact Hn1].
      * apply Qle_shift_div_r; [exact Hden | exact Hn2].
    + apply (IH (x + k * n) (1 + k * d) i y); try lra; try assumption.
      intros j z Hj Hz. apply (Hx (S j)); [lia | exact Hz].
Qed.

Lemma ewm_from_finite (k : Q) (l : list Q) :
  0 <= k ->
  forall n d, 0 <= d -> Forall finite (ewm_from k (Fin n) (Fin d) (map Fin l)).
Proof.
  intros Hk. induction l as [|x t IH]; intros n d Hd; [constructor|].
  cbn [map ewm_from fadd fmul].
  assert (Hkd : 0 <= k * d) by now apply Qmult_le_0_compat.
  rewrite fdiv_pos by lra. constructor; [exact I|]. apply IH. lra.
Qed.

Lemma finite_vals (l : list float64) :
  Forall finite l -> l = map Fin (map val l).
Proof.
  induction 1 as [|x t Hx Ht IH]; [reflexivity|].
  destruct x; try contradiction. simpl. now rewrite <- IH.
Qed.

Lemma finite_nth (l : list float64) (i : nat) :
  Forall finite l -> (i < length l)%nat ->
  exists q, nth_error l i = Some (Fin q).
Proof.
  intros Hf Hi. destruct (nth_error l i) as [x|] eqn:Hx;
    [|apply nth_error_None in Hx; lia].
  apply nth_error_In in Hx as Hin.
  apply (proj1 (Forall_forall _ _) Hf) in Hin.
  destruct x; try contradiction. now eexists.
Qed.

Lemma closes_map (data : list Bar.t) :
  closes data = map Fin (map Bar.Close data).
Proof. unfold closes. now rewrite map_map. Qed.

Lemma calculate_ema_finite (data : list Bar.t) (window : nat) :
  (1 <= window)%nat -> Forall finite (calculate_ema data window).
Proof.
  intros Hw. unfold calculate_ema, ewm_mean. rewrite closes_map.
  apply ewm_from_finite; [apply (span_factor window Hw) | lra].
Qed.

Lemma length_calculate_ema (data : list Bar.t) (window : nat) :
  length (calculate_ema data window) = length data.
Proof.
  unfold calculate_ema, ewm_mean, closes.
  now rewrite length_ewm_from, length_map.
Qed.

Lemma calculate_ema_bounds (data : list Bar.t) (window i : nat) (lo hi : Q) :
  (1 <= window)%nat -> (i < length data)%nat ->
  (forall j b, (j <= i)%nat -> nth_error data j = Some b ->
               lo <= Bar.Close b <= hi) ->
  exists q,
    nth_error (calculate_ema data window) i = Some (Fin q) /\ lo <= q <= hi.
Proof.
  intros Hw Hi Hb.
  destruct (finite_nth _ i (calculate_ema_finite data window Hw)) as [q Hq];
    [now rewrite length_calculate_ema|].
  exists q. split; [exact Hq|].
  unfold calculate_ema, ewm_mean in Hq. rewrite closes_map in Hq.
  destruct (ewm_from_bounds _ lo hi (proj1 (span_factor window Hw))
              (map Bar.Close data) 0 0 i (Fin q)) as (q' & [= ->] & Hq');
    try lra; try exact Hq; try exact Hq'.
  intros j x Hj Hx. rewrite nth_error_map in Hx.
  destruct (nth_error data j) as [b|] eqn:Hbj; [|discriminate].
  injection Hx as <-. now apply (Hb j).
Qed.

(** X1.  The exponential average of span [window >= 1] is defined at
    every index, from index 0 on; it lies between any two bounds of the
    closes seen so far, and at index 0 it is the first close. *)
Theorem ema_between_closes (data : list Bar.t) (window i : nat) (lo hi : Q) :
  (1 <= window)%nat -> (i < length data)%nat ->
  (forall j b, (j <= i)%nat -> nth_error data j = Some b ->
               lo <= Bar.Close b <= hi) ->
  (exists q,
     nth_error (calculate_ema data window) i = Some (Fin q) /\ lo <= q <= hi)
  /\ (forall b, nth_error data 0 = Some b ->
        exists q,
          nth_error (calculate_ema data window) 0 = Some (Fin q)
          /\ q == Bar.Close b).
Proof.
  intros Hw Hi Hb. split; [now apply calculate_ema_bounds|].
  intros b H0.
  destruct (calculate_ema_bounds data window 0 (Bar.Close b) (Bar.Close b) Hw)
    as (q & Hq & Hle).
  - lia.
  - intros j b' Hj Hb'. assert (j = 0)%nat by lia. subst j.
    rewrite H0 in Hb'. injection Hb' as <-. lra.
  - exists q. split; [exact Hq | lra].
Qed.

(** The three series of [calculate_macd] at an index. *)
Lemma calculate_macd_cells (data : list Bar.t) (fast slow signal i : nat) :
  (1 <= fast)%nat -> (1 <= slow)%nat -> (1 <= signal)%nat ->
  (i < length data)%nat ->
  exists m s,
    nth_error (fst (fst (calculate_macd data fast slow signal))) i
    = Some (Fin m)
    /\ nth_error (snd (fst (calculate_macd data fast slow signal))) i
       = Some (Fin s)
    /\ nth_error (snd (calculate_macd data fast slow signal)) i
       = Some (Fin (m - s))
    /\ (i = 0%nat -> m == 0 /\ s == 0).
Proof.
  intros Hf Hs Hg Hi. unfold calculate_macd. cbn [fst snd].
  set (macd_line := map2 fsub (calculate_ema data fast) (calculate_ema data slow)).
  assert (Hfin : Forall finite macd_line).
  { apply (map2_Forall fsub finite finite finite).
    - intros [a| | |] [b| | |]; simpl; tauto.
    - now apply calculate_ema_finite.
    - now apply calculate_ema_finite. }
  assert (Hlen : length macd_line = length data).
  { unfold macd_line. rewrite length_map2, !length_calculate_ema. lia. }
  destruct (finite_nth _ i Hfin) as [m Hm]; [lia|].
  assert (Hsig : Forall finite (ewm_mean signal macd_line)).
  { unfold ewm_mean. rewrite (finite_vals _ Hfin).
    apply ewm_from_finite; [apply (span_factor signal Hg) | lra]. }
  destruct (finite_nth _ i Hsig) as [s Hsv].
  { unfold ewm_mean. now rewrite length_ewm_from, Hlen. }
  exists m, s. split; [exact Hm|]. split; [exact Hsv|]. split.
  - rewrite nth_error_map2, Hm, Hsv. reflexivity.
  - intros ->. 
    assert (Hm0 : m == 0).
    { unfold macd_line in Hm. rewrite nth_error_map2 in Hm.
      destruct data as [|b t]; [simpl in Hi; lia|].
      destruct (calculate_ema_bounds (b :: t) fast 0 (Bar.Close b) (Bar.Close b)
                  Hf Hi) as (qf & Hqf & Hlf).
      { intros j b' Hj Hb'. assert (j = 0)%nat by lia. subst j.
        injection Hb' as <-. lra. }
      destruct (calculate_ema_bounds (b :: t) slow 0 (Bar.Close b) (Bar.Close b)
                  Hs Hi) as (qs & Hqs & Hls).
      { intros j b' Hj Hb'. assert (j = 0)%nat by lia. subst j.
        injection Hb' as <-. lra. }
      rewrite Hqf, Hqs in Hm. injection Hm as <-. lra. }
    split; [exact Hm0|].
    unfold ewm_mean in Hsv. rewrite (finite_vals _ Hfin) in Hsv.
    destruct (ewm_from_bounds _ m m (proj1 (span_factor signal Hg))
                (map val macd_line) 0 0 0 (Fin s))
      as (q' & [= ->] & Hq'); try lra; try exact Hsv.
    intros j x Hj Hx. assert (j = 0)%nat by lia. subst j.
    rewrite nth_error_map, Hm in Hx. injection Hx as <-. simpl. lra.
Qed.

(** X2.  The MACD line, its signal line and the histogram are defined at
    every index for spans of at least 1; the histogram is the line minus
    the signal, and at index 0 the line and the signal are zero. *)
Theorem macd_defined (data : list Bar.t) (fast slow signal i : nat) :
  (1 <= fast)%nat -> (1 <= slow)%nat -> (1 <= signal)%nat ->
  (i < length data)%nat ->
  let '(macd_line, signal_line, histogram) :=
    calculate_macd data fast slow signal in
  exists m s,
    nth_error macd_line i = Some (Fin m)
    /\ nth_error signal_line i = Some (Fin s)
    /\ nth_error histogram i = Some (Fin (m - s))
    /\ (i = 0%nat -> m == 0 /\ s == 0).
Proof.
  intros Hf Hs Hg Hi.
  pose proof (calculate_macd_cells data fast slow signal i Hf Hs Hg Hi) as H.
  unfold calculate_macd in *. exact H.
Qed.

(** ** The frame of the engine, row by row *)

Lemma nth_error_combine_seq {A : Type} (l : list A) (s i j : nat) (x : A) :
  nth_error (combine (seq s (length l)) l) i = Some (j, x) ->
  j = (s + i)%nat /\ nth_error l i = Some x.
Proof.
  revert s i. induction l as [|a t IH]; intros s i H; simpl in H.
  - destruct i; discriminate.
  - destruct i as [|i]; simpl in H.
    + injection H as <- <-. split; [lia | reflexivity].
    + apply IH in H as [-> H]. split; [lia | exact H].
Qed.

Lemma length_sorted_bars (bars : list Bar.t) :
  length (sorted_bars bars) = length bars.
Proof.
  unfold sorted_bars. symmetry. apply Permutation_length, sort_by_perm.
Qed.

Lemma length_add_indicators (bars : list Bar.t) :
  length (add_indicators bars) = length bars.
Proof.
  unfold add_indicators, calculate_bollinger_bands, calculate_macd,
    calculate_volume_indicators.
  cbv beta iota zeta.
  rewrite length_map, length_combine, length_seq, Nat.min_id.
  apply length_sorted_bars.
Qed.

(** The fields of the row at index [i], from the bar at index [i] of the
    sorted frame and the columns of the indicators. *)
Lemma add_indicators_row (bars : list Bar.t) (i : nat) (row : Row.t) :
  nth_error (add_indicators bars) i = Some row ->
  let data := sorted_bars bars in
  exists b,
    nth_error data i = Some b
    /\ Row.Date row = Bar.Date b
    /\ Row.Open row = Fin (Bar.Open b)
    /\ Row.High row = Fin (Bar.High b)
    /\ Row.Low row = Fin (Bar.Low b)
    /\ Row.Close row = Fin (Bar.Close b)
    /\ Row.Volume row = Bar.Volume b
    /\ Row.SMA_20 row = cell (calculate_sma data 20) i
    /\ Row.SMA_50 row = cell (calculate_sma data 50) i
    /\ Row.MACD row = cell (fst (fst (calculate_macd data 12 26 9))) i
    /\ Row.MACD_Signal row = cell (snd (fst (calculate_macd data 12 26 9))) i
    /\ Row.Volume_Ratio row
       = cell (snd (fst (calculate_volume_indicators data))) i
    /\ Row.Daily_Return row = cell (pct_change (closes data)) i
    /\ Row.BB_Upper row
       = cell (fst (fst (calculate_bollinger_bands data 20 2))) i
    /\ Row.BB_Lower row = cell (snd (calculate_bollinger_bands data 20 2)) i.
Proof.
  intros H data.
  unfold add_indicators, calculate_bollinger_bands, calculate_macd,
    calculate_volume_indicators in H.
  cbv beta iota zeta in H. fold (sorted_bars bars) in H. fold data in H.
  rewrite nth_error_map in H.
  destruct (nth_error (combine (seq 0 (length data)) data) i)
    as [[j b]|] eqn:Hc; [|discriminate].
  apply nth_error_combine_seq in Hc as [-> Hb].
  cbn [option_map Nat.add] in H. injection H as <-.
  exists b. split; [exact Hb|].
  unfold calculate_bollinger_bands, calculate_macd,
    calculate_volume_indicators.
  cbn. repeat split; reflexivity.
Qed.

Lemma iloc_last_nth {A : Type} (l : list A) (x : A) :
  iloc_last l = Some x -> nth_error l (length l - 1) = Some x.
Proof.
  destruct l; [discriminate|]. exact (fun H => H).
Qed.

Lemma cell_nth (col : list float64) (i : nat) (x : float64) :
  nth_error col i = Some x -> cell col i = x.
Proof.
  intros H. unfold cell. now apply nth_error_nth.
Qed.

Lemma engine_last_row (bars : list Bar.t) :
  bars <> [] ->
  exists latest,
    iloc_last (add_indicators bars) = Some latest
    /\ nth_error (add_indicators bars) (length bars - 1) = Some latest.
Proof.
  intros Hne.
  destruct (iloc_last_nonempty (add_indicators bars)) as [latest Hl].
  - intros H. apply (f_equal (@length _)) in H.
    rewrite length_add_indicators in H. destruct bars; [congruence|discriminate].
  - exists latest. split; [exact Hl|].
    apply iloc_last_nth in Hl. now rewrite length_add_indicators in Hl.
Qed.

(** X3.  For a series with at least one bar the summary is produced and
    its MACD signal is Bullish or Bearish, never N/A: the two averages
    it compares are defined from the first bar on.  With a single bar
    both are zero and the signal is Bearish. *)
Theorem summary_macd_signal (symbol : string) (bars : list Bar.t) :
  bars <> [] ->
  exists summary,
    generate_summary_stats (add_indicators bars) symbol = Ok summary
    /\ Stats.symbol summary = symbol
    /\ (Stats.macd_signal summary = "Bullish"%string
        \/ Stats.macd_signal summary = "Bearish"%string)
    /\ (length bars = 1%nat -> Stats.macd_signal summary = "Bearish"%string).
Proof.
  intros Hne. destruct (engine_last_row bars Hne) as (latest & Hl & Hn).
  unfold generate_summary_stats. rewrite Hl.
  eexists. split; [reflexivity|]. split; [reflexivity|].
  cbn [Stats.macd_signal].
  destruct (add_indicators_row bars _ latest Hn)
    as (b & Hb & _ & _ & _ & _ & _ & _ & _ & _ & Hm & Hs & _).
  assert (Hi : (length bars - 1 < length (sorted_bars bars))%nat).
  { rewrite length_sorted_bars. destruct bars; [congruence | simpl; lia]. }
  destruct (calculate_macd_cells (sorted_bars bars) 12 26 9 (length bars - 1))
    as (m & s & Hmv & Hsv & _ & H0); try lia.
  rewrite (cell_nth _ _ _ Hmv) in Hm. rewrite (cell_nth _ _ _ Hsv) in Hs.
  unfold _get_macd_signal. rewrite Hm, Hs. cbn [isna orb].
  split.
  - destruct (fgtb (Fin m) (Fin s)); auto.
  - intros Hone. destruct H0 as [Hm0 Hs0]; [lia|].
    unfold fgtb, fltb.
    destruct (Qcompare_spec s m) as [H|H|H]; try reflexivity. lra.
Qed.

(** ** Volume indicators *)

Lemma volumes_finite (data : list Bar.t) :
  Forall finite (map of_Z (volumes data)).
Proof.
  apply Forall_map, Forall_forall. intros v _. exact I.
Qed.

Lemma volume_ratio_nan (data : list Bar.t) (i : nat) :
  (i < 19)%nat -> (i < length data)%nat ->
  nth_error (snd (fst (calculate_volume_indicators data))) i = Some NaN.
Proof.
  intros Hi Hlen. unfold calculate_volume_indicators. cbn [fst snd].
  destruct (nth_error data i) as [b|] eqn:Hb;
    [|apply nth_error_None in Hb; lia].
  rewrite nth_error_map2.
  rewrite (nth_error_rolling_mean 20 i _ (volumes_finite data))
    by (unfold volumes; rewrite ?length_map; auto; lia).
  unfold volumes. rewrite !nth_error_map, Hb. cbn [option_map].
  destruct (Nat.ltb_spec (i + 1) 20); [reflexivity | lia].
Qed.

(** X4.  The 20-bar volume average and the volume ratio are NaN at the
    first 19 indices; from index 19 on the average is the mean of the
    last 20 volumes and the ratio is the volume of the bar over it. *)
Theorem volume_ratio_first_valid (data : list Bar.t) (i : nat) (b : Bar.t) :
  nth_error data i = Some b ->
  let '(vol_ma, vol_ratio, _) := calculate_volume_indicators data in
  let average :=
    Qsum (map (fun x => inject_Z (Bar.Volume x)) (slice (i - 19) 20 data))
    / inject_Z (Z.of_nat 20) in
  ((i < 19)%nat ->
   nth_error vol_ma i = Some NaN /\ nth_error vol_ratio i = Some NaN)
  /\ ((19 <= i)%nat ->
      nth_error vol_ma i = Some (Fin average)
      /\ nth_error vol_ratio i
         = Some (fdiv (of_Z (Bar.Volume b)) (Fin average))).
Proof.
  intros Hb. unfold calculate_volume_indicators. cbv zeta.
  assert (Hi : (i < length (map of_Z (volumes data)))%nat).
  { unfold volumes. rewrite !length_map. apply nth_error_Some. congruence. }
  assert (Hv : nth_error (map of_Z (volumes data)) i
               = Some (of_Z (Bar.Volume b))).
  { unfold volumes. now rewrite !nth_error_map, Hb. }
  rewrite nth_error_map2, Hv.
  rewrite (nth_error_rolling_mean 20 i _ (volumes_finite data)) by (auto; lia).
  split; intros H.
  - destruct (Nat.ltb_spec (i + 1) 20); [|lia]. split; reflexivity.
  - destruct (Nat.ltb_spec (i + 1) 20); [lia|].
    replace (i + 1 - 20)%nat with (i - 19)%nat by lia.
    unfold volumes. rewrite !slice_map, !map_map. cbn [val of_Z].
    split; reflexivity.
Qed.

Lemma filter_none {A : Type} (p : A -> bool) (l : list A) :
  (forall x, In x l -> p x = false) -> filter p l = [].
Proof.
  induction l as [|x t IH]; simpl; intros H; [reflexivity|].
  rewrite (H x) by now left. apply IH. intros y Hy. apply H. now right.
Qed.

Lemma engine_ratio_short (bars : list Bar.t) (latest : Row.t) :
  (length bars < 20)%nat ->
  iloc_last (add_indicators bars) = Some latest ->
  Row.Volume_Ratio latest = NaN.
Proof.
  intros Hlen Hl. apply iloc_last_nth in Hl.
  rewrite length_add_indicators in Hl.
  destruct (add_indicators_row bars _ latest Hl)
    as (b & Hb & _ & _ & _ & _ & _ & _ & _ & _ & _ & _ & Hr & _).
  rewrite Hr. apply cell_nth, volume_ratio_nan; [lia|].
  apply nth_error_Some. congruence.
Qed.

Lemma short_not_high_volume (config : Config.t) (symbol : string)
  (bars : list Bar.t) :
  (length bars < 20)%nat ->
  is_high_volume config (symbol, add_indicators bars) = false.
Proof.
  intros Hlen. unfold is_high_volume, info_of.
  cbn [fst snd Info.volume_ratio].
  destruct (iloc_last (add_indicators bars)) as [latest|] eqn:Hl.
  - rewrite (engine_ratio_short bars latest Hlen Hl).
    cbn [isna negb]. now rewrite andb_false_r.
  - cbn [isna negb]. now rewrite andb_false_r.
Qed.

(** X5.  A symbol with fewer than 20 bars is never a high-volume symbol,
    whatever the other symbols of the dictionary and the configured
    multiplier: the volume ratio of its last row is undefined.  With
    only such symbols the high-volume list is empty. *)
Theorem short_series_never_high_volume (config : Config.t) (today : string) :
  (forall data_dict symbol bars,
     NoDup (map fst data_dict) ->
     In (symbol, add_indicators bars) data_dict ->
     (length bars < 20)%nat ->
     ~ In symbol
         (symbols (Market.high_volume (collect config today data_dict)))
     /\ ~ In symbol
            (symbols
               (Market.high_volume
                  (generate_market_summary config today data_dict))))
  /\ (forall series,
        Forall (fun item => (length (snd item) < 20)%nat) series ->
        Market.high_volume (collect config today (processed_dict series)) = []
        /\ Market.high_volume
             (generate_market_summary config today (processed_dict series))
           = []).
Proof.
  split.
  - intros data_dict symbol bars Hnd Hin Hlen.
    assert (H : ~ In symbol
                    (symbols
                       (Market.high_volume (collect config today data_dict)))).
    { rewrite (proj2 (proj2 (collect_lists config today data_dict))).
      rewrite (In_symbols_filter _ _ _ _ Hnd Hin).
      now rewrite (short_not_high_volume config symbol bars Hlen). }
    split; [exact H|]. intros H'. apply H.
    unfold generate_market_summary in H'. cbn [Market.high_volume] in H'.
    now apply In_symbols_ranked in H'.
  - intros series Hshort.
    assert (H : Market.high_volume
                  (collect config today (processed_dict series)) = []).
    { rewrite (proj2 (proj2 (collect_lists config today
                                (processed_dict series)))).
      rewrite filter_none; [reflexivity|].
      intros [k v] Hin. unfold processed_dict in Hin.
      apply in_map_iff in Hin as ([k0 bars] & [= <- <-] & Hin0).
      apply (proj1 (Forall_forall _ _) Hshort) in Hin0. cbn [snd] in Hin0.
      now apply short_not_high_volume. }
    split; [exact H|].
    unfold generate_market_summary. cbn [Market.high_volume]. now rewrite H.
Qed.

(** ** Daily return and the raw columns *)

Lemma nth_error_pct_change (data : list Bar.t) (i : nat) (p b : Bar.t) :
  nth_error data i = Some p -> nth_error data (S i) = Some b ->
  nth_error (pct_change (closes data)) (S i)
  = Some (fsub (fdiv (Fin (Bar.Close b)) (Fin (Bar.Close p))) (Fin 1)).
Proof.
  intros Hp Hb. unfold pct_change. rewrite nth_error_map2.
  rewrite nth_error_shift1_S.
  - unfold closes. now rewrite !nth_error_map, Hb, Hp.
  - unfold closes. rewrite length_map. apply nth_error_Some. congruence.
Qed.

(** X6.  The daily return of the first row of the frame is NaN; at every
    later row it is the close over the previous close, minus one, when
    that previous close is positive. *)
Theorem daily_return_formula (bars : list Bar.t) :
  (forall row,
     nth_error (add_indicators bars) 0 = Some row ->
     Row.Daily_Return row = NaN)
  /\ (forall i p b row,
        nth_error (sorted_bars bars) i = Some p ->
        nth_error (sorted_bars bars) (S i) = Some b ->
        0 < Bar.Close p ->
        nth_error (add_indicators bars) (S i) = Some row ->
        Row.Daily_Return row = Fin (Bar.Close b / Bar.Close p - 1)).
Proof.
  split.
  - intros row Hrow.
    destruct (add_indicators_row bars 0 row Hrow)
      as (b & Hb & _ & _ & _ & _ & _ & _ & _ & _ & _ & _ & _ & Hr & _).
    rewrite Hr. apply cell_nth.
    destruct (sorted_bars bars) as [|b0 t]; [discriminate|]. reflexivity.
  - intros i p b row Hp Hb Hpos Hrow.
    destruct (add_indicators_row bars (S i) row Hrow)
      as (b' & Hb' & _ & _ & _ & _ & _ & _ & _ & _ & _ & _ & _ & Hr & _).
    rewrite Hr. apply cell_nth.
    rewrite (nth_error_pct_change _ i p b Hp Hb), fdiv_pos by exact Hpos.
    reflexivity.
Qed.

Lemma Forall2_map_combine {A B C : Type} (R : C -> B -> Prop)
  (f : A * B -> C) (l : list B) :
  (forall x, R (f x) (snd x)) ->
  forall s : list A, length s = length l -> Forall2 R (map f (combine s l)) l.
Proof.
  intros Hf. induction l as [|b t IH]; intros [|a s] Hlen; simpl in *;
    try discriminate; constructor.
  - exact (Hf (a, b)).
  - apply IH. lia.
Qed.

Lemma sorted_bars_ascending (bars : list Bar.t) :
  StronglySorted (fun a b => (Bar.Date a <= Bar.Date b)%nat)
    (sorted_bars bars).
Proof.
  unfold sorted_bars.
  apply (sort_by_sorted _ _ (fun _ => True)).
  - intros a b _ _ H. apply Nat.ltb_lt in H. lia.
  - intros a b _ _ H. apply Nat.ltb_ge in H. lia.
  - intros a b c. lia.
  - apply Forall_forall. auto.
Qed.

(** X7.  The frame that [process_symbol_data] builds has one row per
    bar of the file; its rows are the bars in ascending order of date,
    each with its raw columns unchanged and with the price change
    [Close - Open] and the spread [High - Low] of that bar. *)
Theorem engine_frame_rows (bars : list Bar.t) :
  length (add_indicators bars) = length bars
  /\ Permutation bars (sorted_bars bars)
  /\ StronglySorted (fun a b => (Bar.Date a <= Bar.Date b)%nat)
       (sorted_bars bars)
  /\ Forall2 same_bar (add_indicators bars) (sorted_bars bars).
Proof.
  split; [apply length_add_indicators|].
  split; [apply sort_by_perm|].
  split; [apply sorted_bars_ascending|].
  unfold add_indicators, calculate_bollinger_bands, calculate_macd,
    calculate_volume_indicators.
  cbv beta iota zeta. fold (sorted_bars bars).
  apply Forall2_map_combine; [|apply length_seq].
  intros [i b]. unfold same_bar. cbn. repeat split; reflexivity.
Qed.

(** ** Alerts and skipped symbols *)

Lemma summary_step_alerts (config : Config.t) (s : Market.t)
  (item : string * list Row.t) :
  Market.alerts (summary_step config s item)
  = Market.alerts s ++ (if is_alert config item then [alert_of item] else []).
Proof.
  destruct item as [symbol data].
  unfold summary_step, is_alert, alert_of, kept, last_return, last_close.
  cbn [fst snd].
  destruct (iloc_last data) as [latest|]; cbn [isna orb negb andb];
    [|now rewrite app_nil_r].
  destruct (isna (Row.Daily_Return latest)); cbn [orb negb andb];
    [now rewrite app_nil_r|].
  destruct (isna (Row.Close latest)); cbn [orb negb andb];
    [now rewrite app_nil_r|].
  cbn [Info.volume_ratio].
  destruct (fgtb (Row.Daily_Return latest) (Fin 0.02));
    destruct (fltb (Row.Daily_Return latest) (fneg (Fin 0.02)));
    destruct (isna (Row.Volume_Ratio latest));
    destruct (fgtb (Row.Volume_Ratio latest) (volume_multiplier config));
    destruct (fgtb (fabs (Row.Daily_Return latest))
                (fdiv (price_change_threshold config) (Fin 100)));
    cbn; rewrite ?app_nil_r; auto.
Qed.

Lemma fold_summary_alerts (config : Config.t)
  (data_dict : list (string * list Row.t)) (s : Market.t) :
  Market.alerts (fold_left (summary_step config) data_dict s)
  = Market.alerts s ++ map alert_of (filter (is_alert config) data_dict).
Proof.
  revert s. induction data_dict as [|item rest IH]; intros s; simpl.
  - now rewrite app_nil_r.
  - rewrite IH, summary_step_alerts, <- app_assoc.
    destruct (is_alert config item); reflexivity.
Qed.

Lemma summary_alerts (config : Config.t) (today : string)
  (data_dict : list (string * list Row.t)) :
  Market.alerts (generate_market_summary config today data_dict)
  = map alert_of (filter (is_alert config) data_dict).
Proof.
  unfold generate_market_summary, collect. cbn [Market.alerts].
  now rewrite fold_summary_alerts.
Qed.

Lemma summary_step_total (config : Config.t) (s : Market.t)
  (item : string * list Row.t) :
  Market.total_symbols (summary_step config s item) = Market.total_symbols s
  /\ Market.date (summary_step config s item) = Market.date s.
Proof.
  destruct item as [symbol data]. unfold summary_step.
  destruct (iloc_last data) as [latest|]; [|auto].
  destruct (isna (Row.Daily_Return latest) || isna (Row.Close latest)); [auto|].
  repeat match goal with
         | |- context [if ?c then _ else _] => destruct c
         end; auto.
Qed.

Lemma fold_summary_total (config : Config.t)
  (data_dict : list (string * list Row.t)) (s : Market.t) :
  Market.total_symbols (fold_left (summary_step config) data_dict s)
  = Market.total_symbols s
  /\ Market.date (fold_left (summary_step config) data_dict s)
     = Market.date s.
Proof.
  revert s. induction data_dict as [|item rest IH]; intros s;
    cbn [fold_left]; [auto|].
  destruct (IH (summary_step config s item)) as [E1 E2].
  destruct (summary_step_total config s item) as [E3 E4].
  rewrite E1, E2, E3, E4. auto.
Qed.


Lemma alert_is_mover (config : Config.t) (t : Q)
  (item : string * list Row.t) :
  price_change_threshold config = Fin t -> 2 <= t ->
  is_alert config item = true ->
  is_gainer item = true \/ is_loser item = true.
Proof.
  intros Ht Hle. unfold is_alert, is_gainer, is_loser. rewrite Ht.
  destruct (kept item) eqn:Hk; cbn [andb]; [|discriminate].
  rewrite fdiv_pos by lra. unfold fgtb.
  assert (Hthr : 0.02 <= t / 100) by (apply Qle_shift_div_l; lra).
  assert (Hk' : isna (last_return (snd item)) = false).
  { unfold kept in Hk. apply negb_true_iff, orb_false_iff in Hk. tauto. }
  destruct (last_return (snd item)) as [q| | |]; try discriminate.
  - cbn [fabs]. intros H. apply fltb_flt in H. cbn [flt] in H.
    destruct (Qlt_le_dec q 0) as [Hq|Hq].
    + rewrite Qabs_neg in H by lra. right.
      assert (H1 : fltb (Fin 0.02) (Fin q) = false).
      { destruct (fltb (Fin 0.02) (Fin q)) eqn:E; [|reflexivity].
        apply fltb_flt in E. cbn [flt] in E. lra. }
      rewrite H1. cbn [negb andb]. apply fltb_flt. cbn [fneg flt]. lra.
    + rewrite Qabs_pos in H by exact Hq. left.
      apply fltb_flt. cbn [flt]. lra.
  - intros _. now left.
  - intros _. now right.
Qed.

(** X9.  When the configured price threshold is at least 2 percent, as
    the default of 5 is, every symbol that raises an alert is among the
    gainers or the losers that the loop collects. *)
Theorem alerted_symbols_are_movers (config : Config.t) (today : string)
  (data_dict : list (string * list Row.t)) (t : Q) (symbol : string) :
  price_change_threshold config = Fin t -> 2 <= t ->
  In symbol
    (map Alert.symbol
       (Market.alerts (generate_market_summary config today data_dict))) ->
  In symbol (symbols (Market.gainers (collect config today data_dict)))
  \/ In symbol (symbols (Market.losers (collect config today data_dict))).
Proof.
  intros Ht Hle Hin. rewrite summary_alerts, map_map in Hin.
  apply in_map_iff in Hin as (item & Hs & Hf).
  apply filter_In in Hf as [Hitem Ha]. cbn [alert_of Alert.symbol] in Hs.
  destruct (collect_lists config today data_dict) as (Hg & Hl & _).
  rewrite Hg, Hl. unfold symbols. rewrite !map_map.
  destruct (alert_is_mover config t item Ht Hle Ha) as [H|H].
  - left. apply in_map_iff. exists item. split; [exact Hs|].
    apply filter_In. now split.
  - right. apply in_map_iff. exists item. split; [exact Hs|].
    apply filter_In. now split.
Qed.

Lemma kept_false (item : string * list Row.t) :
  snd item = [] \/ isna (last_return (snd item)) = true
  \/ isna (last_close (snd item)) = true ->
  kept item = false.
Proof.
  unfold kept. intros [H|[H|H]].
  - unfold last_return. now rewrite H.
  - now rewrite H.
  - rewrite H. now rewrite orb_true_r.
Qed.

(** X10.  A symbol whose frame is empty, or whose last bar lacks the
    daily return or the close, is passed over: the summary is the one of
    the dictionary without it, except that [total_symbols] still counts
    it. *)
Theorem skipped_symbol (config : Config.t) (today : string)
  (before after : list (string * list Row.t)) (item : string * list Row.t) :
  snd item = [] \/ isna (last_return (snd item)) = true
  \/ isna (last_close (snd item)) = true ->
  let s := generate_market_summary config today (before ++ item :: after) in
  let s' := generate_market_summary config today (before ++ after) in
  Market.gainers s = Market.gainers s'
  /\ Market.losers s = Market.losers s'
  /\ Market.high_volume s = Market.high_volume s'
  /\ Market.alerts s = Market.alerts s'
  /\ Market.total_symbols s = S (Market.total_symbols s').
Proof.
  intros Hskip s s'. apply kept_false in Hskip.
  assert (Hf : forall p : string * list Row.t -> bool,
            p item = false ->
            filter p (before ++ item :: after) = filter p (before ++ after)).
  { intros p Hp. rewrite !filter_app. cbn [filter]. now rewrite Hp. }
  subst s s'. unfold generate_market_summary.
  cbn [Market.gainers Market.losers Market.high_volume Market.alerts
       Market.total_symbols].
  destruct (collect_lists config today (before ++ item :: after))
    as (Hg & Hl & Hh).
  destruct (collect_lists config today (before ++ after)) as (Hg' & Hl' & Hh').
  rewrite Hg, Hl, Hh, Hg', Hl', Hh'.
  unfold collect. rewrite !fold_summary_alerts.
  rewrite !(proj1 (fold_summary_total _ _ _)).
  cbn [Market.alerts Market.total_symbols app].
  rewrite !(Hf is_gainer), !(Hf is_loser), !(Hf (is_high_volume config)),
    !(Hf (is_alert config));
    try (unfold is_gainer, is_loser, is_high_volume, is_alert;
         now rewrite Hskip).
  repeat split; try reflexivity.
  rewrite !length_app. simpl. lia.
Qed.

(** ** Qualitative positions *)

Lemma fltb_lt (a b : Q) : a < b -> fltb (Fin a) (Fin b) = true.
Proof. intros H. now apply fltb_flt. Qed.




(** ** Short histories *)

Lemma rolling_short (w i : nat) (agg : list float64 -> float64)
  (xs : list float64) :
  (i + 1 < w)%nat -> (i < length xs)%nat ->
  nth_error (rolling w agg xs) i = Some NaN.
Proof.
  intros Hi Hlen. rewrite nth_error_rolling by exact Hlen. cbv zeta.
  assert (H : (length (observed (map prep (trailing w i xs))) < w)%nat).
  { unfold observed. eapply Nat.le_lt_trans; [apply filter_length_le|].
    rewrite length_map. pose proof (length_trailing w i xs). lia. }
  apply Nat.ltb_lt in H. now rewrite H.
Qed.

Lemma length_closes (data : list Bar.t) : length (closes data) = length data.
Proof. unfold closes. apply length_map. Qed.

(** X12.  With too little history the analysis says so: for a series of
    fewer than 50 bars the trend is Insufficient data; with fewer than
    20 bars the Bollinger position is N/A as well; with fewer than 10
    bars support and resistance are both NaN. *)
Theorem short_history_analysis (symbol : string) (bars : list Bar.t) :
  bars <> [] -> (length bars < 50)%nat ->
  exists a,
    generate_symbol_analysis symbol (add_indicators bars) = Some a
    /\ Analysis.trend_sma a = "Insufficient data"%string
    /\ ((length bars < 20)%nat -> Analysis.bb_position a = "N/A"%string)
    /\ ((length bars < 10)%nat ->
        Analysis.support_resistance a
        = {| Levels.support := NaN; Levels.resistance := NaN |}).
Proof.
  intros Hne Hlen. destruct (engine_last_row bars Hne) as (latest & Hl & Hn).
  unfold generate_symbol_analysis. rewrite Hl.
  eexists. split; [reflexivity|].
  cbn [Analysis.trend_sma Analysis.bb_position Analysis.support_resistance].
  destruct (add_indicators_row bars _ latest Hn)
    as (b & Hb & _ & _ & _ & _ & _ & _ & _ & H50 & _ & _ & _ & _ & Hup & _).
  assert (Hi : (length bars - 1 < length (closes (sorted_bars bars)))%nat).
  { rewrite length_closes. apply nth_error_Some. congruence. }
  split; [|split].
  - unfold _analyze_sma_trend. rewrite H50.
    unfold calculate_sma. rewrite (cell_nth _ _ NaN).
    + cbn [isna]. now rewrite orb_true_r.
    + apply rolling_short; [lia | exact Hi].
  - intros H20. unfold _get_bb_position. rewrite Hup.
    unfold calculate_bollinger_bands. cbn [fst]. rewrite (cell_nth _ _ NaN).
    + reflexivity.
    + rewrite nth_error_map2, nth_error_map. unfold calculate_sma.
      rewrite !rolling_short by (auto; lia). reflexivity.
  - intros H10. unfold _find_support_resistance.
    rewrite length_tail, length_add_indicators.
    destruct (Nat.ltb_spec (Nat.min 20 (length bars)) 10); [reflexivity | lia].
Qed.

(** ** Volume change *)

Lemma iloc_last_app2 {A : Type} (front : list A) (p l : A) :
  iloc_last (front ++ [p; l]) = Some l
  /\ iloc_last2 (front ++ [p; l]) = Some p
  /\ (1 <? length (front ++ [p; l]))%nat = true.
Proof.
  assert (Hlen : length (front ++ [p; l]) = (length front + 2)%nat)
    by (rewrite length_app; reflexivity).
  split; [|split].
  - assert (E : iloc_last (front ++ [p; l])
                = nth_error (front ++ [p; l]) (length (front ++ [p; l]) - 1)).
    { destruct (front ++ [p; l]) eqn:E; [|reflexivity].
      destruct front; discriminate. }
    rewrite E, Hlen, nth_error_app2 by lia.
    replace (length front + 2 - 1 - length front)%nat with 1%nat by lia.
    reflexivity.
  - unfold iloc_last2. rewrite Hlen, nth_error_app2 by lia.
    replace (length front + 2 - 2 - length front)%nat with 0%nat by lia.
    reflexivity.
  - apply Nat.ltb_lt. lia.
Qed.

(** X13.  The reported volume change is always a finite number: it is 0
    when the volume of the previous bar is not positive, and otherwise
    the change of volume over the previous volume, in percent (the
    difference being taken in an int64 cell). *)
Theorem volume_change_guarded (symbol : string) (front : list Row.t)
  (prev latest : Row.t) :
  exists a,
    generate_symbol_analysis symbol (front ++ [prev; latest]) = Some a
    /\ finite (Analysis.volume_change a)
    /\ ((Row.Volume prev <= 0)%Z -> Analysis.volume_change a = Fin 0)
    /\ ((0 < Row.Volume prev)%Z ->
        int64_range (Row.Volume latest - Row.Volume prev) ->
        Analysis.volume_change a
        = Fin (inject_Z (Row.Volume latest - Row.Volume prev)
               / inject_Z (Row.Volume prev) * 100)).
Proof.
  destruct (iloc_last_app2 front prev latest) as (Hl & Hp & Hlen).
  unfold generate_symbol_analysis. rewrite Hl.
  eexists. split; [reflexivity|]. cbn [Analysis.volume_change].
  unfold prev_day_of. rewrite Hlen, Hp.
  destruct (Z.ltb_spec 0 (Row.Volume prev)) as [Hpos|Hneg].
  - assert (Hq : 0 < inject_Z (Row.Volume prev))
      by (change 0 with (inject_Z 0); now rewrite <- Zlt_Qlt).
    unfold of_Z. rewrite fdiv_pos by exact Hq. cbn [fmul].
    split; [exact I|]. split; [lia|].
    intros _ Hr. now rewrite wrap64_id.
  - split; [exact I|]. split; [reflexivity | lia].
Qed.

(** ** When RSI is defined *)

Lemma rsi_loss_pos (data : list Bar.t) (k : nat) :
  (k < length data)%nat -> delta_at data k < 0 ->
  exists l,
    nth_error
      (map fneg (where_ (fun d => fltb d (Fin 0)) (Fin 0) (diff (closes data))))
      k
    = Some (Fin l)
    /\ 0 < l.
Proof.
  intros Hk Hd. unfold where_.
  rewrite !nth_error_map, nth_error_diff by exact Hk.
  cbn [option_map]. destruct k as [|j].
  - unfold delta_at in Hd. simpl in Hd. lra.
  - rewrite (fltb_lt _ _ Hd). exists (- delta_at data (S j)).
    split; [reflexivity | lra].
Qed.

(** RSI at an index with a full window whose closes fell somewhere is a
    number. *)
Lemma rsi_defined_after_loss (data : list Bar.t) (w i : nat) :
  (1 <= w)%nat -> (w <= i + 1)%nat -> (i < length data)%nat ->
  (exists k, (i + 1 - w <= k <= i)%nat /\ delta_at data k < 0) ->
  exists q, nth_error (calculate_rsi data w) i = Some (Fin q).
Proof.
  intros Hw Hwi Hi (k & Hk & Hd).
  set (G := where_ (fun d => fgtb d (Fin 0)) (Fin 0) (diff (closes data))).
  set (L := map fneg
              (where_ (fun d => fltb d (Fin 0)) (Fin 0) (diff (closes data)))).
  assert (HlenG : length G = length data).
  { unfold G, where_. now rewrite length_map, length_diff, length_closes. }
  assert (HlenL : length L = length data).
  { unfold L, where_. now rewrite !length_map, length_diff, length_closes. }
  pose proof (rsi_gains_nonneg data) as HG. fold G in HG.
  pose proof (rsi_losses_nonneg data) as HL. fold L in HL.
  assert (Hpos : 0 < inject_Z (Z.of_nat w)) by now apply Qnat_pos.
  assert (Hg : 0 <= Qsum (map val (slice (i + 1 - w) w G)))
    by (apply Qsum_nonneg, vals_nonneg, Forall_slice, HG).
  assert (Hl : 0 < Qsum (map val (slice (i + 1 - w) w L))).
  { apply Qsum_pos; [apply vals_nonneg, Forall_slice, HL|].
    destruct (rsi_loss_pos data k) as (l & Hlk & Hlp); [lia | exact Hd|].
    fold L in Hlk. apply Exists_exists. exists l. split; [|exact Hlp].
    apply in_map_iff. exists (Fin l). split; [reflexivity|].
    apply In_slice. exists k. split; [lia | exact Hlk]. }
  unfold calculate_rsi. fold G. fold L.
  rewrite nth_error_map, nth_error_map2.
  rewrite !nth_error_rolling_mean
    by (auto using nonneg_finite; try lia; congruence).
  destruct (Nat.ltb_spec (i + 1) w); [lia|]. cbn [option_map].
  set (g := Qsum (map val (slice (i + 1 - w) w G)) / inject_Z (Z.of_nat w)).
  set (l := Qsum (map val (slice (i + 1 - w) w L)) / inject_Z (Z.of_nat w)).
  assert (Hg' : 0 <= g) by (apply Qle_shift_div_l; lra).
  assert (Hl' : 0 < l) by (apply Qlt_shift_div_l; lra).
  rewrite (fdiv_pos g l Hl').
  assert (0 <= g / l) by (apply Qle_shift_div_l; lra).
  cbn [fadd]. rewrite fdiv_pos by lra. eexists. reflexivity.
Qed.

(** X14.  RSI over a window of [w >= 1] bars is NaN at the first [w - 1]
    indices (one index earlier than the spec's table: the undefined
    change of index 0 counts as zero).  From index [w - 1] on it is NaN
    exactly when no close of the window differs from its predecessor,
    and a number otherwise. *)
Theorem rsi_defined_iff (data : list Bar.t) (w i : nat) :
  (1 <= w)%nat -> (i < length data)%nat ->
  ((i + 1 < w)%nat -> nth_error (calculate_rsi data w) i = Some NaN)
  /\ ((w <= i + 1)%nat ->
      (nth_error (calculate_rsi data w) i = Some NaN
       <-> forall k, (i + 1 - w <= k <= i)%nat -> delta_at data k == 0)).
Proof.
  intros Hw Hi. split.
  - intros Hshort. unfold calculate_rsi.
    rewrite nth_error_map, nth_error_map2.
    rewrite !rolling_short; try exact Hshort; try reflexivity;
      unfold where_; now rewrite ?length_map, length_diff, length_closes.
  - intros Hfull.
    destruct (rsi_window data w i Hw Hfull Hi)
      as (g & l & Hrsi & Hg0 & Hl0 & Hl & Hg & Hgp).
    split.
    + intros Hnan k Hk.
      destruct (Qlt_le_dec (delta_at data k) 0) as [Hneg|Hge].
      * destruct (rsi_defined_after_loss data w i Hw Hfull Hi) as [q Hq];
          [now exists k | congruence].
      * destruct (Qlt_le_dec 0 (delta_at data k)) as [Hp|Hle]; [|lra].
        exfalso. assert (Hgpos : 0 < g) by (apply Hgp; now exists k).
        destruct (Qlt_le_dec 0 l) as [Hlp|Hlz].
        -- rewrite (fdiv_pos g l Hlp) in Hrsi.
           assert (0 <= g / l) by (apply Qle_shift_div_l; lra).
           cbn [fadd] in Hrsi. rewrite fdiv_pos in Hrsi by lra.
           cbn [fsub fneg fadd] in Hrsi. congruence.
        -- rewrite (fdiv_pos_zero g l Hgpos) in Hrsi by lra.
           cbn in Hrsi. congruence.
    + intros Hflat. rewrite Hrsi, (fdiv_zero_zero g l); [reflexivity| |].
      * apply Hg. intros k Hk. rewrite (Hflat k Hk). lra.
      * apply Hl. intros k Hk. rewrite (Hflat k Hk). lra.
Qed.

(** ** Bands and volatility before and after their first valid index *)


Lemma observed_prep_finite (xs : list float64) :
  Forall finite (observed (map prep xs)).
Proof.
  apply Forall_forall. intros x Hx. apply filter_In in Hx as [Hin Hna].
  apply in_map_iff in Hin as (y & <- & _).
  destruct y; simpl in *; auto; discriminate.
Qed.

Lemma rolling_std_nonneg (w : nat) (xs : list float64) :
  Forall (fun s => s = NaN \/ nonneg s) (rolling w std xs).
Proof.
  unfold rolling. apply Forall_map, Forall_forall. intros i _. cbv zeta.
  destruct (_ <? _)%nat; [now left|].
  set (obs := observed (map prep (trailing w i xs))).
  unfold std. destruct (Nat.le_gt_cases (length obs) 1) as [H1|H2].
  - left. unfold var.
    destruct (Nat.leb_spec (length obs) 1); [reflexivity | lia].
  - destruct (var_finite obs (observed_prep_finite _) H2) as (v & -> & Hv).
    destruct (fsqrt_nonneg v Hv) as (r & -> & Hr). right. exact Hr.
Qed.

Lemma observed_after_nan (xs : list float64) (i : nat) :
  nth_error xs 0 = Some NaN ->
  (length (observed (map prep (firstn (S i) xs))) <= i)%nat.
Proof.
  destruct xs as [|x t]; [discriminate|]. intros [= ->].
  cbn [firstn map prep observed filter isna negb].
  eapply Nat.le_trans; [apply filter_length_le|].
  rewrite length_map, length_firstn. lia.
Qed.

(** X16.  The annualised volatility over a window of [window] bars is
    NaN at the first [window] indices, one more than for the moving
    average since the first daily return is undefined; wherever it is
    defined it is a non-negative number. *)
Theorem volatility_first_valid (data : list Bar.t) (window i : nat) :
  (i < length data)%nat ->
  ((i < window)%nat ->
   nth_error (calculate_volatility data window) i = Some NaN)
  /\ (forall x,
        nth_error (calculate_volatility data window) i = Some x ->
        isna x = false -> nonneg x).
Proof.
  intros Hi. unfold calculate_volatility.
  assert (Hlen : (i < length (pct_change (closes data)))%nat).
  { unfold pct_change. rewrite length_map2, length_shift1, length_closes. lia. }
  split.
  - intros Hw. rewrite nth_error_map.
    destruct (Nat.eq_dec (i + 1) window) as [Heq|Hne].
    + rewrite nth_error_rolling by exact Hlen. cbv zeta.
      unfold trailing. replace (i + 1 - window)%nat with 0%nat by lia.
      cbn [skipn]. replace (i + 1)%nat with (S i) by lia.
      assert (H0 : nth_error (pct_change (closes data)) 0 = Some NaN).
      { destruct data as [|b t]; [simpl in Hi; lia|]. reflexivity. }
      pose proof (observed_after_nan _ i H0) as Hobs.
      destruct (Nat.ltb_spec
                  (length (observed
                             (map prep (firstn (S i) (pct_change (closes data))))))
                  window); [reflexivity | lia].
    + rewrite rolling_short by (exact Hlen || lia). reflexivity.
  - intros x Hx Hdef. rewrite nth_error_map in Hx.
    destruct (nth_error (rolling window std (pct_change (closes data))) i)
      as [s|] eqn:Hs; [|discriminate].
    cbn [option_map] in Hx. injection Hx as <-.
    apply nth_error_In in Hs.
    apply (proj1 (Forall_forall _ _) (rolling_std_nonneg _ _)) in Hs
      as [->|Hs]; [discriminate|].
    destruct s as [v| | |]; cbn [nonneg] in Hs; try contradiction.
    cbn [fmul nonneg]. apply Qmult_le_0_compat; [exact Hs|].
    apply sqrt64_nonneg. lra.
Qed.

(** ** The batch run, when it succeeds *)

Lemma generate_summary_stats_ok (bars : list Bar.t) (symbol : string) :
  bars <> [] ->
  exists summary,
    generate_summary_stats (add_indicators bars) symbol = Ok summary
    /\ Stats.symbol summary = symbol.
Proof.
  intros Hne. destruct (engine_last_row bars Hne) as (latest & Hl & _).
  unfold generate_summary_stats. rewrite Hl. eexists. split; reflexivity.
Qed.

Lemma process_files_ok (data_files : list (string * csv_file)) :
  no_empty_table data_files ->
  forall summaries,
  exists out,
    process_files data_files summaries = Ok (summaries ++ out)
    /\ map Stats.symbol out
       = map (fun file => symbol_of (fst file)) (filter readable data_files).
Proof.
  induction data_files as [|[f c] rest IH]; intros Hne summaries.
  - exists []. split; [now rewrite app_nil_r | reflexivity].
  - assert (Hrest : no_empty_table rest).
    { intros g Hg. apply (Hne g). now right. }
    cbn [process_files filter]. unfold readable at 1. cbn [snd fst].
    destruct c as [|bars]; cbn [process_symbol_data].
    + exact (IH Hrest summaries).
    + assert (Hb : bars <> []).
      { intros ->. apply (Hne f). now left. }
      destruct (generate_summary_stats_ok bars (symbol_of f) Hb)
        as (s & -> & Hs).
      destruct (IH Hrest (summaries ++ [s])) as (out & -> & Hout).
      exists (s :: out). split.
      * now rewrite <- app_assoc.
      * cbn [map fst]. now rewrite Hs, Hout.
Qed.

(** X17.  [process_all_data] raises, and with [IndexError], exactly when
    one of the data files is a table without rows.  Otherwise it returns
    one summary per file that could be loaded, in the order of the
    files, each under the symbol read off the file name; files that
    cannot be loaded are passed over. *)
Theorem batch_summaries (data_files : list (string * csv_file)) :
  ((exists filename, In (filename, Table []) data_files)
   <-> process_all_data data_files = Raise IndexError)
  /\ (no_empty_table data_files ->
      exists summaries,
        process_all_data data_files = Ok summaries
        /\ map Stats.symbol summaries
           = map (fun file => symbol_of (fst file))
               (filter readable data_files)).
Proof.
  assert (Hok : no_empty_table data_files ->
                exists summaries,
                  process_all_data data_files = Ok summaries
                  /\ map Stats.symbol summaries
                     = map (fun file => symbol_of (fst file))
                         (filter readable data_files)).
  { intros Hne. unfold process_all_data.
    destruct data_files as [|file rest] eqn:E.
    - exists []. split; reflexivity.
    - rewrite <- E in *. destruct (process_files_ok data_files Hne [])
        as (out & Hout & Hsym).
      exists out. split; [exact Hout | exact Hsym]. }
  split; [|exact Hok]. split.
  - intros [f Hf]. now apply (process_all_data_empty_table _ f).
  - intros Hraise.
    assert (Hdec : forall l : list (string * csv_file),
              no_empty_table l \/ exists f, In (f, Table []) l).
    { induction l as [|[g c] t IHt].
      - left. intros f [].
      - destruct IHt as [Hn|[f Hf]]; [|right; exists f; now right].
        destruct c as [|[|b bars]].
        + left. intros f [H|H]; [discriminate | exact (Hn f H)].
        + right. exists g. now left.
        + left. intros f [H|H]; [discriminate | exact (Hn f H)]. }
    destruct (Hdec data_files) as [Hn|H]; [|exact H].
    destruct (Hok Hn) as (s & Hs & _). congruence.
Qed.

(** ** File names *)

Lemma has_underscore_app (s t : string) :
  has_underscore (s ++ String "_" t) = true.
Proof.
  induction s as [|c s IH]; [reflexivity|].
  cbn [append has_underscore]. destruct (Ascii.eqb c "_"); auto.
Qed.

Lemma before_underscore_app (s t : string) :
  before_underscore (s ++ String "_" t) = before_underscore s.
Proof.
  induction s as [|c s IH]; [reflexivity|].
  cbn [append before_underscore]. destruct (Ascii.eqb c "_"); [reflexivity|].
  now rewrite IH.
Qed.

Lemma before_underscore_id (s : string) :
  has_underscore s = false -> before_underscore s = s.
Proof.
  induction s as [|c s IH]; [reflexivity|].
  cbn [has_underscore before_underscore].
  destruct (Ascii.eqb c "_"); [discriminate|]. intros H. now rewrite IH.
Qed.

(** X18.  The symbol that the processor reads off a file written by the
    downloader, and the one that the report generator reads off a file
    of processed data, is the part of the symbol before its first
    underscore: the symbol itself when it has no underscore, a shorter
    one otherwise. *)
Theorem filename_round_trip (symbol date_str : string) :
  symbol_of (data_filename symbol date_str) = before_underscore symbol
  /\ before_underscore (processed_filename symbol date_str)
     = before_underscore symbol
  /\ (has_underscore symbol = false ->
      symbol_of (data_filename symbol date_str) = symbol
      /\ before_underscore (processed_filename symbol date_str) = symbol).
Proof.
  assert (H1 : symbol_of (data_filename symbol date_str)
               = before_underscore symbol).
  { unfold symbol_of, data_filename. cbn [append].
    now rewrite has_underscore_app, before_underscore_app. }
  assert (H2 : before_underscore (processed_filename symbol date_str)
               = before_underscore symbol).
  { unfold processed_filename. cbn [append]. apply before_underscore_app. }
  split; [exact H1|]. split; [exact H2|].
  intros Hno. rewrite H1, H2. split; now apply before_underscore_id.
Qed.

(** ** Downloads *)

Lemma download_symbol_data_some (yf : string -> fetched) (symbol : string)
  (bars : list Bar.t) :
  download_symbol_data yf symbol = Some bars -> bars <> [].
Proof.
  unfold download_symbol_data.
  destruct (yf symbol) as [|[|b t]]; try discriminate.
  intros [= <-]. discriminate.
Qed.

(** When [save_data] reports success, and what it leaves on the disk. *)
Lemma save_data_spec (can_write : string -> bool) (d : disk)
  (yf : string -> fetched) (symbol date_str : string) :
  let r := save_data can_write d (download_symbol_data yf symbol)
             symbol date_str in
  (fst r = true
   <-> download_symbol_data yf symbol <> None
       /\ can_write (data_filename symbol date_str) = true)
  /\ (fst r = false -> snd r = d)
  /\ (fst r = true ->
      exists bars,
        bars <> []
        /\ snd r = dict_set d (data_filename symbol date_str) (Table bars)).
Proof.
  cbv zeta. unfold save_data.
  destruct (download_symbol_data yf symbol) as [[|b t]|] eqn:E.
  - apply download_symbol_data_some in E. congruence.
  - destruct (can_write (data_filename symbol date_str)); cbn [fst snd].
    + split; [|split]; try discriminate.
      * split; [intros _; split; [discriminate | reflexivity] | reflexivity].
      * intros _. exists (b :: t). split; [discriminate | reflexivity].
    + split; [|split]; try discriminate; try reflexivity.
      split; [discriminate | intros [_ H]; discriminate].
  - cbn [fst snd]. split; [|split]; try discriminate; try reflexivity.
    split; [discriminate | intros [H _]; congruence].
Qed.

Lemma download_loop_spec (yf : string -> fetched) (can_write : string -> bool)
  (date_str : string) (symbols : list string) :
  forall n failed d,
    let r := download_loop yf can_write date_str symbols n failed d in
    (fst (fst r) + length (snd (fst r)) = n + length failed + length symbols)%nat
    /\ exists more,
         snd (fst r) = failed ++ more
         /\ forall s,
              In s more
              <-> In s symbols
                  /\ (download_symbol_data yf s = None
                      \/ can_write (data_filename s date_str) = false).
Proof.
  induction symbols as [|symbol rest IH]; intros n failed d; cbv zeta.
  - cbn [download_loop fst snd length]. split; [lia|].
    exists []. split; [now rewrite app_nil_r|]. intros s. simpl. tauto.
  - cbn [download_loop].
    destruct (save_data_spec can_write d yf symbol date_str) as (Hok & _ & _).
    destruct (save_data can_write d (download_symbol_data yf symbol)
                symbol date_str) as [saved d'].
    cbn [fst] in Hok. destruct saved.
    + destruct (IH (S n) failed d') as (Hc & more & Hm & Hin).
      split; [cbn [length]; lia|].
      exists more. split; [exact Hm|]. intros s. rewrite Hin. cbn [In].
      destruct (proj1 Hok eq_refl) as [Hd Hw].
      split; [tauto|]. intros [[<-|Hs] Hf]; [|tauto].
      exfalso. destruct Hf as [Hf|Hf]; congruence.
    + destruct (IH n (failed ++ [symbol]) d') as (Hc & more & Hm & Hin).
      split; [rewrite length_app in Hc; cbn [length] in *; lia|].
      exists (symbol :: more). split; [now rewrite Hm, <- app_assoc|].
      intros s. cbn [In]. rewrite Hin.
      assert (Hfail : download_symbol_data yf symbol = None
                      \/ can_write (data_filename symbol date_str) = false).
      { destruct (download_symbol_data yf symbol) eqn:E; [|now left].
        right. destruct (can_write (data_filename symbol date_str)) eqn:W;
          [|reflexivity].
        assert (false = true) by (apply Hok; split; congruence). discriminate. }
      split.
      * intros [<-|H]; [split; [now left | exact Hfail] | tauto].
      * intros [[<-|Hs] Hf]; [now left | right; tauto].
Qed.

(** X19.  [download_all_symbols] accounts for every symbol once: the
    number of successful downloads plus the number of failed ones is the
    number of symbols, and a symbol is reported as failed exactly when
    its download gave nothing (an exception or an empty frame) or its
    file could not be written.  The symbols are those of the
    configuration when none are given. *)
Theorem download_accounting (yf : string -> fetched)
  (can_write : string -> bool) (date_str : string)
  (config_symbols : list string) (symbols : option (list string)) (d : disk) :
  let wanted :=
    match symbols with
    | Some (s :: l) => s :: l
    | _ => config_symbols
    end in
  let '(successful_downloads, failed_downloads, _) :=
    download_all_symbols yf can_write date_str config_symbols symbols d in
  (successful_downloads + length failed_downloads = length wanted)%nat
  /\ forall s,
       In s failed_downloads
       <-> In s wanted
           /\ (download_symbol_data yf s = None
               \/ can_write (data_filename s date_str) = false).
Proof.
  cbv zeta. unfold download_all_symbols.
  set (wanted := match symbols with Some (s :: l) => s :: l | _ => _ end).
  destruct (download_loop_spec yf can_write date_str wanted 0 [] d)
    as (Hc & more & Hm & Hin).
  destruct (download_loop yf can_write date_str wanted 0 [] d)
    as [[n failed] d'].
  cbn [fst snd length] in *. subst failed. split; [lia | exact Hin].
Qed.

Lemma In_dict_set {V : Type} (d : list (string * V)) (k : string) (v : V)
  (x : string * V) :
  In x (dict_set d k v) -> x = (k, v) \/ In x d.
Proof.
  induction d as [|[k0 v0] t IH]; cbn [dict_set].
  - intros [H|[]]. now left.
  - destruct (String.eqb k0 k).
    + intros [H|H]; [now left | right; now right].
    + intros [H|H]; [right; now left|].
      destruct (IH H); [now left | right; now right].
Qed.

Lemma download_loop_no_empty_table (yf : string -> fetched)
  (can_write : string -> bool) (date_str : string) (symbols : list string) :
  forall n failed d,
    no_empty_table d ->
    no_empty_table (snd (download_loop yf can_write date_str symbols n failed d)).
Proof.
  induction symbols as [|symbol rest IH]; intros n failed d Hd;
    [exact Hd|].
  cbn [download_loop].
  destruct (save_data_spec can_write d yf symbol date_str) as (_ & Hf & Ht).
  destruct (save_data can_write d (download_symbol_data yf symbol)
              symbol date_str) as [saved d'].
  cbn [fst snd] in Hf, Ht. destruct saved.
  - apply IH. destruct (Ht eq_refl) as (bars & Hb & ->).
    intros f Hin. apply In_dict_set in Hin as [H|H].
    + injection H as _ H. congruence.
    + exact (Hd f H).
  - apply IH. now rewrite (Hf eq_refl).
Qed.

(** X20.  The downloader never leaves a file without rows: on a data
    directory that holds none, [process_all_data] run over the files
    after [download_all_symbols], in any order, returns its summaries
    and does not raise. *)
Theorem downloaded_files_process (yf : string -> fetched)
  (can_write : string -> bool) (date_str : string)
  (config_symbols : list string) (symbols : option (list string)) (d : disk)
  (data_files : list (string * csv_file)) :
  no_empty_table d ->
  Permutation data_files
    (snd (download_all_symbols yf can_write date_str config_symbols symbols d)) ->
  no_empty_table data_files
  /\ exists summaries, process_all_data data_files = Ok summaries.
Proof.
  intros Hd Hperm.
  assert (Hne : no_empty_table data_files).
  { intros f Hin. apply (Permutation_in _ Hperm) in Hin.
    revert f Hin. unfold download_all_symbols.
    now apply download_loop_no_empty_table. }
  split; [exact Hne|]. unfold process_all_data.
  destruct data_files as [|file rest] eqn:E; [now exists []|].
  rewrite <- E in *.
  destruct (process_files_ok data_files Hne []) as (out & Hout & _).
  now exists out.
Qed.

(** ** Loading the processed files and the daily report *)

Lemma dict_get_set {V : Type} (d : list (string * V)) (k k' : string) (v : V) :
  dict_get (dict_set d k v) k'
  = if String.eqb k k' then Some v else dict_get d k'.
Proof.
  induction d as [|[k0 v0] t IH]; cbn [dict_set dict_get].
  - reflexivity.
  - destruct (String.eqb k0 k) eqn:E; cbn [dict_get].
    + apply String.eqb_eq in E. subst k0.
      now destruct (String.eqb k k').
    + rewrite IH. destruct (String.eqb k0 k') eqn:E'; [|reflexivity].
      apply String.eqb_eq in E'. rewrite <- E', String.eqb_sym.
      now rewrite E.
Qed.

Lemma keys_dict_set {V : Type} (d : list (string * V)) (k : string) (v : V)
  (x : string) :
  In x (map fst (dict_set d k v)) <-> x = k \/ In x (map fst d).
Proof.
  induction d as [|[k0 v0] t IH]; cbn [dict_set map fst In].
  - intuition congruence.
  - destruct (String.eqb k0 k) eqn:E; cbn [map fst In].
    + apply String.eqb_eq in E. subst k0. intuition congruence.
    + rewrite IH. intuition congruence.
Qed.

Lemma NoDup_dict_set {V : Type} (d : list (string * V)) (k : string) (v : V) :
  NoDup (map fst d) -> NoDup (map fst (dict_set d k v)).
Proof.
  induction d as [|[k0 v0] t IH]; cbn [dict_set map fst]; intros Hnd.
  - constructor; [intros [] | constructor].
  - inversion Hnd as [|? ? Hnotin Hnd']; subst.
    destruct (String.eqb k0 k) eqn:E; cbn [map fst].
    + apply String.eqb_eq in E. subst k0. now constructor.
    + constructor; [|now apply IH].
      rewrite keys_dict_set. intros [->|H]; [|contradiction].
      now rewrite String.eqb_refl in E.
Qed.

Lemma dict_get_In {V : Type} (d : list (string * V)) (k : string) (v : V) :
  NoDup (map fst d) -> (dict_get d k = Some v <-> In (k, v) d).
Proof.
  induction d as [|[k0 v0] t IH]; cbn [dict_get map fst In]; intros Hnd.
  - split; [discriminate | contradiction].
  - inversion Hnd as [|? ? Hnotin Hnd']; subst.
    destruct (String.eqb k0 k) eqn:E.
    + apply String.eqb_eq in E. subst k0. split.
      * intros [= ->]. now left.
      * intros [[= ->]|H]; [reflexivity|].
        exfalso. apply Hnotin, in_map_iff. now exists (k, v).
    + rewrite (IH Hnd'). split; [now right|].
      intros [[= -> ->]|H]; [|exact H].
      now rewrite String.eqb_refl in E.
Qed.

Lemma load_fold (files : list (string * processed_file)) :
  forall acc : list (string * list Row.t),
    NoDup (map fst acc) ->
    let r :=
      fold_left
        (fun data_dict file =>
           let symbol_name := before_underscore (fst file) in
           match snd file with
           | Stored data => dict_set data_dict symbol_name data
           | Garbled => data_dict
           end)
        files acc in
    NoDup (map fst r)
    /\ (forall symbol,
          dict_get r symbol
          = match last_stored files symbol with
            | Some data => Some data
            | None => dict_get acc symbol
            end)
    /\ (length acc <= length r)%nat.
Proof.
  induction files as [|[name content] rest IH]; intros acc Hnd; cbv zeta.
  - cbn [fold_left last_stored]. split; [exact Hnd|]. split; [reflexivity|lia].
  - cbn [fold_left last_stored fst snd]. destruct content as [|data].
    + destruct (IH acc Hnd) as (H1 & H2 & H3).
      split; [exact H1|]. split; [|exact H3]. intros symbol. rewrite H2.
      destruct (last_stored rest symbol); [reflexivity|].
      now destruct (String.eqb (before_underscore name) symbol).
    + destruct (IH (dict_set acc (before_underscore name) data)
                  (NoDup_dict_set _ _ _ Hnd)) as (H1 & H2 & H3).
      split; [exact H1|]. split.
      * intros symbol. rewrite H2, dict_get_set.
        destruct (last_stored rest symbol); [reflexivity|].
        now destruct (String.eqb (before_underscore name) symbol).
      * eapply Nat.le_trans; [|exact H3].
        clear. induction acc as [|[k0 v0] t IHa]; cbn [dict_set length]; [lia|].
        destruct (String.eqb k0 (before_underscore name)); cbn [length]; lia.
Qed.

Lemma load_processed_data_keys
  (processed_dir : option (list (string * processed_file))) :
  NoDup (map fst (load_processed_data processed_dir)).
Proof.
  destruct processed_dir as [files|]; cbn [load_processed_data];
    [|constructor].
  apply (load_fold files []). constructor.
Qed.

Lemma load_processed_data_get (files : list (string * processed_file))
  (symbol : string) :
  dict_get (load_processed_data (Some files)) symbol
  = last_stored files symbol.
Proof.
  cbn [load_processed_data].
  destruct (load_fold files [] (NoDup_nil _)) as (_ & H & _).
  rewrite H. cbn [dict_get]. now destruct (last_stored files symbol).
Qed.

Lemma last_stored_none (files : list (string * processed_file)) :
  (forall symbol, last_stored files symbol = None)
  <-> Forall (fun file => snd file = Garbled) files.
Proof.
  induction files as [|[name content] rest IH]; cbn [last_stored fst snd].
  - split; [constructor | reflexivity].
  - split.
    + intros H. constructor.
      * specialize (H (before_underscore name)).
        destruct (last_stored rest (before_underscore name)); [discriminate|].
        rewrite String.eqb_refl in H. cbn [snd].
        now destruct content.
      * apply IH. intros symbol. specialize (H symbol).
        now destruct (last_stored rest symbol).
    + intros H symbol. inversion H as [|? ? Hc Hr]; subst. cbn [snd] in Hc.
      rewrite (proj2 IH Hr symbol), Hc.
      now destruct (String.eqb (before_underscore name) symbol).
Qed.

Lemma load_processed_data_nil
  (processed_dir : option (list (string * processed_file))) :
  load_processed_data processed_dir = [] <-> nothing_stored processed_dir.
Proof.
  destruct processed_dir as [files|]; cbn [nothing_stored];
    [|cbn [load_processed_data]; tauto].
  rewrite <- last_stored_none. split.
  - intros H symbol. now rewrite <- load_processed_data_get, H.
  - intros H.
    destruct (load_processed_data (Some files)) as [|[k v] t] eqn:E;
      [reflexivity|].
    specialize (H k). rewrite <- load_processed_data_get, E in H.
    cbn [dict_get] in H. now rewrite String.eqb_refl in H.
Qed.

(** X21.  [load_processed_data] gives one entry per symbol name: the keys
    are distinct, the frame of a symbol is that of the last file of its
    name that could be read, files that cannot be read leave no entry, and
    the dictionary is empty exactly when no file could be read. *)
Theorem processed_files_loaded (files : list (string * processed_file)) :
  let data_dict := load_processed_data (Some files) in
  NoDup (map fst data_dict)
  /\ (forall symbol data,
        In (symbol, data) data_dict <-> last_stored files symbol = Some data)
  /\ (forall symbol data,
        In (symbol, data) data_dict ->
        exists name,
          In (name, Stored data) files /\ before_underscore name = symbol)
  /\ (data_dict = [] <-> Forall (fun file => snd file = Garbled) files).
Proof.
  cbv zeta.
  assert (Hnd := load_processed_data_keys (Some files)).
  assert (Hget : forall symbol data,
             In (symbol, data) (load_processed_data (Some files))
             <-> last_stored files symbol = Some data).
  { intros symbol data.
    now rewrite <- (dict_get_In _ _ _ Hnd), load_processed_data_get. }
  split; [exact Hnd|]. split; [exact Hget|]. split.
  - intros symbol data Hin. apply Hget in Hin. clear Hget Hnd.
    induction files as [|[name content] rest IH]; cbn [last_stored fst snd] in Hin;
      [discriminate|].
    destruct (last_stored rest symbol) as [d|].
    + destruct (IH Hin) as (n & Hn & Hs). exists n. split; [now right | exact Hs].
    + destruct (String.eqb (before_underscore name) symbol) eqn:E;
        [|discriminate].
      destruct content as [|d]; [discriminate|]. injection Hin as ->.
      apply String.eqb_eq in E. exists name. split; [now left | exact E].
  - exact (load_processed_data_nil (Some files)).
Qed.

Lemma kept_nonempty (item : string * list Row.t) :
  kept item = true -> iloc_last (snd item) <> None.
Proof.
  unfold kept, last_return. intros H E. rewrite E in H. discriminate.
Qed.

Lemma is_gainer_kept (item : string * list Row.t) :
  is_gainer item = true -> kept item = true.
Proof. unfold is_gainer. intros H. now apply andb_prop in H as [H _]. Qed.

Lemma is_loser_kept (item : string * list Row.t) :
  is_loser item = true -> kept item = true.
Proof.
  unfold is_loser. intros H.
  apply andb_prop in H as [H _]. now apply andb_prop in H as [H _].
Qed.

Lemma is_high_volume_kept (config : Config.t) (item : string * list Row.t) :
  is_high_volume config item = true -> kept item = true.
Proof.
  unfold is_high_volume. intros H.
  apply andb_prop in H as [H _]. now apply andb_prop in H as [H _].
Qed.

Lemma listed_item (p : string * list Row.t -> bool)
  (key : Info.t -> float64) (reverse : bool) (n : nat)
  (data_dict : list (string * list Row.t)) (symbol : string) :
  (forall item, p item = true -> kept item = true) ->
  In symbol
    (map Info.symbol
       (firstn n (firstn 10 (sorted key reverse
                               (map info_of (filter p data_dict)))))) ->
  exists data,
    In (symbol, data) data_dict /\ iloc_last data <> None.
Proof.
  intros Hp H. apply in_map_iff in H as (g & Hg & Hin).
  do 2 apply In_firstn in Hin.
  apply (Permutation_in _ (Permutation_sym (sorted_perm key reverse _))) in Hin.
  apply in_map_iff in Hin as ([k data] & Hi & Hf).
  apply filter_In in Hf as [Hf Hk]. subst g. cbn [info_of Info.symbol fst] in Hg.
  subst k. exists data. split; [exact Hf|].
  exact (kept_nonempty _ (Hp _ Hk)).
Qed.

Lemma significant_symbols_loaded (config : Config.t) (today : string)
  (data_dict : list (string * list Row.t)) (symbol : string) :
  In symbol
    (significant_symbols (generate_market_summary config today data_dict)) ->
  exists data,
    In (symbol, data) data_dict /\ iloc_last data <> None.
Proof.
  unfold significant_symbols, generate_market_summary.
  cbn [Market.gainers Market.losers Market.high_volume].
  destruct (collect_lists config today data_dict) as (-> & -> & ->).
  rewrite map_app, !in_app_iff. intros [[H|H]|H].
  - exact (listed_item _ _ _ _ _ _ is_gainer_kept H).
  - exact (listed_item _ _ _ _ _ _ is_loser_kept H).
  - exact (listed_item _ _ _ _ _ _ (is_high_volume_kept config) H).
Qed.

Lemma generate_symbol_analysis_some (symbol : string) (data : list Row.t) :
  iloc_last data <> None ->
  exists analysis,
    generate_symbol_analysis symbol data = Some analysis
    /\ Analysis.symbol analysis = symbol.
Proof.
  unfold generate_symbol_analysis. destruct (iloc_last data); [|congruence].
  intros _. eexists. split; reflexivity.
Qed.

Lemma analyses_fold (data_dict : list (string * list Row.t))
  (wanted : list string) :
  (forall symbol, In symbol wanted ->
     exists data,
       dict_get data_dict symbol = Some data /\ iloc_last data <> None) ->
  forall acc,
    let r :=
      fold_left
        (fun acc symbol =>
           match dict_get data_dict symbol with
           | Some data =>
               match generate_symbol_analysis symbol data with
               | Some analysis => acc ++ [analysis]
               | None => acc
               end
           | None => acc
           end)
        wanted acc in
    map Analysis.symbol r = map Analysis.symbol acc ++ wanted
    /\ forall analysis,
         In analysis r ->
         In analysis acc
         \/ exists data,
              dict_get data_dict (Analysis.symbol analysis) = Some data
              /\ generate_symbol_analysis (Analysis.symbol analysis) data
                 = Some analysis.
Proof.
  induction wanted as [|symbol rest IH]; intros Hw acc; cbv zeta.
  - cbn [fold_left]. rewrite app_nil_r. split; [reflexivity | now left].
  - cbn [fold_left].
    destruct (Hw symbol (or_introl eq_refl)) as (data & Hget & Hne).
    destruct (generate_symbol_analysis_some symbol data Hne)
      as (analysis & Hgen & Hsym).
    rewrite Hget, Hgen.
    destruct (IH (fun s H => Hw s (or_intror H)) (acc ++ [analysis]))
      as (Hmap & Hin).
    split.
    + etransitivity; [exact Hmap|].
      rewrite map_app, <- app_assoc. cbn [map app]. now rewrite Hsym.
    + intros a Ha. destruct (Hin a Ha) as [H|H]; [|now right].
      apply in_app_iff in H as [H|[<-|[]]]; [now left|].
      right. exists data. now rewrite Hsym.
Qed.

Lemma NoDup_keys_filter {V : Type} (p : string * V -> bool)
  (d : list (string * V)) :
  NoDup (map fst d) -> NoDup (map fst (filter p d)).
Proof.
  induction d as [|[k v] t IH]; cbn [filter map fst]; intros Hnd;
    [constructor|].
  inversion Hnd as [|? ? Hnotin Hnd']; subst.
  destruct (p (k, v)); cbn [map fst]; [|now apply IH].
  constructor; [|now apply IH].
  intros H. apply Hnotin. apply in_map_iff in H as (x & Hx & Hin).
  apply filter_In in Hin as [Hin _]. apply in_map_iff. now exists x.
Qed.

Lemma set_iter_length (l : list string) :
  (length (set_iter l) <= length l)%nat.
Proof.
  apply NoDup_incl_length; [apply set_iter_NoDup|].
  intros x. apply set_iter_In.
Qed.

Lemma length_significant_symbols (summary : Market.t) :
  (length (significant_symbols summary) <= 13)%nat.
Proof.
  unfold significant_symbols.
  rewrite length_app, !length_map, length_app.
  pose proof (length_firstn_le 5 (Market.gainers summary)).
  pose proof (length_firstn_le 5 (Market.losers summary)).
  pose proof (length_firstn_le 3 (Market.high_volume summary)).
  lia.
Qed.

(** The dictionary that [generate_daily_report] summarises. *)
Lemma daily_report_cases (config : Config.t) (today : string)
  (processed_dir : option (list (string * processed_file)))
  (symbols : option (list string)) :
  (load_processed_data processed_dir = []
   /\ generate_daily_report config today processed_dir symbols = None)
  \/ (load_processed_data processed_dir <> []
      /\ exists data_dict,
           NoDup (map fst data_dict)
           /\ incl data_dict (load_processed_data processed_dir)
           /\ (forall item,
                 In item data_dict
                 <-> In item (load_processed_data processed_dir)
                     /\ match symbols with
                        | Some (s :: l) => In (fst item) (s :: l)
                        | _ => True
                        end)
           /\ generate_daily_report config today processed_dir symbols
              = Some
                  (generate_market_summary config today data_dict,
                   fold_left
                     (fun acc symbol =>
                        match dict_get data_dict symbol with
                        | Some data =>
                            match generate_symbol_analysis symbol data with
                            | Some analysis => acc ++ [analysis]
                            | None => acc
                            end
                        | None => acc
                        end)
                     (set_iter
                        (significant_symbols
                           (generate_market_summary config today data_dict)))
                     [])).
Proof.
  unfold generate_daily_report.
  pose proof (load_processed_data_keys processed_dir) as Hnd.
  destruct (load_processed_data processed_dir) as [|first others] eqn:E;
    [left; now split|].
  right. split; [discriminate|].
  destruct symbols as [[|s l]|].
  - exists (first :: others). split; [exact Hnd|]. split; [apply incl_refl|].
    split; [tauto | reflexivity].
  - eexists. split; [apply NoDup_keys_filter, Hnd|].
    split; [apply incl_filter|]. split; [|reflexivity].
    intros item. rewrite filter_In. apply and_iff_compat_l.
    rewrite existsb_exists. split.
    + intros (x & Hx & Heq). apply String.eqb_eq in Heq. now rewrite Heq.
    + intros H. exists (fst item). split; [exact H | apply String.eqb_refl].
  - exists (first :: others). split; [exact Hnd|]. split; [apply incl_refl|].
    split; [tauto | reflexivity].
Qed.

(** X22.  [generate_daily_report] returns before it builds a summary
    exactly when no processed file could be loaded.  Otherwise, in what it
    hands to [create_html_report], every symbol of its set of significant
    symbols (the first five gainers, the first five losers and the first
    three high-volume entries of the summary) gets one detailed analysis,
    in the order in which the set is iterated: none is dropped, none is
    analysed twice, there are at most thirteen, and each analysis is
    computed from the loaded frame of its symbol. *)
Theorem daily_report_analyses (config : Config.t) (today : string)
  (processed_dir : option (list (string * processed_file)))
  (symbols : option (list string)) :
  (generate_daily_report config today processed_dir symbols = None
   <-> nothing_stored processed_dir)
  /\ forall summary detailed_analysis,
       generate_daily_report config today processed_dir symbols
       = Some (summary, detailed_analysis) ->
       map Analysis.symbol detailed_analysis
       = set_iter (significant_symbols summary)
       /\ NoDup (map Analysis.symbol detailed_analysis)
       /\ (length detailed_analysis <= 13)%nat
       /\ forall analysis,
            In analysis detailed_analysis ->
            exists data,
              In (Analysis.symbol analysis, data)
                (load_processed_data processed_dir)
              /\ generate_symbol_analysis (Analysis.symbol analysis) data
                 = Some analysis.
Proof.
  destruct (daily_report_cases config today processed_dir symbols)
    as [[Hnil Hrep]|(Hne & data_dict & Hnd & Hincl & _ & Hrep)].
  - split; [|intros ? ?; rewrite Hrep; discriminate].
    rewrite <- load_processed_data_nil. now split.
  - split.
    + rewrite <- load_processed_data_nil, Hrep.
      split; [discriminate | congruence].
    + intros summary detailed_analysis Heq. rewrite Hrep in Heq.
      injection Heq as <- <-.
      set (summary := generate_market_summary config today data_dict).
      destruct (analyses_fold data_dict
                  (set_iter (significant_symbols summary))) with (acc := @nil Analysis.t)
        as (Hmap & Hin).
      { intros symbol Hs. apply (proj1 (set_iter_In _ _)) in Hs.
        destruct (significant_symbols_loaded _ _ _ _ Hs) as (data & Hd & Hl).
        exists data. split; [now apply dict_get_In | exact Hl]. }
      cbn [map app] in Hmap. split; [exact Hmap|]. split.
      * rewrite Hmap. apply set_iter_NoDup.
      * split.
        -- rewrite <- (length_map Analysis.symbol), Hmap.
           etransitivity; [apply set_iter_length|].
           apply length_significant_symbols.
        -- intros analysis Ha. destruct (Hin analysis Ha) as [[]|(data & Hg & Hs)].
           exists data. split; [|exact Hs].
           apply Hincl. now apply dict_get_In.
Qed.

(** X23.  The filter on [symbols] comes after the test for an empty
    dictionary: when files were loaded but none is for a requested symbol,
    the report is still built, from a summary of no symbol and without
    any detailed analysis. *)
Theorem daily_report_unknown_symbols (config : Config.t) (today : string)
  (processed_dir : option (list (string * processed_file)))
  (s : string) (l : list string) :
  ~ nothing_stored processed_dir ->
  (forall item,
     In item (load_processed_data processed_dir) -> ~ In (fst item) (s :: l)) ->
  generate_daily_report config today processed_dir (Some (s :: l))
  = Some
      ({| Market.date := today;
          Market.total_symbols := 0;
          Market.gainers := [];
          Market.losers := [];
          Market.high_volume := [];
          Market.alerts := [] |},
       []).
Proof.
  intros Hstored Hnone.
  destruct (daily_report_cases config today processed_dir (Some (s :: l)))
    as [[Hnil _]|(_ & data_dict & _ & _ & Hitems & Hrep)].
  - now apply load_processed_data_nil in Hnil.
  - assert (data_dict = []) as ->.
    { destruct data_dict as [|item rest]; [reflexivity|].
      destruct (proj1 (Hitems item) (or_introl eq_refl)) as [Hi Hs].
      now destruct (Hnone item Hi). }
    rewrite Hrep. f_equal. f_equal.
    assert (set_iter [] = []) as E.
    { destruct (set_iter []) as [|x t] eqn:E; [reflexivity|].
      exfalso. apply (proj1 (set_iter_In [] x)). rewrite E. now left. }
    unfold significant_symbols, generate_market_summary, collect.
    cbn [fold_left Market.gainers Market.losers Market.high_volume firstn
         sorted sort_by map app].
    exact (f_equal (fun w => fold_left _ w []) E).
Qed.

(** ** Support and resistance *)

Lemma interpolation_within (lo hi a b f : Q) :
  lo <= a <= hi -> lo <= b <= hi -> 0 <= f <= 1 ->
  lo <= a + (b - a) * f <= hi.
Proof.
  intros [Ha1 Ha2] [Hb1 Hb2] [Hf1 Hf2].
  assert (E : a + (b - a) * f == a * (1 - f) + b * f) by ring.
  assert (H1 : 0 <= 1 - f) by lra.
  pose proof (Qmult_le_compat_r _ _ _ Ha1 H1).
  pose proof (Qmult_le_compat_r _ _ _ Ha2 H1).
  pose proof (Qmult_le_compat_r _ _ _ Hb1 Hf1).
  pose proof (Qmult_le_compat_r _ _ _ Hb2 Hf1).
  rewrite E. split; lra.
Qed.

Lemma within_nth (lo hi : Q) (vs : list float64) (n : nat) (d : float64) :
  Forall (within lo hi) vs -> within lo hi d -> within lo hi (nth n vs d).
Proof.
  intros Hvs Hd. destruct (Nat.lt_ge_cases n (length vs)) as [H|H].
  - rewrite Forall_forall in Hvs. apply Hvs. now apply nth_In.
  - now rewrite nth_overflow.
Qed.

Lemma quantile_within (q lo hi : Q) (xs : list float64) :
  0 <= q <= 1 -> xs <> [] -> Forall (within lo hi) xs ->
  within lo hi (quantile q xs).
Proof.
  intros Hq Hne Hxs. unfold quantile.
  assert (Hobs : observed xs = xs).
  { apply filter_all. intros x Hx. rewrite Forall_forall in Hxs.
    specialize (Hxs x Hx). now destruct x. }
  rewrite Hobs.
  pose proof (sorted_perm (fun x : float64 => x) false xs) as Hperm.
  assert (Hvs : Forall (within lo hi)
                  (sorted (fun x : float64 => x) false xs)).
  { rewrite Forall_forall in *. intros x Hx. apply Hxs.
    exact (Permutation_in _ (Permutation_sym Hperm) Hx). }
  assert (Hlen : (0 < length (sorted (fun x : float64 => x) false xs))%nat).
  { rewrite <- (Permutation_length Hperm). destruct xs; [congruence|].
    cbn [length]; lia. }
  destruct (sorted (fun x : float64 => x) false xs) as [|v vs] eqn:E;
    [cbn [length] in Hlen; lia|].
  cbv zeta.
  set (pos := inject_Z (Z.of_nat (length (v :: vs) - 1)) * q).
  assert (Hpos : 0 <= pos).
  { unfold pos. apply Qmult_le_0_compat; [|tauto].
    change 0 with (inject_Z 0). rewrite <- Zle_Qle. lia. }
  assert (Hlow : (Z.to_nat (Qfloor pos) < length (v :: vs))%nat).
  { assert (Hle : pos <= inject_Z (Z.of_nat (length (v :: vs) - 1))).
    { unfold pos.
      assert (H0 : 0 <= inject_Z (Z.of_nat (length (v :: vs) - 1))).
      { change 0 with (inject_Z 0). rewrite <- Zle_Qle. lia. }
      destruct Hq as [_ Hq1].
      pose proof (Qmult_le_compat_r _ _ _ Hq1 H0) as H.
      rewrite Qmult_1_l in H. now rewrite Qmult_comm. }
    apply Qfloor_resp_le in Hle. rewrite Qfloor_Z in Hle.
    assert (0 <= Qfloor pos)%Z.
    { apply Qfloor_resp_le in Hpos. now change (Qfloor 0) with 0%Z in Hpos. }
    cbn [length] in *. lia. }
  assert (Ha : within lo hi (nth (Z.to_nat (Qfloor pos)) (v :: vs) NaN)).
  { rewrite Forall_forall in Hvs. apply Hvs. now apply nth_In. }
  assert (Hb : within lo hi
                 (nth (S (Z.to_nat (Qfloor pos))) (v :: vs)
                    (nth (Z.to_nat (Qfloor pos)) (v :: vs) NaN))).
  { now apply within_nth. }
  destruct (nth (Z.to_nat (Qfloor pos)) (v :: vs) NaN) as [a| | |];
    try contradiction.
  destruct (nth (S (Z.to_nat (Qfloor pos))) (v :: vs) (Fin a)) as [b| | |];
    try contradiction.
  cbn [fsub fneg fadd fmul within].
  assert (Hf : 0 <= pos - inject_Z (Qfloor pos) <= 1).
  { pose proof (Qfloor_le pos). pose proof (Qlt_floor pos) as Hlt.
    rewrite inject_Z_plus in Hlt. change (inject_Z 1) with 1 in Hlt.
    split; lra. }
  assert (Hab : a + (b + - a) * (pos - inject_Z (Qfloor pos))
                == a + (b - a) * (pos - inject_Z (Qfloor pos))) by ring.
  rewrite Hab. now apply interpolation_within.
Qed.

(** X24.  With ten rows or more, the support and the resistance of
    [_find_support_resistance] are interpolated order statistics: both
    are defined, the support lies between the lowest and the highest
    [Low] of the rows, the resistance between the lowest and the highest
    [High]. *)
Theorem support_resistance_range (data : list Row.t)
  (low_min low_max high_min high_max : Q) :
  (10 <= length data)%nat ->
  Forall (fun row => within low_min low_max (Row.Low row)) data ->
  Forall (fun row => within high_min high_max (Row.High row)) data ->
  within low_min low_max (Levels.support (_find_support_resistance data))
  /\ within high_min high_max
       (Levels.resistance (_find_support_resistance data)).
Proof.
  intros Hlen Hlow Hhigh. unfold _find_support_resistance.
  destruct (Nat.ltb_spec (length data) 10) as [H|_]; [lia|].
  cbn [Levels.support Levels.resistance].
  assert (Hne : forall f : Row.t -> float64, map f data <> []).
  { intros f E. apply (f_equal (@length _)) in E.
    rewrite length_map in E. cbn [length] in E. lia. }
  split; apply quantile_within; try apply Hne; try lra;
    now apply Forall_map.
Qed.

End Pipeline.

(** ** The properties on the sample data *)

Lemma sqrt_down_nonneg (q : Q) : 0 <= q -> 0 <= sqrt_down q.
Proof.
  intros _. unfold sqrt_down, Qle. simpl.
  rewrite Z.mul_1_r. apply Z.sqrt_nonneg.
Qed.

(** C1 (the code departs from it).  A data file with a header and no row
    is loaded as an empty frame: [process_symbol_data] returns that frame,
    not [None], and [generate_summary_stats] then raises [IndexError] on
    its [data.iloc[-1]]; [process_all_data] does not catch it, so the
    batch ends there although another symbol has usable data, which on
    its own is processed to one summary. *)
Theorem empty_series_aborts_batch :
  process_symbol_data sqrt_down "EMPTY" (Table []) = Some []
  /\ generate_summary_stats [] "EMPTY" = Raise IndexError
  /\ process_all_data sqrt_down sample_files = Raise IndexError
  /\ exists summary,
       process_all_data sqrt_down
         [("AAPL_20240102.csv"%string, Table sample_bars)]
       = Ok [summary]
       /\ Stats.symbol summary = "AAPL"%string.
Proof.
  split; [reflexivity|]. split; [reflexivity|]. split; [reflexivity|].
  eexists. split; [vm_compute; reflexivity | reflexivity].
Qed.

(** C8, counterexample: a one-bar series.  The only daily return of the
    frame that the engine builds for it is NaN, so the 7-day and 30-day
    means are NaN, and so are the standard deviations. *)
Lemma one_bar_trailing_stats_undefined :
  option_map
    (fun a => (Analysis.avg_return_7d a, Analysis.avg_return_30d a,
               Analysis.volatility_7d a, Analysis.volatility_30d a))
    (generate_symbol_analysis sqrt_down "AAA"
       (add_indicators sqrt_down one_bar))
  = Some (NaN, NaN, NaN, NaN).
Proof. vm_compute. reflexivity. Qed.

Lemma calculate_sma_window_mean_witness :
  (1 <= 3)%nat /\ (3 < length sample_bars)%nat
  /\ nth_error (calculate_sma sample_bars 3) 3
     = Some (Fin (Qsum (map Bar.Close (slice 1 3 sample_bars))
                  / inject_Z (Z.of_nat 3)))
  /\ nth_error (calculate_sma sample_bars 3) 1 = Some NaN.
Proof.
  assert (H1 : (1 <= 3)%nat) by lia.
  assert (H3 : (3 < length sample_bars)%nat) by (simpl; lia).
  assert (H4 : (1 < length sample_bars)%nat) by (simpl; lia).
  split; [exact H1|]. split; [exact H3|]. split.
  - apply (proj1 (calculate_sma_window_mean sample_bars 3 3 H1 H3)). lia.
  - apply (proj2 (calculate_sma_window_mean sample_bars 3 1 H1 H4)). lia.
Defined.

Lemma obv_running_sum_witness :
  Forall (fun b => (0 <= Bar.Volume b)%Z) sample_bars
  /\ (Zsum (volumes sample_bars) < 2 ^ 63)%Z
  /\ length (snd (calculate_volume_indicators sample_bars))
     = length sample_bars
  /\ nth_error (snd (calculate_volume_indicators sample_bars)) 0 = Some 0%Z.
Proof.
  assert (H1 : Forall (fun b => (0 <= Bar.Volume b)%Z) sample_bars)
    by (repeat constructor; simpl; lia).
  assert (H2 : (Zsum (volumes sample_bars) < 2 ^ 63)%Z) by reflexivity.
  split; [exact H1|]. split; [exact H2|].
  destruct (obv_running_sum sample_bars H1 H2) as (Hlen & H0 & _).
  split; [exact Hlen|]. apply H0. discriminate.
Defined.

Lemma rsi_bounded_witness :
  (exists x,
     nth_error (calculate_rsi zigzag_bars 14) 15 = Some x
     /\ isna x = false /\ within 0 100 x)
  /\ nth_error (calculate_rsi rising_bars 14) 15 = Some (Fin 100).
Proof.
  split.
  - eexists. split; [vm_compute; reflexivity|]. split; [reflexivity|].
    apply (proj1 (rsi_bounded zigzag_bars 14 15));
      [vm_compute; reflexivity | reflexivity].
  - apply (proj2 (rsi_bounded rising_bars 14 15)).
    + lia.
    + lia.
    + simpl. lia.
    + intros k Hk.
      do 16 (destruct k as [|k]; [try lia; vm_compute; discriminate|]). lia.
    + exists 2%nat. split; [lia | vm_compute; reflexivity].
Defined.

Lemma rsi_flat_window_undefined_witness :
  (14 <= 15)%nat /\ (15 < length flat_bars)%nat
  /\ nth_error (calculate_rsi flat_bars 14) 15 = Some NaN.
Proof.
  assert (H1 : (14 <= 15)%nat) by lia.
  assert (H2 : (15 < length flat_bars)%nat) by (simpl; lia).
  split; [exact H1|]. split; [exact H2|].
  apply (rsi_flat_window_undefined flat_bars 15 H1 H2).
  intros k Hk.
  do 16 (destruct k as [|k]; [try lia; vm_compute; reflexivity|]). lia.
Defined.

Lemma bollinger_bands_ordered_witness :
  0 <= 2
  /\ exists u m l,
       nth_error
         (fst (fst (calculate_bollinger_bands sqrt_down sample_bars 3 2))) 3
       = Some u
       /\ nth_error
            (snd (fst (calculate_bollinger_bands sqrt_down sample_bars 3 2))) 3
          = Some m
       /\ nth_error (snd (calculate_bollinger_bands sqrt_down sample_bars 3 2)) 3
          = Some l
       /\ isna u = false /\ isna m = false /\ isna l = false
       /\ fle l m /\ fle m u.
Proof.
  assert (Hk : 0 <= 2) by (vm_compute; discriminate).
  split; [exact Hk|].
  eexists. eexists. eexists.
  split; [vm_compute; reflexivity|].
  split; [vm_compute; reflexivity|].
  split; [vm_compute; reflexivity|].
  split; [reflexivity|]. split; [reflexivity|]. split; [reflexivity|].
  match goal with
  | |- fle ?l ?m /\ fle ?m ?u =>
      pose proof (bollinger_bands_ordered sqrt_down sqrt_down_nonneg
                    sample_bars 3 2 3 u m l Hk) as H
  end.
  unfold calculate_bollinger_bands in H.
  destruct H as (H1 & H2 & _);
    try reflexivity; try (vm_compute; reflexivity).
  split; assumption.
Defined.

Lemma trailing_return_stats_witness :
  add_indicators sqrt_down sample_bars <> []
  /\ Forall (fun r => no_inf (Row.Daily_Return r))
       (add_indicators sqrt_down sample_bars)
  /\ exists a,
       generate_symbol_analysis sqrt_down "AAA"
         (add_indicators sqrt_down sample_bars) = Some a
       /\ trailing_stats
            (recent_returns 7 (add_indicators sqrt_down sample_bars))
            (Analysis.avg_return_7d a) (Analysis.volatility_7d a)
       /\ trailing_stats
            (recent_returns 30 (add_indicators sqrt_down sample_bars))
            (Analysis.avg_return_30d a) (Analysis.volatility_30d a).
Proof.
  assert (H1 : add_indicators sqrt_down sample_bars <> [])
    by (vm_compute; discriminate).
  assert (H2 : Forall (fun r => no_inf (Row.Daily_Return r))
                 (add_indicators sqrt_down sample_bars)).
  { apply Forall_forall. intros r Hr. vm_compute in Hr.
    repeat (destruct Hr as [<-|Hr]; [exact I|]). contradiction. }
  split; [exact H1|]. split; [exact H2|].
  destruct (trailing_return_stats sqrt_down sqrt_down_nonneg "AAA"
              (add_indicators sqrt_down sample_bars) H1 H2)
    as (a & Ha & _ & _ & H7 & H30).
  exists a. split; [exact Ha|]. split; [exact H7 | exact H30].
Defined.

Lemma gainer_loser_classification_witness :
  NoDup (map fst boundary_frames)
  /\ isna (last_return [return_row (Fin 0.03) NaN]) = false
  /\ isna (last_close [return_row (Fin 0.03) NaN]) = false
  /\ (length boundary_frames <= 10)%nat
  /\ In "AAA"%string
       (symbols
          (Market.gainers
             (generate_market_summary (Config.mk None) "2024-01-02"
                boundary_frames)))
  /\ ~ In "AAA"%string
         (symbols
            (Market.losers
               (generate_market_summary (Config.mk None) "2024-01-02"
                  boundary_frames)))
  /\ ~ In "CCC"%string
         (symbols
            (Market.gainers
               (generate_market_summary (Config.mk None) "2024-01-02"
                  boundary_frames)))
  /\ ~ In "CCC"%string
         (symbols
            (Market.losers
               (generate_market_summary (Config.mk None) "2024-01-02"
                  boundary_frames))).
Proof.
  assert (H1 : NoDup (map fst boundary_frames)).
  { simpl. repeat constructor; simpl; intuition discriminate. }
  assert (H2 : In ("AAA"%string, [return_row (Fin 0.03) NaN]) boundary_frames)
    by (left; reflexivity).
  assert (H2' : In ("CCC"%string, [return_row (Fin 0.02) NaN]) boundary_frames)
    by (right; right; left; reflexivity).
  assert (H3 : isna (last_return [return_row (Fin 0.03) NaN]) = false)
    by reflexivity.
  assert (H4 : isna (last_close [return_row (Fin 0.03) NaN]) = false)
    by reflexivity.
  assert (H5 : (length boundary_frames <= 10)%nat) by (simpl; lia).
  split; [exact H1|]. split; [exact H3|]. split; [exact H4|].
  split; [exact H5|].
  destruct (gainer_loser_classification (Config.mk None) "2024-01-02"
              boundary_frames "AAA" [return_row (Fin 0.03) NaN]
              H1 H2 H3 H4)
    as (_ & _ & _ & _ & Hiff & (Hex & _) & _).
  destruct (gainer_loser_classification (Config.mk None) "2024-01-02"
              boundary_frames "CCC" [return_row (Fin 0.02) NaN]
              H1 H2' eq_refl eq_refl)
    as (_ & _ & _ & _ & _ & _ & Hbound).
  assert (Hin : In "AAA"%string
                  (symbols
                     (Market.gainers
                        (generate_market_summary (Config.mk None)
                           "2024-01-02" boundary_frames))))
    by (apply (proj1 (Hiff H5)); vm_compute; reflexivity).
  split; [exact Hin|]. split.
  - intros Hlo. apply Hex. split; assumption.
  - apply Hbound. left. vm_compute. reflexivity.
Defined.


(** ** The further properties on the sample data *)

Lemma ema_between_closes_witness :
  (1 <= 3)%nat /\ (4 < length sample_bars)%nat
  /\ exists q,
       nth_error (calculate_ema sample_bars 3) 4 = Some (Fin q)
       /\ 99 <= q <= 104.
Proof.
  assert (H1 : (1 <= 3)%nat) by lia.
  assert (H2 : (4 < length sample_bars)%nat) by (simpl; lia).
  split; [exact H1|]. split; [exact H2|].
  apply (ema_between_closes sample_bars 3 4 99 104 H1 H2).
  intros j b Hj Hb.
  do 5 (destruct j as [|j];
        [injection Hb as <-; vm_compute; split; discriminate|]).
  lia.
Defined.

Lemma macd_defined_witness :
  (0 < length sample_bars)%nat
  /\ exists m s,
       nth_error (fst (fst (calculate_macd sample_bars 12 26 9))) 0
       = Some (Fin m)
       /\ nth_error (snd (fst (calculate_macd sample_bars 12 26 9))) 0
          = Some (Fin s)
       /\ nth_error (snd (calculate_macd sample_bars 12 26 9)) 0
          = Some (Fin (m - s))
       /\ (0%nat = 0%nat -> m == 0 /\ s == 0).
Proof.
  assert (H : (0 < length sample_bars)%nat) by (simpl; lia).
  split; [exact H|].
  pose proof (macd_defined sample_bars 12 26 9 0
                ltac:(lia) ltac:(lia) ltac:(lia) H) as M.
  destruct (calculate_macd sample_bars 12 26 9) as [[m s] h]. exact M.
Defined.

Lemma summary_macd_signal_witness :
  one_bar <> []
  /\ exists summary,
       generate_summary_stats (add_indicators sqrt_down one_bar) "AAPL"
       = Ok summary
       /\ Stats.symbol summary = "AAPL"%string
       /\ Stats.macd_signal summary = "Bearish"%string.
Proof.
  assert (H : one_bar <> []) by discriminate.
  split; [exact H|].
  destruct (summary_macd_signal sqrt_down "AAPL" one_bar H)
    as (summary & Hs & Hsym & _ & Hone).
  exists summary. split; [exact Hs|]. split; [exact Hsym|].
  apply Hone. reflexivity.
Defined.

Lemma volume_ratio_first_valid_witness :
  nth_error month_bars 20 = Some (bar_of 20 120 30)
  /\ nth_error (fst (fst (calculate_volume_indicators month_bars))) 20
     = Some
         (Fin (Qsum (map (fun x => inject_Z (Bar.Volume x))
                       (slice 1 20 month_bars))
               / inject_Z (Z.of_nat 20)))
  /\ nth_error (fst (fst (calculate_volume_indicators sample_bars))) 4
     = Some NaN.
Proof.
  assert (H : nth_error month_bars 20 = Some (bar_of 20 120 30))
    by reflexivity.
  assert (H' : nth_error sample_bars 4 = Some (bar_of 5 104 8))
    by reflexivity.
  split; [exact H|].
  pose proof (volume_ratio_first_valid month_bars 20 _ H) as V.
  pose proof (volume_ratio_first_valid sample_bars 4 _ H') as V'.
  destruct (calculate_volume_indicators month_bars) as [[vol_ma vol_ratio] obv].
  destruct (calculate_volume_indicators sample_bars)
    as [[vol_ma' vol_ratio'] obv'].
  split.
  - apply (proj2 V). lia.
  - apply (proj1 V'). lia.
Defined.

Lemma short_series_never_high_volume_witness :
  (length sample_bars < 20)%nat
  /\ In "BIG"%string
       (symbols
          (Market.high_volume
             (generate_market_summary (Config.mk None) "2024-01-02"
                [("NEW"%string, add_indicators sqrt_down sample_bars);
                 ("BIG"%string, [return_row (Fin 0.01) (Fin 3)])])))
  /\ ~ In "NEW"%string
         (symbols
            (Market.high_volume
               (generate_market_summary (Config.mk None) "2024-01-02"
                  [("NEW"%string, add_indicators sqrt_down sample_bars);
                   ("BIG"%string, [return_row (Fin 0.01) (Fin 3)])])))
  /\ Market.high_volume
       (generate_market_summary (Config.mk None) "2024-01-02"
          (processed_dict sqrt_down sample_series)) = [].
Proof.
  assert (H : (length sample_bars < 20)%nat) by (simpl; lia).
  assert (Hnd : NoDup
                  (map fst
                     [("NEW"%string, add_indicators sqrt_down sample_bars);
                      ("BIG"%string, [return_row (Fin 0.01) (Fin 3)])])).
  { cbn [map fst]. repeat constructor; simpl; intuition discriminate. }
  assert (Hs : Forall (fun item : string * list Bar.t =>
                         (length (snd item) < 20)%nat) sample_series)
    by (repeat constructor; simpl; lia).
  destruct (short_series_never_high_volume sqrt_down (Config.mk None)
              "2024-01-02") as [Hone Hall].
  split; [exact H|]. split; [vm_compute; left; reflexivity|]. split.
  - exact (proj2 (Hone _ "NEW"%string sample_bars Hnd
                    (or_introl eq_refl) H)).
  - exact (proj2 (Hall sample_series Hs)).
Defined.

Lemma daily_return_formula_witness :
  0 < 100
  /\ exists row,
       nth_error (add_indicators sqrt_down (two_bars 100 103)) 1 = Some row
       /\ Row.Daily_Return row = Fin (103 / 100 - 1).
Proof.
  assert (H : 0 < 100) by reflexivity.
  split; [exact H|].
  assert (E : exists row,
             nth_error (add_indicators sqrt_down (two_bars 100 103)) 1
             = Some row) by (vm_compute; eexists; reflexivity).
  destruct E as [row E]. exists row. split; [exact E|].
  apply (proj2 (daily_return_formula sqrt_down (two_bars 100 103))
           0%nat (bar_of 1 100 10) (bar_of 2 103 12) row);
    [reflexivity | reflexivity | exact H | exact E].
Defined.


Lemma alerted_symbols_are_movers_witness :
  price_change_threshold (Config.mk None) = Fin 5
  /\ 2 <= 5
  /\ (In "UP"%string
        (symbols
           (Market.gainers
              (collect (Config.mk None) "2024-01-02"
                 (processed_dict sqrt_down mover_series))))
      \/ In "UP"%string
           (symbols
              (Market.losers
                 (collect (Config.mk None) "2024-01-02"
                    (processed_dict sqrt_down mover_series))))).
Proof.
  assert (H1 : price_change_threshold (Config.mk None) = Fin 5)
    by reflexivity.
  assert (H2 : 2 <= 5) by (vm_compute; discriminate).
  split; [exact H1|]. split; [exact H2|].
  apply (alerted_symbols_are_movers (Config.mk None) "2024-01-02"
           (processed_dict sqrt_down mover_series) 5 "UP" H1 H2).
  vm_compute. left. reflexivity.
Defined.

Lemma skipped_symbol_witness :
  isna (last_return (add_indicators sqrt_down one_bar)) = true
  /\ Market.gainers
       (generate_market_summary (Config.mk None) "2024-01-02"
          (("NEW"%string, add_indicators sqrt_down one_bar)
           :: processed_dict sqrt_down mover_series))
     = Market.gainers
         (generate_market_summary (Config.mk None) "2024-01-02"
            (processed_dict sqrt_down mover_series))
  /\ Market.total_symbols
       (generate_market_summary (Config.mk None) "2024-01-02"
          (("NEW"%string, add_indicators sqrt_down one_bar)
           :: processed_dict sqrt_down mover_series))
     = S (Market.total_symbols
            (generate_market_summary (Config.mk None) "2024-01-02"
               (processed_dict sqrt_down mover_series))).
Proof.
  assert (H : isna (last_return (add_indicators sqrt_down one_bar)) = true)
    by (vm_compute; reflexivity).
  split; [exact H|].
  destruct (skipped_symbol (Config.mk None) "2024-01-02" []
              (processed_dict sqrt_down mover_series)
              ("NEW"%string, add_indicators sqrt_down one_bar)
              (or_intror (or_introl H)))
    as (Hg & _ & _ & _ & Ht).
  split; [exact Hg | exact Ht].
Defined.


Lemma short_history_analysis_witness :
  sample_bars <> [] /\ (length sample_bars < 50)%nat
  /\ exists a,
       generate_symbol_analysis sqrt_down "AAPL"
         (add_indicators sqrt_down sample_bars) = Some a
       /\ Analysis.trend_sma a = "Insufficient data"%string
       /\ Analysis.bb_position a = "N/A"%string
       /\ Analysis.support_resistance a
          = {| Levels.support := NaN; Levels.resistance := NaN |}.
Proof.
  assert (H1 : sample_bars <> []) by discriminate.
  assert (H2 : (length sample_bars < 50)%nat) by (simpl; lia).
  split; [exact H1|]. split; [exact H2|].
  destruct (short_history_analysis sqrt_down "AAPL" sample_bars H1 H2)
    as (a & Ha & Ht & Hb & Hs).
  exists a. split; [exact Ha|]. split; [exact Ht|].
  split; [apply Hb | apply Hs]; simpl; lia.
Defined.

Lemma volume_change_guarded_witness :
  (0 < 10)%Z /\ int64_range (12 - 10)
  /\ exists a,
       generate_symbol_analysis sqrt_down "AAPL"
         [sample_row 100 120 90 10; sample_row 101 120 90 12] = Some a
       /\ Analysis.volume_change a
          = Fin (inject_Z (12 - 10) / inject_Z 10 * 100).
Proof.
  assert (H1 : (0 < 10)%Z) by lia.
  assert (H2 : int64_range (12 - 10)) by (unfold int64_range; lia).
  split; [exact H1|]. split; [exact H2|].
  destruct (volume_change_guarded sqrt_down "AAPL" []
              (sample_row 100 120 90 10) (sample_row 101 120 90 12))
    as (a & Ha & _ & _ & Hv).
  exists a. split; [exact Ha|]. exact (Hv H1 H2).
Defined.

Lemma rsi_defined_iff_witness :
  (1 <= 14)%nat /\ (2 < length sample_bars)%nat
  /\ nth_error (calculate_rsi sample_bars 14) 2 = Some NaN
  /\ ~ (forall k, (0 <= k <= 2)%nat -> delta_at sample_bars k == 0)
  /\ nth_error (calculate_rsi sample_bars 3) 2 <> Some NaN.
Proof.
  assert (H1 : (1 <= 14)%nat) by lia.
  assert (H1' : (1 <= 3)%nat) by lia.
  assert (H2 : (2 < length sample_bars)%nat) by (simpl; lia).
  assert (H3 : ~ (forall k, (0 <= k <= 2)%nat -> delta_at sample_bars k == 0)).
  { intros H. specialize (H 1%nat ltac:(lia)). vm_compute in H. discriminate. }
  split; [exact H1|]. split; [exact H2|]. split.
  - apply (proj1 (rsi_defined_iff sample_bars 14 2 H1 H2)). lia.
  - split; [exact H3|]. intros E. apply H3.
    apply (proj2 (rsi_defined_iff sample_bars 3 2 H1' H2)); [lia | exact E].
Defined.


Lemma volatility_first_valid_witness :
  (2 < length sample_bars)%nat
  /\ nth_error (calculate_volatility sqrt_down sample_bars 3) 2 = Some NaN.
Proof.
  assert (H : (2 < length sample_bars)%nat) by (simpl; lia).
  split; [exact H|].
  apply (proj1 (volatility_first_valid sqrt_down sqrt_down_nonneg
                  sample_bars 3 2 H)).
  lia.
Defined.

Lemma batch_summaries_witness :
  no_empty_table good_files
  /\ exists summaries,
       process_all_data sqrt_down good_files = Ok summaries
       /\ map Stats.symbol summaries = ["AAPL"%string].
Proof.
  assert (H : no_empty_table good_files).
  { intros filename [E|[E|[]]]; discriminate. }
  split; [exact H|].
  destruct (proj2 (batch_summaries sqrt_down good_files) H)
    as (summaries & Hs & Hm).
  exists summaries. split; [exact Hs | exact Hm].
Defined.

Lemma filename_round_trip_witness :
  has_underscore "AAPL" = false
  /\ symbol_of (data_filename "AAPL" "20240102") = "AAPL"%string
  /\ before_underscore (processed_filename "AAPL" "20240102")
     = "AAPL"%string.
Proof.
  assert (H : has_underscore "AAPL" = false) by reflexivity.
  split; [exact H|].
  destruct (filename_round_trip "AAPL" "20240102") as (_ & _ & Hs).
  exact (Hs H).
Defined.

Lemma downloaded_files_process_witness :
  no_empty_table []
  /\ exists summaries,
       process_all_data sqrt_down
         (snd (download_all_symbols sample_yf (fun _ => true) "20240102"
                 ["AAPL"; "NONE"; "ERR"]%string None []))
       = Ok summaries.
Proof.
  assert (H : no_empty_table []) by (intros filename []).
  split; [exact H|].
  apply (downloaded_files_process sqrt_down sample_yf (fun _ => true)
           "20240102" ["AAPL"; "NONE"; "ERR"]%string None [] _ H
           (Permutation_refl _)).
Defined.

Lemma processed_files_loaded_witness :
  last_stored sample_processed "AAA" = Some [sample_row 100 120 90 10]
  /\ In ("AAA"%string, [sample_row 100 120 90 10])
       (load_processed_data (Some sample_processed))
  /\ exists name,
       In (name, Stored [sample_row 100 120 90 10]) sample_processed
       /\ before_underscore name = "AAA"%string.
Proof.
  assert (H : last_stored sample_processed "AAA"
              = Some [sample_row 100 120 90 10]) by reflexivity.
  split; [exact H|].
  destruct (processed_files_loaded sample_processed) as (_ & Hin & Hfrom & _).
  assert (I : In ("AAA"%string, [sample_row 100 120 90 10])
                (load_processed_data (Some sample_processed)))
    by (apply Hin; exact H).
  split; [exact I | exact (Hfrom _ _ I)].
Defined.

Lemma daily_report_analyses_witness :
  exists summary detailed_analysis,
    generate_daily_report sqrt_down (nodup string_dec) (Config.mk None)
      "2024-01-02"
      (Some
         (map (fun item =>
                 (processed_filename (fst item) "20240102",
                  Stored (snd item)))
            (processed_dict sqrt_down mover_series)))
      None
    = Some (summary, detailed_analysis)
    /\ map Analysis.symbol detailed_analysis
       = nodup string_dec (significant_symbols summary)
    /\ (length detailed_analysis <= 13)%nat.
Proof.
  pose proof (daily_report_analyses sqrt_down (nodup string_dec)
                (NoDup_nodup string_dec)
                (fun l x => nodup_In string_dec l x)
                (Config.mk None) "2024-01-02"
                (Some
                   (map (fun item =>
                           (processed_filename (fst item) "20240102",
                            Stored (snd item)))
                      (processed_dict sqrt_down mover_series)))
                None) as [Hnone Hsome].
  destruct (generate_daily_report sqrt_down (nodup string_dec)
              (Config.mk None) "2024-01-02" _ None)
    as [[summary detailed_analysis]|].
  - exists summary, detailed_analysis. split; [reflexivity|].
    destruct (Hsome summary detailed_analysis eq_refl) as (Hm & _ & Hl & _).
    split; [exact Hm | exact Hl].
  - exfalso. pose proof (proj1 Hnone eq_refl) as Hn.
    inversion Hn as [|? ? Hg _]. discriminate.
Defined.

Lemma daily_report_unknown_symbols_witness :
  ~ nothing_stored (Some sample_processed)
  /\ generate_daily_report sqrt_down (nodup string_dec) (Config.mk None)
       "2024-01-02" (Some sample_processed) (Some ["ZZZ"%string])
     = Some
         ({| Market.date := "2024-01-02"%string;
             Market.total_symbols := 0;
             Market.gainers := [];
             Market.losers := [];
             Market.high_volume := [];
             Market.alerts := [] |},
          []).
Proof.
  assert (H : ~ nothing_stored (Some sample_processed)).
  { intros Hn. inversion Hn as [|? ? Hg _]. discriminate. }
  split; [exact H|].
  apply (daily_report_unknown_symbols sqrt_down (nodup string_dec)
           (fun l x => nodup_In string_dec l x)
           (Config.mk None) "2024-01-02" (Some sample_processed)
           "ZZZ" [] H).
  intros item Hin. vm_compute in Hin. destruct Hin as [<-|[]].
  intros [E|[]]. discriminate.
Defined.

Lemma support_resistance_range_witness :
  (10 <= length ten_rows)%nat
  /\ within 100 109 (Levels.support (_find_support_resistance ten_rows))
  /\ within 100 109 (Levels.resistance (_find_support_resistance ten_rows)).
Proof.
  assert (H : (10 <= length ten_rows)%nat) by (simpl; lia).
  assert (F : forall f : Row.t -> float64,
             (forall i, f (sample_row (inject_Z (Z.of_nat i) + 100) 120 90 10)
                        = Fin (inject_Z (Z.of_nat i) + 100)) ->
             Forall (fun row => within 100 109 (f row)) ten_rows).
  { intros f Hf. unfold ten_rows. apply Forall_map, Forall_forall.
    intros i Hi. rewrite Hf. apply in_seq in Hi.
    do 10 (destruct i as [|i]; [vm_compute; split; discriminate|]). lia. }
  split; [exact H|].
  apply (support_resistance_range ten_rows 100 109 100 109 H);
    apply F; reflexivity.
Defined.
